(** * Tree decorator: state, quota, persistence and auth

    A shallow embedding of [src/data/treeStore.ts] and [src/convex/auth.ts],
    together with the collaborators they call.

    Conventions.
    - An [async] function is its sequential body: every [await] is a bind.
    - A function that may throw runs in [M St A]: it yields an [outcome]
      (a returned value or a thrown error) and the state reached so far,
      so [try]/[catch]/[finally] can be written as in the source.
    - [Date.now()] and [Math.random()] are read from an [Ambient] oracle,
      indexed by the number of reads made so far.
    - A store action is a closure of one render: what it reads of the
      state outside a setter's updater is what that render saw.
      [addOrnament], whose quota check reads the count its render
      captured while its append works on the live sequence, takes the
      state of its render as an argument. The other actions are taken on
      the hook value of the latest render ([render]). *)

From Stdlib Require Import ZArith QArith Ascii String.
From stdpp Require Import base option list strings gmap pretty.

(* ================================================================== *)
(** ** Outcomes and the state-and-exception monad *)
(* ================================================================== *)

Inductive outcome (A : Type) : Type :=
  | Returned (a : A)
  | Threw (error : string).
Arguments Returned {A} a.
Arguments Threw {A} error.

(** A run carries the number of ambient reads made so far next to the
    state proper. *)
Record Run (St : Type) : Type := mkRun { ticks : nat; state : St }.
Arguments mkRun {St} ticks state.
Arguments ticks {St} r.
Arguments state {St} r.

Definition M (St A : Type) : Type := Run St → outcome A * Run St.

Definition throw {St A} (e : string) : M St A := λ r, (Threw e, r).

#[global] Instance M_ret {St} : MRet (M St) := λ A a r, (Returned a, r).

#[global] Instance M_bind {St} : MBind (M St) := λ A B k m r,
  match m r with
  | (Returned a, r') => k a r'
  | (Threw e, r') => (Threw e, r')
  end.

#[global] Instance M_fmap {St} : FMap (M St) := λ A B f m,
  a ← m; mret (f a).

(** [try { body } catch (error) { handler error }]: what [body] did to the
    state before it threw stays done. *)
Definition try_catch {St A} (body : M St A) (handler : string → M St A) : M St A :=
  λ r, match body r with
       | (Returned a, r') => (Returned a, r')
       | (Threw e, r') => handler e r'
       end.

(** [try { body } finally { final }], for a [final] that does not throw. *)
Definition try_finally {St A} (body : M St A) (final : M St unit) : M St A :=
  λ r, match body r with
       | (o, r') => (o, snd (final r'))
       end.

Definition get {St} : M St St := λ r, (Returned (state r), r).

Definition modify {St} (f : St → St) : M St unit :=
  λ r, (Returned tt, mkRun (ticks r) (f (state r))).

(** Lifts an outcome computed elsewhere (the reply of a collaborator). *)
Definition lift {St A} (o : outcome A) : M St A := λ r, (o, r).

(** The ambient browser or server runtime. [Math_random_digits k] is the
    string of base-36 digits that follows ["0."] in
    [Math.random().toString(36)] at the [k]-th read. *)
Class Ambient := {
  Date_now : nat → Z;
  Math_random_digits : nat → string;
}.

Definition tick {St} : M St nat :=
  λ r, (Returned (ticks r), mkRun (S (ticks r)) (state r)).

Definition dateNow {ambient : Ambient} {St} : M St Z :=
  k ← tick; mret (Date_now k).

(** [Math.random().toString(36).substring(2)] *)
Definition randomSubstring2 {ambient : Ambient} {St} : M St string :=
  k ← tick; mret (Math_random_digits k).

(** [Math.random().toString(36).substr(2, 9)] *)
Definition randomSubstr2_9 {ambient : Ambient} {St} : M St string :=
  k ← tick; mret (String.substring 0 9 (Math_random_digits k)).

(* ================================================================== *)
(** ** Data model ([../types], as used by the store) *)
(* ================================================================== *)

(** A finite JavaScript number, as the exact rational it denotes. The
    store never computes with these fields; it only copies them. *)
Definition number : Type := Q.

Record TreeConfig := mkTreeConfig {
  cfg_seed : number;
  cfg_height : number;
  cfg_radius : number;
  cfg_tiers : number;
  cfg_color : string;
  cfg_snowAmount : number;
}.

(** What a caller supplies for an ornament, and what an export carries
    for it (the object shape of [ornaments] in [convex/trees.ts]). An
    ornament type is the string it is at run time. *)
Record OrnamentDraft := mkOrnamentDraft {
  od_type : string;
  od_color : string;
  od_position : list number;
  od_scale : number;
  od_rotation : option (list number);
}.

Record OrnamentData := mkOrnamentData {
  orn_type : string;
  orn_color : string;
  orn_position : list number;
  orn_scale : number;
  orn_rotation : option (list number);
  orn_id : string;
  orn_userId : option string;
  orn_userName : option string;
  orn_createdAt : Z;
}.

(** [Partial<OrnamentData>]: [None] is a key that is absent. *)
Record PartialOrnamentData := mkPartialOrnamentData {
  upd_type : option string;
  upd_color : option string;
  upd_position : option (list number);
  upd_scale : option number;
  upd_rotation : option (option (list number));
  upd_id : option string;
  upd_userId : option (option string);
  upd_userName : option (option string);
  upd_createdAt : option Z;
}.

Record TopperDraft := mkTopperDraft {
  td_type : string;
  td_color : string;
  td_scale : number;
  td_glow : bool;
}.

Record TreeTopperData := mkTreeTopperData {
  top_type : string;
  top_color : string;
  top_scale : number;
  top_glow : bool;
  top_id : string;
  top_userId : option string;
  top_userName : option string;
  top_createdAt : Z;
}.

Record UserQuota := mkUserQuota {
  maxOrnaments : Z;
  usedOrnaments : Z;
  maxToppers : Z;
  usedToppers : Z;
  canUseSpecialOrnaments : bool;
  canUseCustomColors : bool;
  canUseAnimations : bool;
}.

Record User := mkUser {
  user_id : string;
  user_email : string;
  user_passwordHash : string;
  user_name : option string;
  user_tier : string;
  user_quota : UserQuota;
  user_createdAt : Z;
  user_updatedAt : Z;
}.

(** *** The export envelope ([TreeExportData], with the fields that
    [saveToCloud] reads and [convex/trees.ts] validates) *)

Record TreeExportMetadata := mkTreeExportMetadata {
  meta_name : option string;
  meta_description : option string;
  meta_authorName : option string;
  meta_authorId : option string;
  meta_thumbnail : option string;
  meta_tags : list string;
}.

(** [Partial<TreeConfig>] *)
Record PartialTreeConfig := mkPartialTreeConfig {
  pc_seed : option number;
  pc_height : option number;
  pc_radius : option number;
  pc_tiers : option number;
  pc_color : option string;
  pc_snowAmount : option number;
}.

(** [Partial<TreeExportMetadata>] *)
Record PartialTreeExportMetadata := mkPartialTreeExportMetadata {
  pm_name : option (option string);
  pm_description : option (option string);
  pm_authorName : option (option string);
  pm_authorId : option (option string);
  pm_thumbnail : option (option string);
  pm_tags : option (list string);
}.

Record TreeExportData := mkTreeExportData {
  treeConfig : TreeConfig;
  topper : option TopperDraft;
  ornaments : list OrnamentDraft;
  metadata : TreeExportMetadata;
  exportedAt : Z;
}.

(** The value [prepareTreeRestore] hands back. *)
Record TreeRestore := mkTreeRestore {
  restored_treeConfig : TreeConfig;
  restored_topper : option TopperDraft;
  restored_ornaments : list OrnamentDraft;
}.

(* ================================================================== *)
(** ** The store's state and its world *)
(* ================================================================== *)

Record TreeStoreState := mkTreeStoreState {
  st_ornaments : list OrnamentData;
  st_topper : option TreeTopperData;
  st_treeConfig : TreeConfig;
  st_currentUser : option User;
  st_isLoading : bool;
  st_isSyncing : bool;
  st_cloudId : option string;
}.

(** What a store action can read and write: the hook's state and the
    browser's [localStorage]. *)
Record World := mkWorld {
  store : TreeStoreState;
  localStorage : gmap string string;
}.

(** The tree proper: what a load replaces. *)
Definition sameTree (s s' : TreeStoreState) : Prop :=
  st_ornaments s' = st_ornaments s ∧
  st_topper s' = st_topper s ∧
  st_treeConfig s' = st_treeConfig s.

Definition DEFAULT_TREE_CONFIG : TreeConfig := {|
  cfg_seed := 12345%Q;
  cfg_height := 6%Q;
  cfg_radius := 2.5%Q;
  cfg_tiers := 7%Q;
  cfg_color := "#1a472a";
  cfg_snowAmount := 0.3%Q;
|}.

(** Runs a computation on a part of the state; the count of ambient
    reads is shared. *)
Definition zoom {St Part A} (part : St → Part) (update : Part → St → St)
    (m : M Part A) : M St A :=
  λ r, match m (mkRun (ticks r) (part (state r))) with
       | (o, r') => (o, mkRun (ticks r') (update (state r') (state r)))
       end.

Definition with_store (f : TreeStoreState → TreeStoreState) (w : World) : World :=
  {| store := f (store w); localStorage := localStorage w |}.

Definition with_localStorage (ls : gmap string string) (w : World) : World :=
  {| store := store w; localStorage := ls |}.

(* ================================================================== *)
(** ** Collaborators of the store *)
(* ================================================================== *)

(** The exports of [./treeExport] that the store calls. [exportTree]
    touches no state but may read the clock; the local backend works on
    the browser's key-value storage. *)
Class TreeExport := {
  exportTree : list OrnamentData → option TreeTopperData → TreeConfig →
               PartialTreeExportMetadata → M unit TreeExportData;
  prepareTreeRestore : TreeExportData → outcome TreeRestore;
  generateShareCode : TreeExportData → string;
  parseShareCode : string → option TreeExportData;
  localStorageBackend_save : TreeExportData → M (gmap string string) string;
  localStorageBackend_load : string → M (gmap string string) (option TreeExportData);
}.

(** The Convex client of [../lib/convex]: [useMutation(api.trees.save)]
    and [convex.query(api.trees.get, { id })], each of which either
    answers or throws. *)
Class ConvexClient := {
  saveMutation : TreeExportData → outcome string;
  convex_query_trees_get : string → outcome (option TreeExportData);
}.

(** [DEFAULT_USER], over the entry [DEFAULT_QUOTAS.unlimited] of
    [../types] and the two clock readings made when the module loads. *)
Definition DEFAULT_USER (DEFAULT_QUOTAS_unlimited : UserQuota) (createdAt updatedAt : Z) : User := {|
  user_id := "local-user";
  user_email := "guest@example.com";
  user_passwordHash := "";
  user_name := Some "Guest";
  user_tier := "unlimited";
  user_quota := {|
    maxOrnaments := maxOrnaments DEFAULT_QUOTAS_unlimited;
    usedOrnaments := 0;
    maxToppers := maxToppers DEFAULT_QUOTAS_unlimited;
    usedToppers := 0;
    canUseSpecialOrnaments := canUseSpecialOrnaments DEFAULT_QUOTAS_unlimited;
    canUseCustomColors := canUseCustomColors DEFAULT_QUOTAS_unlimited;
    canUseAnimations := canUseAnimations DEFAULT_QUOTAS_unlimited;
  |};
  user_createdAt := createdAt;
  user_updatedAt := updatedAt;
|}.

(** The state of the hook at its first render, for a current user. *)
Definition initialState (currentUser : User) : TreeStoreState := {|
  st_ornaments := [];
  st_topper := None;
  st_treeConfig := DEFAULT_TREE_CONFIG;
  st_currentUser := Some currentUser;
  st_isLoading := false;
  st_isSyncing := false;
  st_cloudId := None;
|}.

(* ================================================================== *)
(** ** Store implementation ([useTreeStore]) *)
(* ================================================================== *)

Section useTreeStore.
Context {ambient : Ambient} {treeExport : TreeExport} {convex : ConvexClient}.
(** [window.location.origin] *)
Variable window_location_origin : string.

(** *** State setters, as React's [setState] on one field *)

Definition setOrnaments (f : list OrnamentData → list OrnamentData) : M World unit :=
  modify (with_store (λ s,
    mkTreeStoreState (f (st_ornaments s)) (st_topper s) (st_treeConfig s)
      (st_currentUser s) (st_isLoading s) (st_isSyncing s) (st_cloudId s))).

Definition setTopperState (t : option TreeTopperData) : M World unit :=
  modify (with_store (λ s,
    mkTreeStoreState (st_ornaments s) t (st_treeConfig s)
      (st_currentUser s) (st_isLoading s) (st_isSyncing s) (st_cloudId s))).

Definition setTreeConfig (f : TreeConfig → TreeConfig) : M World unit :=
  modify (with_store (λ s,
    mkTreeStoreState (st_ornaments s) (st_topper s) (f (st_treeConfig s))
      (st_currentUser s) (st_isLoading s) (st_isSyncing s) (st_cloudId s))).

Definition setIsLoading (b : bool) : M World unit :=
  modify (with_store (λ s,
    mkTreeStoreState (st_ornaments s) (st_topper s) (st_treeConfig s)
      (st_currentUser s) b (st_isSyncing s) (st_cloudId s))).

Definition setCloudId (id : option string) : M World unit :=
  modify (with_store (λ s,
    mkTreeStoreState (st_ornaments s) (st_topper s) (st_treeConfig s)
      (st_currentUser s) (st_isLoading s) (st_isSyncing s) id)).

(** The hook value of the current render. *)
Definition render : M World TreeStoreState := store <$> get.

(** [${Date.now()}-${Math.random().toString(36).substr(2, 9)}] *)
Definition generateId {St} : M St string :=
  now ← dateNow;
  digits ← randomSubstr2_9;
  mret (pretty now +:+ "-" +:+ digits).

(** The id that [generateId] returns when it starts at read [k]. *)
Definition idAt (k : nat) : string :=
  pretty (Date_now k) +:+ "-" +:+ String.substring 0 9 (Math_random_digits (S k)).

(** *** Quota calculations *)

Definition usedOrnamentsOf (s : TreeStoreState) : Z :=
  Z.of_nat (length (st_ornaments s)).

Definition canAddOrnament (s : TreeStoreState) : bool :=
  match st_currentUser s with
  | None => false
  | Some u => bool_decide (usedOrnamentsOf s < maxOrnaments (user_quota u))%Z
  end.

Definition specialTypes : list string := ["heart"; "ribbon"; "gingerbread"].

Definition canUseOrnamentType (s : TreeStoreState) (type : string) : bool :=
  match st_currentUser s with
  | None => false
  | Some u =>
      if bool_decide (type ∈ specialTypes)
      then canUseSpecialOrnaments (user_quota u)
      else true
  end.

Definition getRemainingOrnaments (s : TreeStoreState) : Z :=
  match st_currentUser s with
  | None => 0
  | Some u => Z.max 0 (maxOrnaments (user_quota u) - usedOrnamentsOf s)
  end.

(** *** Actions *)

(** [{ ...fields, id, userId: currentUser?.id, userName: currentUser?.name,
    createdAt }] *)
Definition identifyOrnament (fields : OrnamentDraft) (id : string)
    (currentUser : option User) (createdAt : Z) : OrnamentData := {|
  orn_type := od_type fields;
  orn_color := od_color fields;
  orn_position := od_position fields;
  orn_scale := od_scale fields;
  orn_rotation := od_rotation fields;
  orn_id := id;
  orn_userId := user_id <$> currentUser;
  orn_userName := currentUser ≫= user_name;
  orn_createdAt := createdAt;
|}.

Definition identifyTopper (fields : TopperDraft) (id : string)
    (currentUser : option User) (createdAt : Z) : TreeTopperData := {|
  top_type := td_type fields;
  top_color := td_color fields;
  top_scale := td_scale fields;
  top_glow := td_glow fields;
  top_id := id;
  top_userId := user_id <$> currentUser;
  top_userName := currentUser ≫= user_name;
  top_createdAt := createdAt;
|}.

(** [hook] is the state of the render whose [addOrnament] is called:
    [canAddOrnament] reads [usedOrnaments = ornaments.length] and
    [currentUser] as that render captured them, whereas the updater given
    to [setOrnaments] receives the live sequence. *)
Definition addOrnament (hook : TreeStoreState) (ornamentData : OrnamentDraft)
    : M World (option OrnamentData) :=
  if negb (canAddOrnament hook) then mret None
  else
    id ← generateId;
    now ← dateNow;
    let newOrnament := identifyOrnament ornamentData id (st_currentUser hook) now in
    setOrnaments (λ prev, prev ++ [newOrnament]);;
    mret (Some newOrnament).

(** A call of an action of the latest render: what a caller does that
    reads the hook value anew before the call. *)
Definition onLatestRender {A} (action : TreeStoreState → M World A) : M World A :=
  hook ← render;
  action hook.

Definition removeOrnament (ornamentId : string) : M World bool :=
  setOrnaments (λ prev, filter (λ o, orn_id o ≠ ornamentId) prev);;
  mret true.

(** [{ ...o, ...updates }]: every key present in [updates] wins. *)
Definition mergeOrnament (o : OrnamentData) (updates : PartialOrnamentData) : OrnamentData := {|
  orn_type := default (orn_type o) (upd_type updates);
  orn_color := default (orn_color o) (upd_color updates);
  orn_position := default (orn_position o) (upd_position updates);
  orn_scale := default (orn_scale o) (upd_scale updates);
  orn_rotation := default (orn_rotation o) (upd_rotation updates);
  orn_id := default (orn_id o) (upd_id updates);
  orn_userId := default (orn_userId o) (upd_userId updates);
  orn_userName := default (orn_userName o) (upd_userName updates);
  orn_createdAt := default (orn_createdAt o) (upd_createdAt updates);
|}.

Definition updateOrnament (ornamentId : string) (updates : PartialOrnamentData) : M World bool :=
  setOrnaments (λ prev,
    (λ o, if decide (orn_id o = ornamentId) then mergeOrnament o updates else o) <$> prev);;
  mret true.

Definition clearOrnaments : M World unit :=
  setOrnaments (λ _, []).

Definition setTopper (topperData : option TopperDraft) : M World unit :=
  match topperData with
  | None => setTopperState None
  | Some fields =>
      s ← render;
      id ← generateId;
      now ← dateNow;
      setTopperState (Some (identifyTopper fields id (st_currentUser s) now))
  end.

Definition mergeTreeConfig (prev : TreeConfig) (updates : PartialTreeConfig) : TreeConfig := {|
  cfg_seed := default (cfg_seed prev) (pc_seed updates);
  cfg_height := default (cfg_height prev) (pc_height updates);
  cfg_radius := default (cfg_radius prev) (pc_radius updates);
  cfg_tiers := default (cfg_tiers prev) (pc_tiers updates);
  cfg_color := default (cfg_color prev) (pc_color updates);
  cfg_snowAmount := default (cfg_snowAmount prev) (pc_snowAmount updates);
|}.

Definition updateTreeConfig (updates : PartialTreeConfig) : M World unit :=
  setTreeConfig (λ prev, mergeTreeConfig prev updates).

(** *** Export and import *)

Definition noMetadata : PartialTreeExportMetadata :=
  mkPartialTreeExportMetadata None None None None None None.

(** [{ ...metadata, authorName: currentUser?.name, authorId: currentUser?.id }] *)
Definition withAuthor (metadata : option PartialTreeExportMetadata)
    (currentUser : option User) : PartialTreeExportMetadata :=
  let m := default noMetadata metadata in {|
    pm_name := pm_name m;
    pm_description := pm_description m;
    pm_authorName := Some (currentUser ≫= user_name);
    pm_authorId := Some (user_id <$> currentUser);
    pm_thumbnail := pm_thumbnail m;
    pm_tags := pm_tags m;
  |}.

Definition exportTreeData (metadata : option PartialTreeExportMetadata) : M World TreeExportData :=
  s ← render;
  zoom (λ _, tt) (λ _ w, w)
    (exportTree (st_ornaments s) (st_topper s) (st_treeConfig s)
       (withAuthor metadata (st_currentUser s))).

Definition importFromData (data : TreeExportData) : M World unit :=
  restored ← lift (prepareTreeRestore data);
  s ← render;
  setOrnaments (λ _, []);;
  setTopperState None;;
  setTreeConfig (λ _, restored_treeConfig restored);;
  match restored_topper restored with
  | Some t =>
      id ← generateId;
      now ← dateNow;
      setTopperState (Some (identifyTopper t id (st_currentUser s) now))
  | None => mret tt
  end;;
  fresh ← mapM (λ o,
             id ← generateId;
             now ← dateNow;
             mret (identifyOrnament o id (st_currentUser s) now))
           (restored_ornaments restored);
  setOrnaments (λ _, fresh).

(** *** Persistence *)

Definition onLocalStorage {A} (m : M (gmap string string) A) : M World A :=
  zoom localStorage with_localStorage m.

Definition saveToCloud (meta : option PartialTreeExportMetadata) : M World string :=
  data ← exportTreeData meta;
  try_catch
    (id ← lift (saveMutation {|
             treeConfig := treeConfig data;
             topper := topper data;
             ornaments :=
               (λ o, mkOrnamentDraft (od_type o) (od_color o) (od_position o)
                       (od_scale o) (od_rotation o)) <$> ornaments data;
             metadata := metadata data;
             exportedAt := exportedAt data;
           |});
     setCloudId (Some id);;
     mret id)
    (λ error,
       (* Fallback to local storage if Convex fails *)
       onLocalStorage (localStorageBackend_save data)).

Definition loadFromCloud (id : string) : M World bool :=
  setIsLoading true;;
  try_finally
    (try_catch
       (result ← lift (convex_query_trees_get id);
        match result with
        | Some found =>
            importFromData found;;
            setCloudId (Some id);;
            mret true
        | None => mret false
        end)
       (λ error, mret false))
    (setIsLoading false).

Definition getCloudShareURL (s : TreeStoreState) : string :=
  match st_cloudId s with
  | None => ""
  | Some cloudId =>
      if decide (cloudId = "") then ""
      else window_location_origin +:+ "?id=" +:+ cloudId
  end.

Definition getShareCode : M World string :=
  generateShareCode <$> exportTreeData None.

Definition importFromCode (code : string) : M World bool :=
  match parseShareCode code with
  | None => mret false
  | Some data => importFromData data;; mret true
  end.

Definition saveToStorage (meta : option PartialTreeExportMetadata) : M World string :=
  data ← exportTreeData meta;
  onLocalStorage (localStorageBackend_save data).

Definition loadFromStorage (id : string) : M World bool :=
  data ← onLocalStorage (localStorageBackend_load id);
  match data with
  | None => mret false
  | Some found => importFromData found;; mret true
  end.

End useTreeStore.

(* ================================================================== *)
(** ** Reading the store's entities *)
(* ================================================================== *)

(** The fields of an ornament that a draft or an envelope carries. *)
Definition ornamentFields (o : OrnamentData) : OrnamentDraft :=
  mkOrnamentDraft (orn_type o) (orn_color o) (orn_position o) (orn_scale o)
    (orn_rotation o).

Definition topperFields (t : TreeTopperData) : TopperDraft :=
  mkTopperDraft (top_type t) (top_color t) (top_scale t) (top_glow t).

(** What the [map] of [importFromData] builds when it starts at read
    [k]: each ornament takes three reads, two for its id and one for its
    creation time. *)
Fixpoint identifyAll {ambient : Ambient} (currentUser : option User) (k : nat)
    (fields : list OrnamentDraft) : list OrnamentData :=
  match fields with
  | [] => []
  | o :: rest =>
      identifyOrnament o (idAt k) currentUser (Date_now (S (S k)))
        :: identifyAll currentUser (S (S (S k))) rest
  end.

(** An update that carries no field. *)
Definition noUpdates : PartialOrnamentData :=
  mkPartialOrnamentData None None None None None None None None None.

Definition noConfigUpdates : PartialTreeConfig :=
  mkPartialTreeConfig None None None None None None.

(** [navigator.clipboard.writeText], which either completes or throws. *)
Class Clipboard := {
  writeText : string → outcome unit;
}.

Section useTreeStore_clipboard.
Context {clipboard : Clipboard}.
Variable window_location_origin : string.

Definition copyCloudShareURL (s : TreeStoreState) : outcome bool :=
  let url := getCloudShareURL window_location_origin s in
  if decide (url = "") then Returned false
  else
    match writeText url with
    | Returned _ => Returned true
    | Threw e => Threw e
    end.

End useTreeStore_clipboard.

(* ================================================================== *)
(** ** The [./treeExport] module *)
(* ================================================================== *)

(** The file [data/treeExport.ts] is not part of the sources at hand.
    What follows writes its exports out from their description, over the
    envelope type above. *)

Module TreeExportModel.

(** *** Wire format

    A codec writes a value as a run of characters and reads one back
    from the front of a run, handing over what is left. Every character
    written is an unreserved URL character. *)

Record codec (A : Type) := Codec {
  enc : A → list ascii;
  dec : list ascii → option (A * list ascii);
}.
Arguments Codec {A} enc dec.
Arguments enc {A} c a.
Arguments dec {A} c input.

(** A codec loses nothing when reading back what it wrote, whatever
    follows, gives the value and hands over what follows. *)
Class Lossless {A} (c : codec A) : Prop :=
  lossless : ∀ (a : A) (rest : list ascii), dec c (enc c a ++ rest) = Some (a, rest).

(** The unreserved characters of a URL: letters, digits, and the four
    marks [-], [.], [_] and [~]. *)
Definition unreserved (c : ascii) : bool :=
  let n := N_of_ascii c in
  ((48 <=? n) && (n <=? 57) || (65 <=? n) && (n <=? 90) || (97 <=? n) && (n <=? 122)
   || (n =? 45) || (n =? 46) || (n =? 95) || (n =? 126))%N.

(** A codec is URL-safe when it writes unreserved characters only. *)
Class UrlSafe {A} (c : codec A) : Prop :=
  url_safe : ∀ a : A, Forall (λ ch, unreserved ch = true) (enc c a).

(** Binary digits, least significant first, closed by a dot. *)
Fixpoint enc_positive (p : positive) : list ascii :=
  match p with
  | xH => ["."%char]
  | xO q => "0"%char :: enc_positive q
  | xI q => "1"%char :: enc_positive q
  end.

Fixpoint dec_positive (input : list ascii) : option (positive * list ascii) :=
  match input with
  | "."%char :: rest => Some (xH, rest)
  | "0"%char :: rest => '(q, rest') ← dec_positive rest; Some (xO q, rest')
  | "1"%char :: rest => '(q, rest') ← dec_positive rest; Some (xI q, rest')
  | _ => None
  end.

Definition positive_codec : codec positive := Codec enc_positive dec_positive.

Definition N_codec : codec N := Codec
  (λ n, match n with
        | N0 => ["z"%char]
        | Npos p => "p"%char :: enc_positive p
        end)
  (λ input, match input with
            | "z"%char :: rest => Some (N0, rest)
            | "p"%char :: rest => '(p, rest') ← dec_positive rest; Some (Npos p, rest')
            | _ => None
            end).

Definition Z_codec : codec Z := Codec
  (λ z, match z with
        | Z0 => ["z"%char]
        | Zpos p => "p"%char :: enc_positive p
        | Zneg p => "n"%char :: enc_positive p
        end)
  (λ input, match input with
            | "z"%char :: rest => Some (Z0, rest)
            | "p"%char :: rest => '(p, rest') ← dec_positive rest; Some (Zpos p, rest')
            | "n"%char :: rest => '(p, rest') ← dec_positive rest; Some (Zneg p, rest')
            | _ => None
            end).

Definition bool_codec : codec bool := Codec
  (λ b : bool, if b then ["t"%char] else ["f"%char])
  (λ input, match input with
            | "t"%char :: rest => Some (true, rest)
            | "f"%char :: rest => Some (false, rest)
            | _ => None
            end).

(** Two codecs in a row. *)
Definition pair_codec {A B} (ca : codec A) (cb : codec B) : codec (A * B) := Codec
  (λ ab : A * B, enc ca ab.1 ++ enc cb ab.2)
  (λ input,
     '(a, rest) ← dec ca input;
     '(b, rest') ← dec cb rest;
     Some ((a, b), rest')).

(** A type read through another one that carries the same data. *)
Definition via {A B} (to : B → A) (from : A → B) (c : codec A) : codec B := Codec
  (λ b, enc c (to b))
  (λ input, '(a, rest) ← dec c input; Some (from a, rest)).

Definition option_codec {A} (c : codec A) : codec (option A) := Codec
  (λ o, match o with
        | None => ["N"%char]
        | Some a => "S"%char :: enc c a
        end)
  (λ input, match input with
            | "N"%char :: rest => Some (None, rest)
            | "S"%char :: rest => '(a, rest') ← dec c rest; Some (Some a, rest')
            | _ => None
            end).

(** A list is its length followed by its elements. *)
Fixpoint enc_items {A} (c : codec A) (l : list A) : list ascii :=
  match l with
  | [] => []
  | a :: l' => enc c a ++ enc_items c l'
  end.

Fixpoint dec_items {A} (c : codec A) (count : nat) (input : list ascii)
    : option (list A * list ascii) :=
  match count with
  | O => Some ([], input)
  | S count' =>
      '(a, rest) ← dec c input;
      '(l, rest') ← dec_items c count' rest;
      Some (a :: l, rest')
  end.

Definition list_codec {A} (c : codec A) : codec (list A) := Codec
  (λ l, enc N_codec (N.of_nat (length l)) ++ enc_items c l)
  (λ input,
     '(n, rest) ← dec N_codec input;
     dec_items c (N.to_nat n) rest).

(** A character is two hexadecimal digits, low half first. *)
Definition hex_of_nibble (b0 b1 b2 b3 : bool) : ascii :=
  match b3, b2, b1, b0 with
  | false, false, false, false => "0"
  | false, false, false, true => "1"
  | false, false, true, false => "2"
  | false, false, true, true => "3"
  | false, true, false, false => "4"
  | false, true, false, true => "5"
  | false, true, true, false => "6"
  | false, true, true, true => "7"
  | true, false, false, false => "8"
  | true, false, false, true => "9"
  | true, false, true, false => "a"
  | true, false, true, true => "b"
  | true, true, false, false => "c"
  | true, true, false, true => "d"
  | true, true, true, false => "e"
  | true, true, true, true => "f"
  end%char.

Definition nibble_of_hex (c : ascii) : option (bool * bool * bool * bool) :=
  match c with
  | "0" => Some (false, false, false, false)
  | "1" => Some (true, false, false, false)
  | "2" => Some (false, true, false, false)
  | "3" => Some (true, true, false, false)
  | "4" => Some (false, false, true, false)
  | "5" => Some (true, false, true, false)
  | "6" => Some (false, true, true, false)
  | "7" => Some (true, true, true, false)
  | "8" => Some (false, false, false, true)
  | "9" => Some (true, false, false, true)
  | "a" => Some (false, true, false, true)
  | "b" => Some (true, true, false, true)
  | "c" => Some (false, false, true, true)
  | "d" => Some (true, false, true, true)
  | "e" => Some (false, true, true, true)
  | "f" => Some (true, true, true, true)
  | _ => None
  end%char.

Definition ascii_codec : codec ascii := Codec
  (λ c, match c with
        | Ascii b0 b1 b2 b3 b4 b5 b6 b7 =>
            [hex_of_nibble b0 b1 b2 b3; hex_of_nibble b4 b5 b6 b7]
        end)
  (λ input, match input with
            | lo :: hi :: rest =>
                '(b0, b1, b2, b3) ← nibble_of_hex lo;
                '(b4, b5, b6, b7) ← nibble_of_hex hi;
                Some (Ascii b0 b1 b2 b3 b4 b5 b6 b7, rest)
            | _ => None
            end).

Definition string_codec : codec string :=
  via list_ascii_of_string string_of_list_ascii (list_codec ascii_codec).

(** A finite number is its numerator and its denominator. *)
Definition number_codec : codec number :=
  via (λ q : Q, (Qnum q, Qden q)) (λ nd : Z * positive, Qmake nd.1 nd.2)
    (pair_codec Z_codec positive_codec).

(** *** The envelope on the wire *)

Definition TreeConfig_codec : codec TreeConfig :=
  via (λ c, (cfg_seed c, (cfg_height c, (cfg_radius c, (cfg_tiers c,
               (cfg_color c, cfg_snowAmount c))))))
      (λ '(seed, (height, (radius, (tiers, (color, snowAmount))))),
         mkTreeConfig seed height radius tiers color snowAmount)
    (pair_codec number_codec (pair_codec number_codec (pair_codec number_codec
      (pair_codec number_codec (pair_codec string_codec number_codec))))).

Definition TopperDraft_codec : codec TopperDraft :=
  via (λ t, (td_type t, (td_color t, (td_scale t, td_glow t))))
      (λ '(type, (color, (scale, glow))), mkTopperDraft type color scale glow)
    (pair_codec string_codec (pair_codec string_codec
      (pair_codec number_codec bool_codec))).

Definition OrnamentDraft_codec : codec OrnamentDraft :=
  via (λ o, (od_type o, (od_color o, (od_position o, (od_scale o, od_rotation o)))))
      (λ '(type, (color, (position, (scale, rotation)))),
         mkOrnamentDraft type color position scale rotation)
    (pair_codec string_codec (pair_codec string_codec
      (pair_codec (list_codec number_codec)
        (pair_codec number_codec (option_codec (list_codec number_codec)))))).

Definition TreeExportMetadata_codec : codec TreeExportMetadata :=
  via (λ m, (meta_name m, (meta_description m, (meta_authorName m,
               (meta_authorId m, (meta_thumbnail m, meta_tags m))))))
      (λ '(name, (description, (authorName, (authorId, (thumbnail, tags))))),
         mkTreeExportMetadata name description authorName authorId thumbnail tags)
    (pair_codec (option_codec string_codec) (pair_codec (option_codec string_codec)
      (pair_codec (option_codec string_codec) (pair_codec (option_codec string_codec)
        (pair_codec (option_codec string_codec) (list_codec string_codec)))))).

Definition TreeExportData_codec : codec TreeExportData :=
  via (λ e, (treeConfig e, (topper e, (ornaments e, (metadata e, exportedAt e)))))
      (λ '(config, (top, (orns, (meta, at_)))),
         mkTreeExportData config top orns meta at_)
    (pair_codec TreeConfig_codec (pair_codec (option_codec TopperDraft_codec)
      (pair_codec (list_codec OrnamentDraft_codec)
        (pair_codec TreeExportMetadata_codec Z_codec)))).

(** The format version every share code opens with. *)
Definition shareCodeVersion : list ascii := ["v"; "1"; "-"]%char.

(** Modelled from the spec: [generateShareCode] of [./treeExport], a
    deterministic, lossless, self-describing encoding of the whole
    envelope into characters that need no escaping in a URL. *)
Definition generateShareCode (e : TreeExportData) : string :=
  string_of_list_ascii (shareCodeVersion ++ enc TreeExportData_codec e).

(** Modelled from the spec: [parseShareCode] of [./treeExport], the
    inverse of [generateShareCode]; malformed, truncated or
    version-incompatible input gives null, never an exception. *)
Definition parseShareCode (code : string) : option TreeExportData :=
  match list_ascii_of_string code with
  | "v"%char :: "1"%char :: "-"%char :: body =>
      match dec TreeExportData_codec body with
      | Some (e, []) => Some e
      | _ => None
      end
  | _ => None
  end.

(** *** Export and restore *)

Definition exportOrnament (o : OrnamentData) : OrnamentDraft :=
  mkOrnamentDraft (orn_type o) (orn_color o) (orn_position o) (orn_scale o)
    (orn_rotation o).

Definition exportTopper (t : TreeTopperData) : TopperDraft :=
  mkTopperDraft (top_type t) (top_color t) (top_scale t) (top_glow t).

(** Caller-supplied overrides on top of the defaults: nothing named,
    no tags. *)
Definition mergeMetadata (overrides : PartialTreeExportMetadata) : TreeExportMetadata := {|
  meta_name := default None (pm_name overrides);
  meta_description := default None (pm_description overrides);
  meta_authorName := default None (pm_authorName overrides);
  meta_authorId := default None (pm_authorId overrides);
  meta_thumbnail := default None (pm_thumbnail overrides);
  meta_tags := default [] (pm_tags overrides);
|}.

(** Modelled from the spec: [exportTree] of [./treeExport]. It copies
    the ornaments and the topper into the envelope, merges the metadata
    overrides on top of the defaults and stamps [exportedAt] with the
    current time. The envelope keeps, of each ornament and of the
    topper, the fields that [convex/trees.ts] accepts. *)
Definition exportTree {ambient : Ambient} (orns : list OrnamentData) (top : option TreeTopperData)
    (config : TreeConfig) (overrides : PartialTreeExportMetadata) : M unit TreeExportData :=
  now ← dateNow;
  mret {|
    treeConfig := config;
    topper := exportTopper <$> top;
    ornaments := exportOrnament <$> orns;
    metadata := mergeMetadata overrides;
    exportedAt := now;
  |}.

(** Modelled from the spec: [prepareTreeRestore] of [./treeExport]. An
    envelope of this type always has its [treeConfig], a topper or
    none, and a sequence of ornaments, so nothing is rejected; ids are
    left for the store to assign. *)
Definition prepareTreeRestore (e : TreeExportData) : outcome TreeRestore :=
  Returned {|
    restored_treeConfig := treeConfig e;
    restored_topper := topper e;
    restored_ornaments := ornaments e;
  |}.

(** *** The local backend *)

(** The fixed prefix of the keys this module owns in the storage. *)
Definition STORAGE_PREFIX : string := "christmas_tree_".

(** Modelled from the spec: [localStorageBackend.save] of
    [./treeExport]. It stores the envelope under a locally generated
    identifier; local identifiers open with ["local-"], apart from the
    remote ones. The storage medium is taken to be working. *)
Definition localStorageBackend_save {ambient : Ambient} (e : TreeExportData)
    : M (gmap string string) string :=
  suffix ← generateId;
  let id := "local-" +:+ suffix in
  modify (λ ls, <[STORAGE_PREFIX +:+ id := generateShareCode e]> ls);;
  mret id.

(** Modelled from the spec: [localStorageBackend.load] of
    [./treeExport]: null when the identifier is unknown or what is
    stored under it does not parse. *)
Definition localStorageBackend_load (id : string)
    : M (gmap string string) (option TreeExportData) :=
  ls ← get;
  mret (ls !! (STORAGE_PREFIX +:+ id) ≫= parseShareCode).

End TreeExportModel.

(** The module as the store sees it. *)
Definition treeExportModel {ambient : Ambient} : TreeExport := {|
  exportTree := TreeExportModel.exportTree;
  prepareTreeRestore := TreeExportModel.prepareTreeRestore;
  generateShareCode := TreeExportModel.generateShareCode;
  parseShareCode := TreeExportModel.parseShareCode;
  localStorageBackend_save := TreeExportModel.localStorageBackend_save;
  localStorageBackend_load := TreeExportModel.localStorageBackend_load;
|}.

(* ================================================================== *)
(** ** The Convex database and [convex/auth.ts] *)
(* ================================================================== *)

Module Convex.

(** The values a document field holds here. *)
#[local] Set Warnings "-register-all".
Inductive value : Type :=
  | VString (s : string)
  | VNumber (n : Z)
  | VBool (b : bool)
  | VId (id : N)
  | VObject (fields : list (string * value)).

(** The database maps the id of a document to its table and its
    fields; the fields include the system fields [_id] and
    [_creationTime]. *)
Record Db := mkDb {
  docs : gmap N (string * gmap string value);
  nextId : N;
}.

Definition emptyDb : Db := mkDb ∅ 0.

(** [ctx.db.insert(table, fields)] *)
Definition db_insert {ambient : Ambient} (table : string) (fields : gmap string value) : M Db N :=
  db ← get;
  created ← dateNow;
  let id := nextId db in
  let doc := <["_id" := VId id]> (<["_creationTime" := VNumber created]> fields) in
  modify (λ db, mkDb (<[id := (table, doc)]> (docs db)) (N.succ (nextId db)));;
  mret id.

(** [ctx.db.get(id)] *)
Definition db_get (id : N) : M Db (option (gmap string value)) :=
  db ← get;
  mret (snd <$> docs db !! id).

(** [ctx.db.delete(id)] *)
Definition db_delete (id : N) : M Db unit :=
  modify (λ db, mkDb (delete id (docs db)) (nextId db)).

Definition field_is_string (doc : gmap string value) (field wanted : string) : bool :=
  match doc !! field with
  | Some (VString s) => bool_decide (s = wanted)
  | _ => false
  end.

(** [ctx.db.query(table).withIndex(index, (q) => q.eq(field, wanted)).unique()]:
    the one matching document, null when there is none; more than one
    is an error. *)
Definition query_unique (table field wanted : string) : M Db (option (gmap string value)) :=
  db ← get;
  match filter (λ entry : N * (string * gmap string value),
                  entry.2.1 = table ∧ field_is_string entry.2.2 field wanted = true)
               (map_to_list (docs db)) with
  | [] => mret None
  | [entry] => mret (Some entry.2.2)
  | _ => throw "unique() query returned more than one result"
  end.

(** A mutation is a transaction: when its handler throws, what it
    wrote is undone. *)
Definition mutation {A} (handler : M Db A) : M Db A :=
  λ r, match handler r with
       | (Returned a, r') => (Returned a, r')
       | (Threw e, r') => (Threw e, mkRun (ticks r') (state r))
       end.

(** An optional field of an object literal: left out when undefined. *)
Definition optional_field (key : string) (v : option value)
    (fields : gmap string value) : gmap string value :=
  match v with
  | Some x => <[key := x]> fields
  | None => fields
  end.

End Convex.

Module Auth.
Import Convex.

(** What [signup] and [login] return: [{ success: false, error }] or
    [{ success: true, token, user }]. *)
Inductive AuthResult : Type :=
  | AuthFailure (error : string)
  | AuthSuccess (token : string) (user : gmap string value).

Definition freeQuota : value := VObject [
  ("maxOrnaments", VNumber 10);
  ("usedOrnaments", VNumber 0);
  ("maxToppers", VNumber 1);
  ("usedToppers", VNumber 0);
  ("canUseSpecialOrnaments", VBool false);
  ("canUseCustomColors", VBool false);
  ("canUseAnimations", VBool false)
].

Definition thirtyDays : Z := 1000 * 60 * 60 * 24 * 30.

(** [const { passwordHash: _, ...safeUser } = user] *)
Definition safeUserOf (user : gmap string value) : gmap string value :=
  delete "passwordHash" user.

Definition signup {ambient : Ambient} (email password : string) (name : option string)
    : M Db AuthResult :=
  mutation (
    existingUser ← query_unique "users" "email" email;
    match existingUser with
    | Some _ => mret (AuthFailure "User already exists")
    | None =>
        (* In a real app, hash the password *)
        let passwordHash := password in
        createdAt ← dateNow;
        updatedAt ← dateNow;
        userId ← db_insert "users"
          (optional_field "name" (VString <$> name)
             {[ "email" := VString email;
                "passwordHash" := VString passwordHash;
                "tier" := VString "free";
                "quota" := freeQuota;
                "createdAt" := VNumber createdAt;
                "updatedAt" := VNumber updatedAt ]});
        token ← randomSubstring2;
        now ← dateNow;
        db_insert "sessions"
          {[ "userId" := VId userId;
             "token" := VString token;
             "expiresAt" := VNumber (now + thirtyDays) ]};;
        user ← db_get userId;
        match user with
        | None => throw "TypeError: Cannot destructure 'user' as it is null."
        | Some user => mret (AuthSuccess token (safeUserOf user))
        end
    end).

(** [user.passwordHash !== args.password] *)
Definition passwordDiffers (user : gmap string value) (password : string) : bool :=
  negb (field_is_string user "passwordHash" password).

Definition login {ambient : Ambient} (email password : string) : M Db AuthResult :=
  mutation (
    user ← query_unique "users" "email" email;
    match user with
    | None => mret (AuthFailure "Invalid email or password")
    | Some user =>
        if passwordDiffers user password
        then mret (AuthFailure "Invalid email or password")
        else
          token ← randomSubstring2;
          now ← dateNow;
          db_insert "sessions"
            (optional_field "userId" (user !! "_id")
               {[ "token" := VString token;
                  "expiresAt" := VNumber (now + thirtyDays) ]});;
          mret (AuthSuccess token (safeUserOf user))
    end).

(** [session.expiresAt < Date.now()] *)
Definition expiredAt (session : gmap string value) (now : Z) : bool :=
  match session !! "expiresAt" with
  | Some (VNumber expiresAt) => bool_decide (expiresAt < now)%Z
  | _ => false
  end.

Definition validateSession {ambient : Ambient} (token : string)
    : M Db (option (gmap string value)) :=
  mutation (
    session ← query_unique "sessions" "token" token;
    match session with
    | None => mret None
    | Some session =>
        now ← dateNow;
        if expiredAt session now then mret None
        else
          match session !! "userId" with
          | Some (VId userId) =>
              user ← db_get userId;
              match user with
              | None => mret None
              | Some user => mret (Some (safeUserOf user))
              end
          | _ => throw "Invalid argument `id` for `db.get`"
          end
    end).

End Auth.

(* ================================================================== *)
(** ** The rest of [convex/auth.ts] *)
(* ================================================================== *)

Module ConvexWrites.
Import Convex.

(** One entry of the partial document given to [ctx.db.patch]: a value
    to set, or undefined, which removes the field. *)
Definition patch_field (doc : gmap string value) (change : string * option value)
    : gmap string value :=
  match change.2 with
  | Some v => <[change.1 := v]> doc
  | None => delete change.1 doc
  end.

(** [ctx.db.patch(id, changes)]: a shallow merge into the document, which
    has to exist. *)
Definition db_patch (id : N) (changes : list (string * option value)) : M Db unit :=
  db ← get;
  match docs db !! id with
  | None => throw "Update on nonexistent document"
  | Some (table, doc) =>
      modify (λ db, mkDb (<[id := (table, foldl patch_field doc changes)]> (docs db))
                         (nextId db))
  end.

(** [ctx.db.delete(id)] on a document that has to exist. *)
Definition db_delete_existing (id : N) : M Db unit :=
  db ← get;
  match docs db !! id with
  | None => throw "Delete on nonexistent document"
  | Some _ => db_delete id
  end.

(** The ids in use are below the next id, and every document carries its
    own id in [_id]. *)
Definition consistent (db : Db) : Prop :=
  ∀ (k : N) (table : string) (doc : gmap string value),
    docs db !! k = Some (table, doc) →
    (k < nextId db)%N ∧ doc !! "_id" = Some (VId k).

(** The same, as a check that runs over the documents. *)
Definition consistentb (db : Db) : bool :=
  forallb (λ entry : N * (string * gmap string value),
             (entry.1 <? nextId db)%N &&
             match entry.2.2 !! "_id" with
             | Some (VId id) => (id =? entry.1)%N
             | _ => false
             end)
          (map_to_list (docs db)).

(** The document that [db_insert] stores for given fields. *)
Definition stored (fields : gmap string value) (creationTime : Z) (id : N)
    : gmap string value :=
  <["_id" := VId id]> (<["_creationTime" := VNumber creationTime]> fields).

(** The entries of a table whose string field has the wanted value: what
    an index lookup by that field selects. *)
Definition selected (table field wanted : string) (db : Db)
    : list (N * (string * gmap string value)) :=
  filter (λ entry : N * (string * gmap string value),
            entry.2.1 = table ∧ field_is_string entry.2.2 field wanted = true)
         (map_to_list (docs db)).

End ConvexWrites.

Module AuthProfile.
Import Convex ConvexWrites Auth.

(** What [updateProfile] and [changePassword] return:
    [{ success: false, error }], or [{ success: true }] with what comes
    with it. *)
Inductive Reply (A : Type) : Type :=
  | Refused (error : string)
  | Accepted (payload : A).
Arguments Refused {A} error.
Arguments Accepted {A} payload.

(** The fields of the user that [signup] inserts, and of the session that
    [signup] and [login] insert. *)
Definition newUserFields (email password : string) (name : option string)
    (createdAt updatedAt : Z) : gmap string value :=
  optional_field "name" (VString <$> name)
    {[ "email" := VString email;
       "passwordHash" := VString password;
       "tier" := VString "free";
       "quota" := freeQuota;
       "createdAt" := VNumber createdAt;
       "updatedAt" := VNumber updatedAt ]}.

Definition newSessionFields (userId : option value) (token : string) (now : Z)
    : gmap string value :=
  optional_field "userId" userId
    {[ "token" := VString token;
       "expiresAt" := VNumber (now + thirtyDays) ]}.

Definition logout (token : string) : M Db unit :=
  mutation (
    session ← query_unique "sessions" "token" token;
    match session with
    | None => mret tt
    | Some session =>
        match session !! "_id" with
        | Some (VId id) => db_delete_existing id
        | _ => throw "Invalid argument `id` for `db.delete`"
        end
    end).

Definition updateProfile {ambient : Ambient} (token : string) (name : option string)
    : M Db (Reply (gmap string value)) :=
  mutation (
    session ← query_unique "sessions" "token" token;
    match session with
    | None => mret (Refused "Invalid session")
    | Some session =>
        now ← dateNow;
        if expiredAt session now then mret (Refused "Invalid session")
        else
          match session !! "userId" with
          | Some (VId userId) =>
              updatedAt ← dateNow;
              db_patch userId
                [("name", VString <$> name); ("updatedAt", Some (VNumber updatedAt))];;
              user ← db_get userId;
              match user with
              | None => throw "TypeError: Cannot destructure 'user' as it is null."
              | Some user => mret (Accepted (safeUserOf user))
              end
          | _ => throw "Invalid argument `id` for `db.patch`"
          end
    end).

Definition changePassword {ambient : Ambient} (token currentPassword newPassword : string)
    : M Db (Reply unit) :=
  mutation (
    session ← query_unique "sessions" "token" token;
    match session with
    | None => mret (Refused "Invalid session")
    | Some session =>
        now ← dateNow;
        if expiredAt session now then mret (Refused "Invalid session")
        else
          match session !! "userId" with
          | Some (VId userId) =>
              user ← db_get userId;
              match user with
              | None => mret (Refused "Invalid current password")
              | Some user =>
                  if passwordDiffers user currentPassword
                  then mret (Refused "Invalid current password")
                  else
                    match user !! "_id" with
                    | Some (VId id) =>
                        updatedAt ← dateNow;
                        db_patch id
                          [("passwordHash", Some (VString newPassword));
                           ("updatedAt", Some (VNumber updatedAt))];;
                        mret (Accepted tt)
                    | _ => throw "Invalid argument `id` for `db.patch`"
                    end
              end
          | _ => throw "Invalid argument `id` for `db.get`"
          end
    end).

End AuthProfile.

(* ================================================================== *)
(** ** The authentication hook ([hooks/useAuth.tsx]) *)
(* ================================================================== *)

Module UseAuth.
Import Convex.

(** [AuthResult] of [../types], with the fields that the hook reads. *)
Record AuthResult := mkAuthResult {
  success : bool;
  result_token : option string;
  result_user : option (gmap string value);
  result_error : option string;
}.

Record AuthState := mkAuthState {
  user : option (gmap string value);
  token : option string;
  isLoading : bool;
  error : option string;
}.

(** The provider's state and the browser's [localStorage]. *)
Record AuthWorld := mkAuthWorld {
  authState : AuthState;
  browserStorage : gmap string string;
}.

(** The mutations of [api.auth], as the client sees them: each either
    answers or throws an [Error] with a message. *)
Class AuthApi := {
  validateSessionMutation : string → outcome (option (gmap string value));
  loginMutation : string → string → outcome AuthResult;
  signupMutation : string → string → option string → outcome AuthResult;
  logoutMutation : string → outcome unit;
  updateProfileMutation : string → option string → outcome AuthResult;
  changePasswordMutation : string → string → string → outcome AuthResult;
}.

Definition TOKEN_STORAGE_KEY : string := "christmas_tree_auth_token".

(** The state of the provider at its first render. *)
Definition initialAuthState : AuthState := mkAuthState None None true None.

(** A string that is neither undefined, null nor empty. *)
Definition truthy (s : option string) : bool :=
  match s with
  | Some text => negb (bool_decide (text = ""))
  | None => false
  end.

(** [s || fallback] *)
Definition or_else (s : option string) (fallback : string) : string :=
  match s with
  | Some text => if bool_decide (text = "") then fallback else text
  | None => fallback
  end.

(** [result.success && result.token && result.user] *)
Definition accepted (result : AuthResult) : bool :=
  success result && truthy (result_token result) && bool_decide (is_Some (result_user result)).

Section AuthProvider.
Context {api : AuthApi}.

Definition setState (f : AuthState → AuthState) : M AuthWorld unit :=
  modify (λ w, mkAuthWorld (f (authState w)) (browserStorage w)).

Definition setItem (key text : string) : M AuthWorld unit :=
  modify (λ w, mkAuthWorld (authState w) (<[key := text]> (browserStorage w))).

Definition removeItem (key : string) : M AuthWorld unit :=
  modify (λ w, mkAuthWorld (authState w) (delete key (browserStorage w))).

Definition getItem (key : string) : M AuthWorld (option string) :=
  w ← get; mret (browserStorage w !! key).

(** The state captured by the callbacks of the current render. *)
Definition currentState : M AuthWorld AuthState := authState <$> get.

(** [{ success: false, error }] *)
Definition failed (message : string) : AuthResult :=
  mkAuthResult false None None (Some message).

(** The common body of [login] and [signup]. *)
Definition authenticate (reply : outcome AuthResult) (fallback : string)
    : M AuthWorld AuthResult :=
  setState (λ prev, mkAuthState (user prev) (token prev) true None);;
  try_catch
    (result ← lift reply;
     (if accepted result
      then
        setItem TOKEN_STORAGE_KEY (default "" (result_token result));;
        setState (λ _, mkAuthState (result_user result) (result_token result) false None)
      else
        setState (λ prev, mkAuthState (user prev) (token prev) false
                            (Some (or_else (result_error result) fallback))));;
     mret result)
    (λ message,
       setState (λ prev, mkAuthState (user prev) (token prev) false (Some message));;
       mret (failed message)).

Definition login (email password : string) : M AuthWorld AuthResult :=
  authenticate (loginMutation email password) "Login failed".

Definition signup (email password : string) (name : option string) : M AuthWorld AuthResult :=
  authenticate (signupMutation email password name) "Signup failed".

Definition logout : M AuthWorld unit :=
  s ← currentState;
  (if truthy (token s)
   then lift (logoutMutation (default "" (token s)))
   else mret tt);;
  removeItem TOKEN_STORAGE_KEY;;
  setState (λ _, mkAuthState None None false None).

Definition updateProfile (name : option string) : M AuthWorld AuthResult :=
  s ← currentState;
  if negb (truthy (token s)) then mret (failed "Not authenticated")
  else
    try_catch
      (result ← lift (updateProfileMutation (default "" (token s)) name);
       (if success result && bool_decide (is_Some (result_user result))
        then setState (λ prev, mkAuthState (result_user result) (token prev)
                                 (isLoading prev) (error prev))
        else mret tt);;
       mret result)
      (λ message, mret (failed message)).

Definition changePassword (currentPassword newPassword : string) : M AuthWorld AuthResult :=
  s ← currentState;
  if negb (truthy (token s)) then mret (failed "Not authenticated")
  else
    try_catch
      (lift (changePasswordMutation (default "" (token s)) currentPassword newPassword))
      (λ message, mret (failed message)).

Definition clearError : M AuthWorld unit :=
  setState (λ prev, mkAuthState (user prev) (token prev) (isLoading prev) None).

(** [initAuth], run once when the provider mounts. The [try] block
    reports whether it returned early. *)
Definition initAuth : M AuthWorld unit :=
  returned ← try_catch
    (storedToken ← getItem TOKEN_STORAGE_KEY;
     if truthy storedToken
     then
       found ← lift (validateSessionMutation (default "" storedToken));
       match found with
       | Some u =>
           setState (λ _, mkAuthState (Some u) storedToken false None);;
           mret true
       | None =>
           removeItem TOKEN_STORAGE_KEY;;
           mret false
       end
     else mret false)
    (λ message, mret false);
  if returned : bool then mret tt
  else setState (λ prev, mkAuthState (user prev) (token prev) false (error prev)).

End AuthProvider.
End UseAuth.

(* ================================================================== *)
(** ** Sample runs *)
(* ================================================================== *)

Module Samples.

(** A clock that advances by one millisecond per reading, and a random
    source that keeps giving the same digits. *)
Definition sampleAmbient : Ambient := {|
  Date_now := λ k, (1700000000000 + Z.of_nat k)%Z;
  Math_random_digits := λ _, "4fzyo82mvyr";
|}.

Definition sampleTreeExport : TreeExport := @treeExportModel sampleAmbient.

(** A remote store that cannot be reached. *)
Definition offlineConvex : ConvexClient := {|
  saveMutation := λ _, Threw "Network error";
  convex_query_trees_get := λ _, Threw "Network error";
|}.

(** A remote store that accepts every save and holds no record. *)
Definition emptyConvex : ConvexClient := {|
  saveMutation := λ _, Returned "k5796s0xq3";
  convex_query_trees_get := λ _, Returned None;
|}.

(** A user on the free tier, with the quota that [signup] grants. *)
Definition freeUser : User := {|
  user_id := "u1";
  user_email := "ann@example.com";
  user_passwordHash := "";
  user_name := Some "Ann";
  user_tier := "free";
  user_quota := {|
    maxOrnaments := 10;
    usedOrnaments := 0;
    maxToppers := 1;
    usedToppers := 0;
    canUseSpecialOrnaments := false;
    canUseCustomColors := false;
    canUseAnimations := false;
  |};
  user_createdAt := 1690000000000;
  user_updatedAt := 1690000000000;
|}.

Definition ballDraft : OrnamentDraft := {|
  od_type := "ball";
  od_color := "#ff0000";
  od_position := [0%Q; 1%Q; 0%Q];
  od_scale := 1%Q;
  od_rotation := None;
|}.

(** A fresh session of the free user. *)
Definition freshRun : Run World :=
  mkRun 0 (mkWorld (initialState freeUser) ∅).

(** [addOrnament], called on the latest render. *)
Definition addNext (ornamentData : OrnamentDraft) : M World (option OrnamentData) :=
  onLatestRender (λ hook, addOrnament (ambient := sampleAmbient) hook ornamentData).

(** The same session after one ornament was added. *)
Definition oneBallRun : Run World :=
  (addNext ballDraft freshRun).2.

(** The same session after nine ornaments were added, each on a render
    of its own. *)
Definition nineRun : Run World :=
  (mapM addNext (replicate 9 ballDraft) freshRun).2.

(** The same session after ten ornaments were added. *)
Definition fullRun : Run World :=
  (mapM addNext (replicate 10 ballDraft) freshRun).2.

(** What a fresh session of the free user exports at the first clock
    reading. *)
Definition freshEnvelope : TreeExportData := {|
  treeConfig := DEFAULT_TREE_CONFIG;
  topper := None;
  ornaments := [];
  metadata := mkTreeExportMetadata None None (Some "Ann") (Some "u1") None [];
  exportedAt := 1700000000000;
|}.

(** An update that carries an id, a creation time and an attribution. *)
Definition forgedFields : PartialOrnamentData := {|
  upd_type := None;
  upd_color := Some "#00ff00";
  upd_position := None;
  upd_scale := None;
  upd_rotation := None;
  upd_id := Some "forged";
  upd_userId := Some (Some "mallory");
  upd_userName := Some (Some "Mallory");
  upd_createdAt := Some 0%Z;
|}.

Definition recolour : PartialOrnamentData := {|
  upd_type := None;
  upd_color := Some "#00ff00";
  upd_position := None;
  upd_scale := None;
  upd_rotation := None;
  upd_id := None;
  upd_userId := None;
  upd_userName := None;
  upd_createdAt := None;
|}.

(** The database after Ann signed up on an empty one, and the user
    object handed back to her. *)
Definition signedUp : outcome Auth.AuthResult * Run Convex.Db :=
  Auth.signup (ambient := sampleAmbient) "ann@example.com" "hunter2" (Some "Ann")
    (mkRun 0 Convex.emptyDb).

Definition annSafeUser : gmap string Convex.value :=
  {[ "_id" := Convex.VId 0;
     "_creationTime" := Convex.VNumber 1700000000002;
     "name" := Convex.VString "Ann";
     "email" := Convex.VString "ann@example.com";
     "tier" := Convex.VString "free";
     "quota" := Auth.freeQuota;
     "createdAt" := Convex.VNumber 1700000000000;
     "updatedAt" := Convex.VNumber 1700000000001 ]}.

End Samples.

(* ================================================================== *)
(** ** More sample runs *)
(* ================================================================== *)

Module MoreSamples.
Import Samples.

Definition starDraft : TopperDraft := {|
  td_type := "star";
  td_color := "#ffd700";
  td_scale := 1%Q;
  td_glow := true;
|}.

(** An envelope with one ball and a star on top. *)
Definition ballEnvelope : TreeExportData := {|
  treeConfig := DEFAULT_TREE_CONFIG;
  topper := Some starDraft;
  ornaments := [ballDraft];
  metadata := mkTreeExportMetadata (Some "Ball tree") None (Some "Ann") (Some "u1") None [];
  exportedAt := 1700000000000;
|}.

Definition ballRestore : TreeRestore := {|
  restored_treeConfig := DEFAULT_TREE_CONFIG;
  restored_topper := Some starDraft;
  restored_ornaments := [ballDraft];
|}.

(** A remote store that holds [ballEnvelope] under every id. *)
Definition holdingConvex : ConvexClient := {|
  saveMutation := λ _, Returned "k5796s0xq3";
  convex_query_trees_get := λ _, Returned (Some ballEnvelope);
|}.

(** A [./treeExport] whose restore rejects every envelope. *)
Definition rejectingTreeExport : TreeExport := {|
  exportTree := TreeExportModel.exportTree (ambient := sampleAmbient);
  prepareTreeRestore := λ _, Threw "Invalid tree data";
  generateShareCode := TreeExportModel.generateShareCode;
  parseShareCode := TreeExportModel.parseShareCode;
  localStorageBackend_save := TreeExportModel.localStorageBackend_save (ambient := sampleAmbient);
  localStorageBackend_load := TreeExportModel.localStorageBackend_load;
|}.

(** A clipboard that takes every text. *)
Definition sampleClipboard : Clipboard := {| writeText := λ _, Returned tt |}.

(** A fresh session whose local storage holds [ballEnvelope]. *)
Definition storedRun : Run World :=
  mkRun 0 (mkWorld (initialState freeUser)
             {[ "christmas_tree_local-1" := TreeExportModel.generateShareCode ballEnvelope ]}).

(** A session with a cloud id. *)
Definition cloudState : TreeStoreState :=
  mkTreeStoreState [] None DEFAULT_TREE_CONFIG (Some freeUser) false false (Some "k5796s0xq3").

Definition namedMetadata (authorName : option (option string)) : PartialTreeExportMetadata := {|
  pm_name := Some (Some "Ball tree");
  pm_description := None;
  pm_authorName := authorName;
  pm_authorId := None;
  pm_thumbnail := None;
  pm_tags := Some ["xmas"];
|}.

(** The database after Ann signed up, then logged in. *)
Definition loggedIn : outcome Auth.AuthResult * Run Convex.Db :=
  Auth.login (ambient := sampleAmbient) "ann@example.com" "hunter2" signedUp.2.

(** A random source that gives a different token at each read. *)
Definition countingAmbient : Ambient := {|
  Date_now := λ k, (1700000000000 + Z.of_nat k)%Z;
  Math_random_digits := λ k, "tok" +:+ pretty k;
|}.

Definition signedUp' : outcome Auth.AuthResult * Run Convex.Db :=
  Auth.signup (ambient := countingAmbient) "ann@example.com" "hunter2" (Some "Ann")
    (mkRun 0 Convex.emptyDb).

Definition loggedIn' : outcome Auth.AuthResult * Run Convex.Db :=
  Auth.login (ambient := countingAmbient) "ann@example.com" "hunter2" signedUp'.2.

(** A clock on which every reading is thirty days after the one
    before. *)
Definition monthlyAmbient : Ambient := {|
  Date_now := λ k, (1700000000000 + Z.of_nat k * Auth.thirtyDays)%Z;
  Math_random_digits := λ k, "tok" +:+ pretty k;
|}.

Definition signedUpMonthly : outcome Auth.AuthResult * Run Convex.Db :=
  Auth.signup (ambient := monthlyAmbient) "ann@example.com" "hunter2" (Some "Ann")
    (mkRun 0 Convex.emptyDb).

(** The user object of Ann on the monthly clock. *)
Definition annMonthlyUser : gmap string Convex.value :=
  {[ "_id" := Convex.VId 0;
     "_creationTime" := Convex.VNumber 1705184000000;
     "name" := Convex.VString "Ann";
     "email" := Convex.VString "ann@example.com";
     "tier" := Convex.VString "free";
     "quota" := Auth.freeQuota;
     "createdAt" := Convex.VNumber 1700000000000;
     "updatedAt" := Convex.VNumber 1702592000000 ]}.

(** Ann's user document as stored, and her session. *)
Definition annStoredUser : gmap string Convex.value :=
  <["passwordHash" := Convex.VString "hunter2"]> annSafeUser.

Definition annSession : gmap string Convex.value :=
  {[ "_id" := Convex.VId 1;
     "_creationTime" := Convex.VNumber 1700000000005;
     "userId" := Convex.VId 0;
     "token" := Convex.VString "tok3";
     "expiresAt" := Convex.VNumber (1700000000004 + Auth.thirtyDays) ]}.

(** A server that accepts Ann's login, refuses every signup, cannot be
    reached for logout, renames on request and refuses every password
    change. *)
Definition sampleApi : UseAuth.AuthApi := {|
  UseAuth.validateSessionMutation := λ token,
    if bool_decide (token = "4fzyo82mvyr") then Returned (Some annSafeUser) else Returned None;
  UseAuth.loginMutation := λ _ _,
    Returned (UseAuth.mkAuthResult true (Some "4fzyo82mvyr") (Some annSafeUser) None);
  UseAuth.signupMutation := λ _ _ _,
    Returned (UseAuth.mkAuthResult false None None (Some "User already exists"));
  UseAuth.logoutMutation := λ _, Threw "Network error";
  UseAuth.updateProfileMutation := λ _ _,
    Returned (UseAuth.mkAuthResult true None (Some annSafeUser) None);
  UseAuth.changePasswordMutation := λ _ _ _,
    Returned (UseAuth.mkAuthResult false None None (Some "Invalid current password"));
|}.

(** The provider before anyone logged in, and with Ann logged in. *)
Definition anonymousRun : Run UseAuth.AuthWorld :=
  mkRun 0 (UseAuth.mkAuthWorld UseAuth.initialAuthState ∅).

Definition annRun : Run UseAuth.AuthWorld :=
  mkRun 0 (UseAuth.mkAuthWorld
             (UseAuth.mkAuthState (Some annSafeUser) (Some "4fzyo82mvyr") false None)
             {[ UseAuth.TOKEN_STORAGE_KEY := "4fzyo82mvyr" ]}).

End MoreSamples.

(* ================================================================== *)
(** * Running the monad: one equation per primitive *)
(* ================================================================== *)

Section running.
Context {St : Type}.
Implicit Types r : Run St.

Lemma run_ret {A} (a : A) r : mret (M := M St) a r = (Returned a, r).
Proof. reflexivity. Qed.

Lemma run_bind {A B} (m : M St A) (k : A → M St B) r :
  (m ≫= k) r =
  match m r with
  | (Returned a, r') => k a r'
  | (Threw e, r') => (Threw e, r')
  end.
Proof. reflexivity. Qed.

Lemma run_bind_returned {A B} (m : M St A) (k : A → M St B) r a r' :
  m r = (Returned a, r') → (m ≫= k) r = k a r'.
Proof. intros E. rewrite run_bind, E. reflexivity. Qed.

Lemma run_bind_threw {A B} (m : M St A) (k : A → M St B) r e r' :
  m r = (Threw e, r') → (m ≫= k) r = (Threw e, r').
Proof. intros E. rewrite run_bind, E. reflexivity. Qed.

Lemma run_fmap {A B} (f : A → B) (m : M St A) r :
  (f <$> m) r =
  match m r with
  | (Returned a, r') => (Returned (f a), r')
  | (Threw e, r') => (Threw e, r')
  end.
Proof. reflexivity. Qed.

Lemma run_lift {A} (o : outcome A) r : lift o r = (o, r).
Proof. reflexivity. Qed.

Lemma run_get r : get r = (Returned (state r), r).
Proof. reflexivity. Qed.

Lemma run_modify (f : St → St) r :
  modify f r = (Returned tt, mkRun (ticks r) (f (state r))).
Proof. reflexivity. Qed.

Lemma run_try_catch {A} (body : M St A) (handler : string → M St A) r :
  try_catch body handler r =
  match body r with
  | (Returned a, r') => (Returned a, r')
  | (Threw e, r') => handler e r'
  end.
Proof. reflexivity. Qed.

Lemma run_try_finally {A} (body : M St A) (final : M St unit) r :
  try_finally body final r = ((body r).1, (final (body r).2).2).
Proof. unfold try_finally. destruct (body r); reflexivity. Qed.

Lemma run_dateNow {ambient : Ambient} r :
  dateNow r = (Returned (Date_now (ticks r)), mkRun (S (ticks r)) (state r)).
Proof. reflexivity. Qed.

Lemma run_generateId {ambient : Ambient} r :
  generateId r =
  (Returned (idAt (ticks r)), mkRun (S (S (ticks r))) (state r)).
Proof. reflexivity. Qed.
End running.

Create Rewrite HintDb run.
#[global] Hint Rewrite @run_ret @run_bind @run_fmap @run_lift @run_get
  @run_modify @run_try_catch @run_try_finally @run_dateNow @run_generateId : run.

(** Unfolds the store's setters and runs every step that is determined. *)
Ltac run :=
  unfold render, setOrnaments, setTopperState, setTreeConfig, setIsLoading,
    setCloudId, onLocalStorage, zoom;
  repeat (autorewrite with run; cbn [fst snd state ticks store localStorage with_store
                                      with_localStorage st_ornaments st_topper
                                      st_treeConfig st_currentUser st_isLoading
                                      st_isSyncing st_cloudId]).


(* ================================================================== *)
(** * Properties of the store *)
(* ================================================================== *)

Section store_properties.
Context {ambient : Ambient} {treeExport : TreeExport} {convex : ConvexClient}.
Implicit Types (r : Run World) (s : TreeStoreState).

(** A setter that writes back what is there changes nothing. *)
Lemma setOrnaments_fixed (f : list OrnamentData → list OrnamentData) r :
  f (st_ornaments (store (state r))) = st_ornaments (store (state r)) →
  setOrnaments f r = (Returned tt, r).
Proof.
  destruct r as [k [[orns top cfg user loading syncing cloud] ls]]; cbn.
  intros E. run. unfold with_store; cbn. rewrite E. reflexivity.
Qed.

(** What one call of [addOrnament] does, by the quota check of its
    render. *)
Lemma run_addOrnament (hook : TreeStoreState) (draft : OrnamentDraft) r :
  addOrnament hook draft r =
  if canAddOrnament hook then
    let o := identifyOrnament draft (idAt (ticks r)) (st_currentUser hook)
               (Date_now (S (S (ticks r)))) in
    (Returned (Some o),
     mkRun (S (S (S (ticks r))))
       (with_store (λ s, mkTreeStoreState (st_ornaments s ++ [o]) (st_topper s)
          (st_treeConfig s) (st_currentUser s) (st_isLoading s) (st_isSyncing s)
          (st_cloudId s)) (state r)))
  else (Returned None, r).
Proof.
  unfold addOrnament.
  destruct (canAddOrnament hook); cbn [negb]; run; reflexivity.
Qed.

Lemma run_onLatestRender {A} (action : TreeStoreState → M World A) r :
  onLatestRender action r = action (store (state r)) r.
Proof. unfold onLatestRender. run. reflexivity. Qed.

Lemma canAddOrnament_spec s (u : User) :
  st_currentUser s = Some u →
  canAddOrnament s = bool_decide (usedOrnamentsOf s < maxOrnaments (user_quota u))%Z.
Proof. intros E. unfold canAddOrnament. rewrite E. reflexivity. Qed.

(** Called on the latest render, [addOrnament] keeps the current user,
    and keeps the count within the quota once it is. *)
Lemma addOrnament_within_quota (draft : OrnamentDraft) r (u : User) :
  let call := onLatestRender (λ hook, addOrnament hook draft) in
  st_currentUser (store (state r)) = Some u →
  (usedOrnamentsOf (store (state r)) ≤ maxOrnaments (user_quota u))%Z →
  st_currentUser (store (state (call r).2)) = Some u ∧
  (usedOrnamentsOf (store (state (call r).2)) ≤ maxOrnaments (user_quota u))%Z ∧
  ∃ result, (call r).1 = Returned result.
Proof.
  intros call Hu Hle. unfold call. rewrite run_onLatestRender, run_addOrnament.
  rewrite (canAddOrnament_spec _ u Hu). case_bool_decide as Hlt; cbn.
  - split; [exact Hu|]. split; [|eauto].
    unfold usedOrnamentsOf in *. cbn. rewrite length_app. cbn. lia.
  - split; [exact Hu|]. split; [exact Hle|eauto].
Qed.

(** Hence any run of calls, each made on the latest render, keeps the
    count within the quota. *)
Lemma addOrnament_batch_within_quota (drafts : list OrnamentDraft) r (u : User) :
  let call := λ draft, onLatestRender (λ hook, addOrnament hook draft) in
  st_currentUser (store (state r)) = Some u →
  (usedOrnamentsOf (store (state r)) ≤ maxOrnaments (user_quota u))%Z →
  st_currentUser (store (state (mapM call drafts r).2)) = Some u ∧
  (usedOrnamentsOf (store (state (mapM call drafts r).2))
     ≤ maxOrnaments (user_quota u))%Z.
Proof.
  intros call. revert r. induction drafts as [|draft drafts IH]; intros r Hu Hle.
  - cbn. auto.
  - cbn [mapM]. rewrite run_bind.
    destruct (addOrnament_within_quota draft r u Hu Hle) as (Hu' & Hle' & result & Hres).
    fold (call draft) in Hu', Hle', Hres.
    destruct (call draft r) as [o r1]. cbn in Hu', Hle', Hres. subst o.
    rewrite run_bind. specialize (IH r1 Hu' Hle').
    destruct (mapM call drafts r1) as [[results|e] r2]; cbn in *; exact IH.
Qed.

(** A second call on the same render passes the same quota check: when
    the first is accepted so is the second, and the live sequence grows
    by both ornaments, whatever the quota. *)
Lemma addOrnament_twice_on_one_render (hook : TreeStoreState) (first second : OrnamentDraft) r :
  canAddOrnament hook = true →
  ∃ o1 o2 r1 r2,
    addOrnament hook first r = (Returned (Some o1), r1) ∧
    addOrnament hook second r1 = (Returned (Some o2), r2) ∧
    st_ornaments (store (state r2)) = st_ornaments (store (state r)) ++ [o1; o2].
Proof.
  intros Hcan. rewrite run_addOrnament, Hcan. cbn zeta.
  eexists _, _, _, _. split; [reflexivity|].
  rewrite run_addOrnament, Hcan. cbn zeta. split; [reflexivity|].
  cbn. rewrite <- app_assoc. reflexivity.
Qed.

(** *** Removing and updating by id *)

Lemma filter_other_ids_fixed (ornamentId : string) (l : list OrnamentData) :
  Forall (λ o, orn_id o ≠ ornamentId) l →
  filter (λ o, orn_id o ≠ ornamentId) l = l.
Proof.
  induction 1 as [|o l Ho _ IH]; [reflexivity|].
  rewrite filter_cons_True by exact Ho. rewrite IH. reflexivity.
Qed.

Lemma filter_other_ids_twice (ornamentId : string) (l : list OrnamentData) :
  filter (λ o, orn_id o ≠ ornamentId) (filter (λ o, orn_id o ≠ ornamentId) l)
  = filter (λ o, orn_id o ≠ ornamentId) l.
Proof.
  apply filter_other_ids_fixed, Forall_forall.
  intros o Ho. apply list_elem_of_filter in Ho. tauto.
Qed.

Lemma run_removeOrnament (ornamentId : string) r :
  removeOrnament ornamentId r =
  (Returned true,
   mkRun (ticks r)
     (with_store (λ s, mkTreeStoreState
        (filter (λ o, orn_id o ≠ ornamentId) (st_ornaments s)) (st_topper s)
        (st_treeConfig s) (st_currentUser s) (st_isLoading s) (st_isSyncing s)
        (st_cloudId s)) (state r))).
Proof. unfold removeOrnament. run. reflexivity. Qed.

(** C8. Removing an id twice leaves the same state and gives the same
    result as removing it once, and the result is success; removing an
    id that no ornament has changes nothing and reports success. *)
Theorem removeOrnament_idempotent (ornamentId : string) r :
  (removeOrnament ornamentId ;; removeOrnament ornamentId) r
    = removeOrnament ornamentId r ∧
  (removeOrnament ornamentId r).1 = Returned true ∧
  (Forall (λ o, orn_id o ≠ ornamentId) (st_ornaments (store (state r))) →
     removeOrnament ornamentId r = (Returned true, r)).
Proof.
  split; [|split].
  - rewrite run_bind, !run_removeOrnament. cbn.
    unfold with_store; cbn. rewrite filter_other_ids_twice. reflexivity.
  - rewrite run_removeOrnament. reflexivity.
  - intros Habsent. unfold removeOrnament. rewrite run_bind.
    rewrite setOrnaments_fixed by (apply filter_other_ids_fixed, Habsent).
    reflexivity.
Qed.

Lemma update_other_ids_fixed (ornamentId : string) (updates : PartialOrnamentData)
    (l : list OrnamentData) :
  Forall (λ o, orn_id o ≠ ornamentId) l →
  (λ o, if decide (orn_id o = ornamentId) then mergeOrnament o updates else o) <$> l = l.
Proof.
  induction 1 as [|o l Ho _ IH]; [reflexivity|].
  cbn. rewrite decide_False by exact Ho. f_equal. exact IH.
Qed.

Lemma run_updateOrnament (ornamentId : string) (updates : PartialOrnamentData) r :
  updateOrnament ornamentId updates r =
  (Returned true,
   mkRun (ticks r)
     (with_store (λ s, mkTreeStoreState
        ((λ o, if decide (orn_id o = ornamentId) then mergeOrnament o updates else o)
           <$> st_ornaments s) (st_topper s)
        (st_treeConfig s) (st_currentUser s) (st_isLoading s) (st_isSyncing s)
        (st_cloudId s)) (state r))).
Proof. unfold updateOrnament. run. reflexivity. Qed.

(** C5, as the code has it. For an id that no ornament has,
    [updateOrnament] leaves the whole state unchanged and returns
    [true]: the store does not tell an unknown id from a known one. *)
Theorem updateOrnament_unknown_id (ornamentId : string) (updates : PartialOrnamentData) r :
  Forall (λ o, orn_id o ≠ ornamentId) (st_ornaments (store (state r))) →
  updateOrnament ornamentId updates r = (Returned true, r).
Proof.
  intros Habsent. unfold updateOrnament. rewrite run_bind.
  rewrite setOrnaments_fixed by (apply update_other_ids_fixed, Habsent).
  reflexivity.
Qed.

(** C6, as the code has it. [updateOrnament] returns [true] and rewrites
    the sequence in place: an ornament with another id is untouched, and
    in one with the given id every field, [id], [createdAt], [userId]
    and [userName] among them, takes the value that the update carries
    for it and keeps its old value only when the update carries none. *)
Theorem updateOrnament_merges_every_field (ornamentId : string)
    (updates : PartialOrnamentData) r (i : nat) (o : OrnamentData) :
  st_ornaments (store (state r)) !! i = Some o →
  ∃ r' o',
    updateOrnament ornamentId updates r = (Returned true, r') ∧
    length (st_ornaments (store (state r'))) = length (st_ornaments (store (state r))) ∧
    st_ornaments (store (state r')) !! i = Some o' ∧
    (orn_id o ≠ ornamentId → o' = o) ∧
    (orn_id o = ornamentId →
       orn_id o' = default (orn_id o) (upd_id updates) ∧
       orn_createdAt o' = default (orn_createdAt o) (upd_createdAt updates) ∧
       orn_userId o' = default (orn_userId o) (upd_userId updates) ∧
       orn_userName o' = default (orn_userName o) (upd_userName updates) ∧
       orn_type o' = default (orn_type o) (upd_type updates) ∧
       orn_color o' = default (orn_color o) (upd_color updates) ∧
       orn_position o' = default (orn_position o) (upd_position updates) ∧
       orn_scale o' = default (orn_scale o) (upd_scale updates) ∧
       orn_rotation o' = default (orn_rotation o) (upd_rotation updates)).
Proof.
  intros Hi. rewrite run_updateOrnament. eexists _, _.
  split; [reflexivity|]. cbn. rewrite length_fmap. split; [reflexivity|].
  rewrite list_lookup_fmap, Hi. cbn. split; [reflexivity|].
  split; intros Hid.
  - rewrite decide_False by exact Hid. reflexivity.
  - rewrite decide_True by exact Hid. cbn. repeat split.
Qed.

(** *** Quota helpers *)

(** C9. For a present user, a type other than ["heart"], ["ribbon"] and
    ["gingerbread"] may always be used, and each of those three may be
    used exactly when the quota's [canUseSpecialOrnaments] is set; so
    without it ["heart"] is refused and ["ball"] allowed. *)
Theorem canUseOrnamentType_gates_special_types s (u : User) (type : string) :
  st_currentUser s = Some u →
  (type ≠ "heart" → type ≠ "ribbon" → type ≠ "gingerbread" →
     canUseOrnamentType s type = true) ∧
  (type = "heart" ∨ type = "ribbon" ∨ type = "gingerbread" →
     canUseOrnamentType s type = canUseSpecialOrnaments (user_quota u)) ∧
  (canUseSpecialOrnaments (user_quota u) = false →
     canUseOrnamentType s "heart" = false ∧ canUseOrnamentType s "ball" = true).
Proof.
  intros Hu. unfold canUseOrnamentType, specialTypes. rewrite Hu.
  split; [|split; [|intros Hfree; split]].
  - intros Na Nb Nc. rewrite bool_decide_false; [reflexivity|].
    rewrite !elem_of_cons, elem_of_nil. tauto.
  - intros Hin. rewrite bool_decide_true; [reflexivity|].
    rewrite !elem_of_cons, elem_of_nil. tauto.
  - rewrite bool_decide_true by (rewrite !elem_of_cons; tauto). exact Hfree.
  - rewrite bool_decide_false; [reflexivity|].
    rewrite !elem_of_cons, elem_of_nil. intros [E|[E|[E|[]]]]; discriminate E.
Qed.

(** *** Persistence *)

(** The object that [saveToCloud] rebuilds for the mutation is the
    envelope itself. *)
Lemma saveMutation_argument (data : TreeExportData) :
  {| treeConfig := treeConfig data;
     topper := topper data;
     ornaments :=
       (λ o, mkOrnamentDraft (od_type o) (od_color o) (od_position o)
               (od_scale o) (od_rotation o)) <$> ornaments data;
     metadata := metadata data;
     exportedAt := exportedAt data |} = data.
Proof.
  destruct data as [config top orns meta at_]; cbn. f_equal.
  induction orns as [|[? ? ? ? ?] orns IH]; [reflexivity|].
  cbn. f_equal. exact IH.
Qed.

(** Exporting reads the state and the clock, and writes nothing. *)
Lemma exportTreeData_state (meta : option PartialTreeExportMetadata) r :
  state (exportTreeData meta r).2 = state r.
Proof.
  unfold exportTreeData. run.
  destruct (exportTree _ _ _ _ _) as [o [k []]]. reflexivity.
Qed.

(** The local backend works on the browser's storage alone. *)
Lemma onLocalStorage_store {A} (m : M (gmap string string) A) r :
  store (state (onLocalStorage m r).2) = store (state r).
Proof.
  unfold onLocalStorage, zoom. destruct (m _) as [o r']. reflexivity.
Qed.

Lemma run_saveToCloud (meta : option PartialTreeExportMetadata) r
    (data : TreeExportData) r1 :
  exportTreeData meta r = (Returned data, r1) →
  saveToCloud meta r =
  match saveMutation data with
  | Returned id => (Returned id, (setCloudId (Some id) r1).2)
  | Threw _ => onLocalStorage (localStorageBackend_save data) r1
  end.
Proof.
  intros Hexport. unfold saveToCloud.
  rewrite (run_bind_returned _ _ _ _ _ Hexport).
  rewrite run_try_catch, run_bind, run_lift, saveMutation_argument.
  destruct (saveMutation data) as [id|e]; [|reflexivity].
  unfold setCloudId. run. reflexivity.
Qed.

(** C1. When the export succeeds and the remote save throws,
    [saveToCloud] is the local backend's save of the exported envelope:
    it returns the identifier which that save returns, with the
    envelope stored as that save stores it, and the store's own state
    as it was. *)
Theorem saveToCloud_falls_back_to_local (meta : option PartialTreeExportMetadata) r
    (data : TreeExportData) r1 (error : string) :
  exportTreeData meta r = (Returned data, r1) →
  saveMutation data = Threw error →
  saveToCloud meta r = onLocalStorage (localStorageBackend_save data) r1 ∧
  store (state (saveToCloud meta r).2) = store (state r) ∧
  ∀ (id : string) (saved : Run (gmap string string)),
    localStorageBackend_save data (mkRun (ticks r1) (localStorage (state r))) = (Returned id, saved) →
    (saveToCloud meta r).1 = Returned id ∧
    localStorage (state (saveToCloud meta r).2) = state saved.
Proof.
  intros Hexport Hremote.
  pose proof (exportTreeData_state meta r) as Hstate. rewrite Hexport in Hstate.
  cbn in Hstate.
  rewrite (run_saveToCloud _ _ _ _ Hexport), Hremote.
  split; [reflexivity|]. split.
  - rewrite onLocalStorage_store, Hstate. reflexivity.
  - intros id saved Hsave. unfold onLocalStorage, zoom.
    rewrite Hstate, Hsave. cbn. split; reflexivity.
Qed.

(** C7, as the code has it. A [saveToCloud] that completes remotely
    sets [cloudId] to the identifier it returns, and the cloud share
    URL is then derived from it. A [saveToCloud] that falls back to the
    local backend, and a [saveToStorage], leave [cloudId] as it was. *)
Theorem cloudId_set_by_remote_save_only (meta : option PartialTreeExportMetadata) r
    (data : TreeExportData) r1 (origin : string) :
  exportTreeData meta r = (Returned data, r1) →
  (∀ id, saveMutation data = Returned id →
     (saveToCloud meta r).1 = Returned id ∧
     st_cloudId (store (state (saveToCloud meta r).2)) = Some id ∧
     (id ≠ "" →
        getCloudShareURL origin (store (state (saveToCloud meta r).2))
        = origin +:+ "?id=" +:+ id)) ∧
  (∀ error, saveMutation data = Threw error →
     st_cloudId (store (state (saveToCloud meta r).2)) = st_cloudId (store (state r))) ∧
  st_cloudId (store (state (saveToStorage meta r).2)) = st_cloudId (store (state r)).
Proof.
  intros Hexport.
  pose proof (exportTreeData_state meta r) as Hstate. rewrite Hexport in Hstate.
  cbn in Hstate.
  split; [|split].
  - intros id Hremote. rewrite (run_saveToCloud _ _ _ _ Hexport), Hremote.
    unfold setCloudId. run. split; [reflexivity|]. split; [reflexivity|].
    intros Hid. unfold getCloudShareURL. cbn.
    rewrite decide_False by exact Hid. reflexivity.
  - intros error Hremote. rewrite (run_saveToCloud _ _ _ _ Hexport), Hremote.
    rewrite onLocalStorage_store, Hstate. reflexivity.
  - unfold saveToStorage. rewrite (run_bind_returned _ _ _ _ _ Hexport).
    rewrite onLocalStorage_store, Hstate. reflexivity.
Qed.

(** C4. A load that fails returns [false] and leaves the tree as it
    was: [importFromCode] on a code that [parseShareCode] maps to null
    changes nothing at all, and [loadFromCloud], on a missing record as
    on a thrown remote error, leaves ornaments, topper and
    configuration (and [cloudId]) untouched. *)
Theorem failed_load_keeps_tree (code id : string) r :
  (parseShareCode code = None →
     importFromCode code r = (Returned false, r)) ∧
  (convex_query_trees_get id = Returned None ∨
   (∃ error, convex_query_trees_get id = Threw error) →
     (loadFromCloud id r).1 = Returned false ∧
     sameTree (store (state r)) (store (state (loadFromCloud id r).2)) ∧
     st_cloudId (store (state (loadFromCloud id r).2)) = st_cloudId (store (state r))).
Proof.
  split.
  - intros Hparse. unfold importFromCode. rewrite Hparse. reflexivity.
  - intros Hget. unfold loadFromCloud, sameTree.
    destruct Hget as [Hget|[error Hget]];
      unfold setIsLoading; run; rewrite Hget; cbn; auto.
Qed.

(** *** Quota, seen from the helpers *)

(** X1. For a present user the two quota helpers agree: the remaining count
    is never negative, it is the quota less the live count while that is
    within the quota and zero beyond it, and an ornament can be added
    exactly when something remains. *)
Theorem quota_helpers_agree s (u : User) :
  st_currentUser s = Some u →
  (0 ≤ getRemainingOrnaments s)%Z ∧
  (canAddOrnament s = true ↔ (0 < getRemainingOrnaments s)%Z) ∧
  ((usedOrnamentsOf s ≤ maxOrnaments (user_quota u))%Z →
     getRemainingOrnaments s = (maxOrnaments (user_quota u) - usedOrnamentsOf s)%Z) ∧
  ((maxOrnaments (user_quota u) ≤ usedOrnamentsOf s)%Z →
     getRemainingOrnaments s = 0%Z).
Proof.
  intros Hu. unfold getRemainingOrnaments. rewrite (canAddOrnament_spec _ u Hu), Hu.
  split; [lia|]. split; [|split; lia].
  rewrite bool_decide_eq_true. lia.
Qed.

(** X2. An [addOrnament] that the quota allows, called on the latest
    render, takes exactly one of the remaining slots; the ornament it
    creates carries the draft's fields and the current user's id and
    name, and nothing but the ornament sequence changes. *)
Theorem addOrnament_takes_one_slot (draft : OrnamentDraft) r (u : User) :
  st_currentUser (store (state r)) = Some u →
  canAddOrnament (store (state r)) = true →
  ∃ o r',
    addOrnament (store (state r)) draft r = (Returned (Some o), r') ∧
    getRemainingOrnaments (store (state r'))
      = (getRemainingOrnaments (store (state r)) - 1)%Z ∧
    ornamentFields o = draft ∧
    orn_userId o = Some (user_id u) ∧
    orn_userName o = user_name u ∧
    st_topper (store (state r')) = st_topper (store (state r)) ∧
    st_treeConfig (store (state r')) = st_treeConfig (store (state r)) ∧
    st_currentUser (store (state r')) = st_currentUser (store (state r)) ∧
    st_cloudId (store (state r')) = st_cloudId (store (state r)) ∧
    localStorage (state r') = localStorage (state r).
Proof.
  intros Hu Hcan. rewrite run_addOrnament. cbn zeta. rewrite Hcan.
  eexists _, _. split; [reflexivity|].
  rewrite (canAddOrnament_spec _ u Hu), bool_decide_eq_true in Hcan.
  unfold getRemainingOrnaments, usedOrnamentsOf in *. cbn. rewrite Hu. cbn.
  rewrite length_app. cbn. split; [lia|].
  split; [destruct draft; reflexivity|]. auto 10.
Qed.

(** *** Removing *)

(** X3. After [removeOrnament] no ornament has the given id; the ornaments
    kept are exactly those with another id, in their old order; the live
    count does not grow and the remaining quota does not shrink. *)
Theorem removeOrnament_removes_every_match (ornamentId : string) r :
  ∃ r',
    removeOrnament ornamentId r = (Returned true, r') ∧
    Forall (λ o, orn_id o ≠ ornamentId) (st_ornaments (store (state r'))) ∧
    (∀ o, o ∈ st_ornaments (store (state r'))
          ↔ o ∈ st_ornaments (store (state r)) ∧ orn_id o ≠ ornamentId) ∧
    st_ornaments (store (state r')) `sublist_of` st_ornaments (store (state r)) ∧
    (usedOrnamentsOf (store (state r')) ≤ usedOrnamentsOf (store (state r)))%Z ∧
    (getRemainingOrnaments (store (state r)) ≤ getRemainingOrnaments (store (state r')))%Z.
Proof.
  rewrite run_removeOrnament. eexists. split; [reflexivity|]. cbn.
  pose proof (sublist_filter (λ o, orn_id o ≠ ornamentId) (st_ornaments (store (state r))))
    as Hsub.
  pose proof (sublist_length _ _ Hsub) as Hlen.
  split; [|split; [|split; [exact Hsub|split]]].
  - apply Forall_forall. intros o Ho. apply list_elem_of_filter in Ho. tauto.
  - intros o. rewrite list_elem_of_filter. tauto.
  - unfold usedOrnamentsOf. cbn. lia.
  - unfold getRemainingOrnaments, usedOrnamentsOf. cbn.
    destruct (st_currentUser (store (state r))); lia.
Qed.

(** *** Updating *)

Lemma mergeOrnament_twice (o : OrnamentData) (updates : PartialOrnamentData) :
  mergeOrnament (mergeOrnament o updates) updates = mergeOrnament o updates.
Proof.
  destruct updates as [[?|] [?|] [?|] [?|] [?|] [?|] [?|] [?|] [?|]]; reflexivity.
Qed.

Lemma update_step_twice (ornamentId : string) (updates : PartialOrnamentData)
    (o : OrnamentData) :
  let step := λ o, if decide (orn_id o = ornamentId) then mergeOrnament o updates else o in
  step (step o) = step o.
Proof.
  cbn zeta. destruct (decide (orn_id o = ornamentId)) as [Hid|Hid].
  - rewrite (decide_True (P := orn_id o = ornamentId)) by exact Hid.
    case_decide; [apply mergeOrnament_twice | reflexivity].
  - rewrite !(decide_False (P := orn_id o = ornamentId)) by exact Hid. reflexivity.
Qed.

(** X4. [updateOrnament] is idempotent, whatever the update carries, and it
    keeps the length of the sequence; an update that carries no field
    changes nothing. *)
Theorem updateOrnament_idempotent (ornamentId : string) (updates : PartialOrnamentData) r :
  (updateOrnament ornamentId updates ;; updateOrnament ornamentId updates) r
    = updateOrnament ornamentId updates r ∧
  usedOrnamentsOf (store (state (updateOrnament ornamentId updates r).2))
    = usedOrnamentsOf (store (state r)) ∧
  updateOrnament ornamentId noUpdates r = (Returned true, r).
Proof.
  split; [|split].
  - rewrite run_bind, !run_updateOrnament. cbn. unfold with_store; cbn.
    rewrite <- list_fmap_compose.
    rewrite (list_fmap_ext _
               (λ o, if decide (orn_id o = ornamentId) then mergeOrnament o updates else o)
               (st_ornaments (store (state r))));
      [reflexivity|].
    intros i o _. apply update_step_twice.
  - rewrite run_updateOrnament. unfold usedOrnamentsOf. cbn.
    rewrite length_fmap. reflexivity.
  - unfold updateOrnament. rewrite run_bind.
    rewrite setOrnaments_fixed; [reflexivity|].
    rewrite <- (list_fmap_id (st_ornaments (store (state r)))) at 2.
    apply list_fmap_ext. intros i [] _. cbn. case_decide; reflexivity.
Qed.

(** *** Clearing *)

Lemma run_clearOrnaments r :
  clearOrnaments r =
  (Returned tt,
   mkRun (ticks r)
     (with_store (λ s, mkTreeStoreState [] (st_topper s) (st_treeConfig s)
        (st_currentUser s) (st_isLoading s) (st_isSyncing s) (st_cloudId s)) (state r))).
Proof. unfold clearOrnaments. run. reflexivity. Qed.

(** X5. [clearOrnaments] is not quota-gated and gives the whole quota back:
    afterwards the sequence is empty, the remaining count is the quota
    (or zero for a negative one), an ornament can be added exactly when
    the quota is positive, and topper, configuration and [cloudId] are
    as before. *)
Theorem clearOrnaments_frees_quota r (u : User) :
  st_currentUser (store (state r)) = Some u →
  ∃ r',
    clearOrnaments r = (Returned tt, r') ∧
    st_ornaments (store (state r')) = [] ∧
    getRemainingOrnaments (store (state r')) = Z.max 0 (maxOrnaments (user_quota u)) ∧
    (canAddOrnament (store (state r')) = true ↔ (0 < maxOrnaments (user_quota u))%Z) ∧
    st_topper (store (state r')) = st_topper (store (state r)) ∧
    st_treeConfig (store (state r')) = st_treeConfig (store (state r)) ∧
    st_cloudId (store (state r')) = st_cloudId (store (state r)).
Proof.
  intros Hu. rewrite run_clearOrnaments. eexists. split; [reflexivity|]. cbn.
  split; [reflexivity|].
  unfold getRemainingOrnaments, canAddOrnament, usedOrnamentsOf. cbn. rewrite Hu. cbn.
  split; [f_equal; lia|]. split; [|auto].
  rewrite bool_decide_eq_true. reflexivity.
Qed.

(** *** The configuration *)

Lemma mergeTreeConfig_twice (c : TreeConfig) (updates : PartialTreeConfig) :
  mergeTreeConfig (mergeTreeConfig c updates) updates = mergeTreeConfig c updates.
Proof. destruct updates as [[?|] [?|] [?|] [?|] [?|] [?|]]; reflexivity. Qed.

Lemma run_updateTreeConfig (updates : PartialTreeConfig) r :
  updateTreeConfig updates r =
  (Returned tt,
   mkRun (ticks r)
     (with_store (λ s, mkTreeStoreState (st_ornaments s) (st_topper s)
        (mergeTreeConfig (st_treeConfig s) updates)
        (st_currentUser s) (st_isLoading s) (st_isSyncing s) (st_cloudId s)) (state r))).
Proof. unfold updateTreeConfig. run. reflexivity. Qed.

(** X6. [updateTreeConfig] is idempotent, it changes nothing when the update
    carries no field, and it never touches the ornaments or the topper. *)
Theorem updateTreeConfig_idempotent (updates : PartialTreeConfig) r :
  (updateTreeConfig updates ;; updateTreeConfig updates) r = updateTreeConfig updates r ∧
  updateTreeConfig noConfigUpdates r = (Returned tt, r) ∧
  st_ornaments (store (state (updateTreeConfig updates r).2)) = st_ornaments (store (state r)) ∧
  st_topper (store (state (updateTreeConfig updates r).2)) = st_topper (store (state r)).
Proof.
  split; [|split; [|split]].
  - rewrite run_bind, !run_updateTreeConfig. cbn. unfold with_store; cbn.
    rewrite mergeTreeConfig_twice. reflexivity.
  - rewrite run_updateTreeConfig.
    destruct r as [k [[orns top [] user loading syncing cloud] ls]]. reflexivity.
  - rewrite run_updateTreeConfig. reflexivity.
  - rewrite run_updateTreeConfig. reflexivity.
Qed.

(** *** Export *)

(** X7. The author of an export is the current user, whatever author the
    caller supplies: [exportTreeData] is [exportTree] on the ornaments,
    topper and configuration of the store, with metadata whose
    [authorName] and [authorId] are the current user's name and id and
    whose other fields are the caller's. So two metadata arguments that
    agree on name, description, thumbnail and tags export alike, no
    metadata at all exports like empty metadata, and exporting writes
    nothing to the state. *)
Theorem exportTreeData_author_is_current_user (m m' : PartialTreeExportMetadata) r :
  let s := store (state r) in
  (∃ passed : PartialTreeExportMetadata,
     exportTreeData (Some m) r
     = zoom (λ _, tt) (λ _ w, w)
         (exportTree (st_ornaments s) (st_topper s) (st_treeConfig s) passed) r ∧
     pm_authorName passed = Some (st_currentUser s ≫= user_name) ∧
     pm_authorId passed = Some (user_id <$> st_currentUser s) ∧
     (∀ u : User, st_currentUser s = Some u →
        pm_authorName passed = Some (user_name u) ∧
        pm_authorId passed = Some (Some (user_id u))) ∧
     pm_name passed = pm_name m ∧
     pm_description passed = pm_description m ∧
     pm_thumbnail passed = pm_thumbnail m ∧
     pm_tags passed = pm_tags m) ∧
  (pm_name m = pm_name m' →
   pm_description m = pm_description m' →
   pm_thumbnail m = pm_thumbnail m' →
   pm_tags m = pm_tags m' →
   exportTreeData (Some m) r = exportTreeData (Some m') r) ∧
  exportTreeData None r = exportTreeData (Some noMetadata) r ∧
  state (exportTreeData (Some m) r).2 = state r.
Proof.
  cbn zeta. split; [|split; [|split; [reflexivity | apply exportTreeData_state]]].
  - eexists. split; [unfold exportTreeData; run; reflexivity|].
    unfold withAuthor. cbn.
    split; [reflexivity|]. split; [reflexivity|].
    split; [intros u ->; split; reflexivity|]. auto.
  - intros Hname Hdescription Hthumbnail Htags.
    unfold exportTreeData, withAuthor. cbv [default from_option id]. cbn zeta.
    rewrite Hname, Hdescription, Hthumbnail, Htags. reflexivity.
Qed.

(** X8. Saving never changes the tree: after [saveToCloud], whether it
    completes remotely, falls back or throws, ornaments, topper,
    configuration and current user are as before, and [saveToStorage]
    leaves the whole store state as it was. *)
Theorem saving_keeps_the_tree (meta : option PartialTreeExportMetadata) r :
  sameTree (store (state r)) (store (state (saveToCloud meta r).2)) ∧
  st_currentUser (store (state (saveToCloud meta r).2)) = st_currentUser (store (state r)) ∧
  store (state (saveToStorage meta r).2) = store (state r).
Proof.
  pose proof (exportTreeData_state meta r) as Hstate.
  destruct (exportTreeData meta r) as [[data|e] r1] eqn:Hexport; cbn in Hstate.
  - rewrite (run_saveToCloud _ _ _ _ Hexport). unfold saveToStorage, sameTree.
    rewrite (run_bind_returned _ _ _ _ _ Hexport), onLocalStorage_store, Hstate.
    split; [|split; [|reflexivity]].
    + destruct (saveMutation data) as [id|e].
      * unfold setCloudId. run. rewrite Hstate. auto.
      * rewrite onLocalStorage_store, Hstate. auto.
    + destruct (saveMutation data) as [id|e].
      * unfold setCloudId. run. rewrite Hstate. reflexivity.
      * rewrite onLocalStorage_store, Hstate. reflexivity.
  - unfold saveToCloud, saveToStorage, sameTree.
    rewrite !(run_bind_threw _ _ _ _ _ Hexport). cbn. rewrite Hstate. auto.
Qed.

(** *** Import *)

Lemma identifyAll_fields (user : option User) (k : nat) (fields : list OrnamentDraft) :
  ornamentFields <$> identifyAll user k fields = fields.
Proof.
  revert k. induction fields as [|[] fields IH]; intros k; [reflexivity|].
  cbn. f_equal. apply IH.
Qed.

Lemma identifyAll_attribution (user : option User) (k : nat) (fields : list OrnamentDraft) :
  Forall (λ o, orn_userId o = user_id <$> user ∧ orn_userName o = user ≫= user_name)
    (identifyAll user k fields).
Proof.
  revert k. induction fields as [|o fields IH]; intros k; cbn; constructor; auto.
Qed.

Lemma run_identify_all {St} (user : option User) (fields : list OrnamentDraft) (r : Run St) :
  mapM (λ o, id ← generateId; now ← dateNow; mret (identifyOrnament o id user now)) fields r
  = (Returned (identifyAll user (ticks r) fields),
     mkRun (3 * length fields + ticks r) (state r)).
Proof.
  revert r. induction fields as [|o fields IH]; intros r.
  - destruct r. reflexivity.
  - cbn [mapM]. autorewrite with run. cbn [fst snd state ticks].
    rewrite IH. cbn [fst snd state ticks identifyAll length]. do 2 f_equal. lia.
Qed.

(** What [importFromData] leaves behind once the envelope is accepted. *)
Lemma run_importFromData (data : TreeExportData) (restored : TreeRestore) r :
  prepareTreeRestore data = Returned restored →
  ∃ k k',
    importFromData data r =
    (Returned tt,
     mkRun k'
       (mkWorld
          (mkTreeStoreState
             (identifyAll (st_currentUser (store (state r))) k (restored_ornaments restored))
             ((λ t, identifyTopper t (idAt (ticks r)) (st_currentUser (store (state r)))
                      (Date_now (S (S (ticks r))))) <$> restored_topper restored)
             (restored_treeConfig restored)
             (st_currentUser (store (state r))) (st_isLoading (store (state r)))
             (st_isSyncing (store (state r))) (st_cloudId (store (state r))))
          (localStorage (state r)))).
Proof.
  intros Hrestore. unfold importFromData. rewrite Hrestore. run.
  destruct (restored_topper restored) as [t|]; run;
    rewrite run_identify_all; cbn [fst snd state ticks]; run;
    eexists _, _; reflexivity.
Qed.

(** X9. An accepted import replaces the tree: the new ornaments carry the
    envelope's fields in the envelope's order, all attributed to the
    current user; the topper is there exactly when the envelope has one;
    the configuration is the envelope's. The import is not quota-gated:
    the live count becomes the envelope's count. User, [cloudId] and
    local storage are as before. *)
Theorem importFromData_replaces_tree (data : TreeExportData) (restored : TreeRestore) r :
  prepareTreeRestore data = Returned restored →
  ∃ r',
    importFromData data r = (Returned tt, r') ∧
    ornamentFields <$> st_ornaments (store (state r')) = restored_ornaments restored ∧
    topperFields <$> st_topper (store (state r')) = restored_topper restored ∧
    st_treeConfig (store (state r')) = restored_treeConfig restored ∧
    Forall (λ o, orn_userId o = user_id <$> st_currentUser (store (state r)) ∧
                 orn_userName o = st_currentUser (store (state r)) ≫= user_name)
      (st_ornaments (store (state r'))) ∧
    usedOrnamentsOf (store (state r')) = Z.of_nat (length (restored_ornaments restored)) ∧
    st_currentUser (store (state r')) = st_currentUser (store (state r)) ∧
    st_cloudId (store (state r')) = st_cloudId (store (state r)) ∧
    localStorage (state r') = localStorage (state r).
Proof.
  intros Hrestore. destruct (run_importFromData data restored r Hrestore) as (k & k' & ->).
  eexists. split; [reflexivity|]. cbn.
  split; [apply identifyAll_fields|].
  split; [destruct (restored_topper restored) as [[]|]; reflexivity|].
  split; [reflexivity|]. split; [apply identifyAll_attribution|].
  split; [|auto].
  unfold usedOrnamentsOf. cbn.
  rewrite <- (identifyAll_fields (st_currentUser (store (state r))) k
                (restored_ornaments restored)) at 2.
  rewrite length_fmap. reflexivity.
Qed.

(** X10. A rejected import is atomic: when [prepareTreeRestore] throws,
    [importFromData] throws the same error before it has changed
    anything, [importFromCode] and [loadFromStorage] let the error
    through, and [loadFromCloud] turns it into [false] with the tree and
    [cloudId] as before. *)
Theorem importFromData_rejects_atomically (data : TreeExportData) (error : string) r :
  prepareTreeRestore data = Threw error →
  importFromData data r = (Threw error, r) ∧
  (∀ code, parseShareCode code = Some data → importFromCode code r = (Threw error, r)) ∧
  (∀ id, localStorageBackend_load id (mkRun (ticks r) (localStorage (state r)))
           = (Returned (Some data), mkRun (ticks r) (localStorage (state r))) →
         loadFromStorage id r = (Threw error, r)) ∧
  (∀ id, convex_query_trees_get id = Returned (Some data) →
         (loadFromCloud id r).1 = Returned false ∧
         sameTree (store (state r)) (store (state (loadFromCloud id r).2)) ∧
         st_cloudId (store (state (loadFromCloud id r).2)) = st_cloudId (store (state r))).
Proof.
  intros Hrestore.
  assert (importFromData data r = (Threw error, r)) as Himport.
  { unfold importFromData. rewrite Hrestore. reflexivity. }
  split; [exact Himport|]. split; [|split].
  - intros code Hparse. unfold importFromCode. rewrite Hparse.
    apply (run_bind_threw _ _ _ _ _ Himport).
  - intros id Hload. unfold loadFromStorage, onLocalStorage, zoom.
    rewrite run_bind, Hload. cbn [fst snd state ticks].
    replace (mkRun (ticks r) (with_localStorage (localStorage (state r)) (state r)))
      with r by (destruct r as [k [s ls]]; reflexivity).
    apply (run_bind_threw _ _ _ _ _ Himport).
  - intros id Hget. unfold loadFromCloud, sameTree, setIsLoading. run. rewrite Hget.
    unfold importFromData. rewrite Hrestore. cbn. auto.
Qed.

(** X11. [loadFromCloud] never throws and always ends with [isLoading]
    cleared, whatever the remote store and the restore do. The current
    user and the local storage are never touched. When it returns
    [false] the tree and [cloudId] are as before; when it returns [true]
    the record was found and [cloudId] is the id asked for. *)
Theorem loadFromCloud_never_throws (id : string) r :
  ∃ loaded : bool,
    (loadFromCloud id r).1 = Returned loaded ∧
    st_isLoading (store (state (loadFromCloud id r).2)) = false ∧
    st_currentUser (store (state (loadFromCloud id r).2)) = st_currentUser (store (state r)) ∧
    localStorage (state (loadFromCloud id r).2) = localStorage (state r) ∧
    (loaded = false →
       sameTree (store (state r)) (store (state (loadFromCloud id r).2)) ∧
       st_cloudId (store (state (loadFromCloud id r).2)) = st_cloudId (store (state r))) ∧
    (loaded = true →
       (∃ found, convex_query_trees_get id = Returned (Some found)) ∧
       st_cloudId (store (state (loadFromCloud id r).2)) = Some id).
Proof.
  unfold loadFromCloud, sameTree, setIsLoading. run.
  destruct (convex_query_trees_get id) as [[found|]|e] eqn:Hget; cbn [fst snd].
  - destruct (prepareTreeRestore found) as [restored|e] eqn:Hrestore.
    + destruct (run_importFromData found restored
                  (mkRun (ticks r) (with_store (λ s, mkTreeStoreState (st_ornaments s)
                     (st_topper s) (st_treeConfig s) (st_currentUser s) true
                     (st_isSyncing s) (st_cloudId s)) (state r))) Hrestore)
        as (k & k' & Himport).
      rewrite (run_bind_returned _ _ _ _ _ Himport). unfold setCloudId. run. cbn.
      exists true. repeat split; try discriminate; eauto.
    + unfold importFromData. rewrite Hrestore. cbn.
      exists false. repeat split; try discriminate; auto.
  - cbn. exists false. repeat split; try discriminate; auto.
  - cbn. exists false. repeat split; try discriminate; auto.
Qed.

(** X12. A record that the remote store holds and the restore accepts is
    loaded: [loadFromCloud] returns [true], the tree is the record's,
    freshly identified, and [cloudId] is the id asked for. *)
Theorem loadFromCloud_restores_record (id : string) (found : TreeExportData)
    (restored : TreeRestore) r :
  convex_query_trees_get id = Returned (Some found) →
  prepareTreeRestore found = Returned restored →
  (loadFromCloud id r).1 = Returned true ∧
  ornamentFields <$> st_ornaments (store (state (loadFromCloud id r).2))
    = restored_ornaments restored ∧
  topperFields <$> st_topper (store (state (loadFromCloud id r).2))
    = restored_topper restored ∧
  st_treeConfig (store (state (loadFromCloud id r).2)) = restored_treeConfig restored ∧
  st_cloudId (store (state (loadFromCloud id r).2)) = Some id.
Proof.
  intros Hget Hrestore. unfold loadFromCloud, setIsLoading. run. rewrite Hget.
  destruct (run_importFromData found restored
              (mkRun (ticks r) (with_store (λ s, mkTreeStoreState (st_ornaments s)
                 (st_topper s) (st_treeConfig s) (st_currentUser s) true
                 (st_isSyncing s) (st_cloudId s)) (state r))) Hrestore)
    as (k & k' & Himport).
  rewrite (run_bind_returned _ _ _ _ _ Himport). unfold setCloudId. run. cbn.
  split; [reflexivity|]. split; [apply identifyAll_fields|].
  split; [destruct (restored_topper restored) as [[]|]; reflexivity|]. auto.
Qed.

(** X13. [loadFromStorage] follows the local backend: on null it returns
    [false] and on a thrown error it throws, both with the store's state
    as it was; on an envelope that the restore accepts it returns [true]
    with the tree replaced by the envelope's. In no case does it set
    [cloudId]. *)
Theorem loadFromStorage_follows_backend (id : string) r
    (reply : outcome (option TreeExportData)) (after : Run (gmap string string)) :
  localStorageBackend_load id (mkRun (ticks r) (localStorage (state r))) = (reply, after) →
  (reply = Returned None →
     (loadFromStorage id r).1 = Returned false ∧
     store (state (loadFromStorage id r).2) = store (state r)) ∧
  (∀ error, reply = Threw error →
     (loadFromStorage id r).1 = Threw error ∧
     store (state (loadFromStorage id r).2) = store (state r)) ∧
  (∀ found restored,
     reply = Returned (Some found) →
     prepareTreeRestore found = Returned restored →
     (loadFromStorage id r).1 = Returned true ∧
     ornamentFields <$> st_ornaments (store (state (loadFromStorage id r).2))
       = restored_ornaments restored ∧
     topperFields <$> st_topper (store (state (loadFromStorage id r).2))
       = restored_topper restored ∧
     st_treeConfig (store (state (loadFromStorage id r).2)) = restored_treeConfig restored ∧
     st_cloudId (store (state (loadFromStorage id r).2)) = st_cloudId (store (state r))).
Proof.
  intros Hload. unfold loadFromStorage, onLocalStorage, zoom.
  rewrite run_bind, Hload. split; [|split].
  - intros ->. cbn. auto.
  - intros error ->. cbn. auto.
  - intros found restored -> Hrestore. cbn [fst snd].
    destruct (run_importFromData found restored
                (mkRun (ticks after) (with_localStorage (state after) (state r))) Hrestore)
      as (k & k' & Himport).
    rewrite (run_bind_returned _ _ _ _ _ Himport). cbn.
    split; [reflexivity|]. split; [apply identifyAll_fields|].
    split; [destruct (restored_topper restored) as [[]|]; reflexivity|]. auto.
Qed.

End store_properties.

Section share_url.
Context {clipboard : Clipboard}.

Lemma append_query_not_empty (origin cloudId : string) :
  origin +:+ "?id=" +:+ cloudId ≠ "".
Proof. destruct origin; discriminate. Qed.


End share_url.

(* ================================================================== *)
(** * The share code loses nothing *)
(* ================================================================== *)

Module TreeExportFacts.
Import TreeExportModel.

#[global] Instance positive_lossless : Lossless positive_codec.
Proof.
  intros p rest. induction p as [p IH|p IH|]; cbn in *.
  - rewrite IH. reflexivity.
  - rewrite IH. reflexivity.
  - reflexivity.
Qed.

#[global] Instance N_lossless : Lossless N_codec.
Proof.
  intros [|p] rest; cbn; [reflexivity|].
  rewrite (lossless (c := positive_codec)). reflexivity.
Qed.

#[global] Instance Z_lossless : Lossless Z_codec.
Proof.
  intros [|p|p] rest; cbn; [reflexivity| |];
    rewrite (lossless (c := positive_codec)); reflexivity.
Qed.

#[global] Instance bool_lossless : Lossless bool_codec.
Proof. intros [|] rest; reflexivity. Qed.

#[global] Instance pair_lossless {A B} (ca : codec A) (cb : codec B) :
  Lossless ca → Lossless cb → Lossless (pair_codec ca cb).
Proof.
  intros Ha Hb [a b] rest. cbn.
  rewrite <- app_assoc, Ha. cbn. rewrite Hb. reflexivity.
Qed.

Lemma via_lossless {A B} (to : B → A) (from : A → B) (c : codec A) :
  (∀ b, from (to b) = b) → Lossless c → Lossless (via to from c).
Proof.
  intros Hinv Hc b rest. cbn. rewrite Hc. cbn. rewrite Hinv. reflexivity.
Qed.

#[global] Instance option_lossless {A} (c : codec A) :
  Lossless c → Lossless (option_codec c).
Proof.
  intros Hc [a|] rest; cbn; [|reflexivity]. rewrite Hc. reflexivity.
Qed.

Lemma dec_items_enc_items {A} (c : codec A) (l : list A) (rest : list ascii) :
  Lossless c → dec_items c (length l) (enc_items c l ++ rest) = Some (l, rest).
Proof.
  intros Hc. induction l as [|a l IH]; cbn; [reflexivity|].
  rewrite <- app_assoc, Hc. cbn. rewrite IH. reflexivity.
Qed.

#[global] Instance list_lossless {A} (c : codec A) :
  Lossless c → Lossless (list_codec c).
Proof.
  intros Hc l rest. unfold list_codec; cbn [enc dec].
  rewrite <- app_assoc, (lossless (c := N_codec)). cbn.
  rewrite Nat2N.id. apply dec_items_enc_items, Hc.
Qed.

Lemma nibble_of_hex_of_nibble (b0 b1 b2 b3 : bool) :
  nibble_of_hex (hex_of_nibble b0 b1 b2 b3) = Some (b0, b1, b2, b3).
Proof. destruct b0, b1, b2, b3; reflexivity. Qed.

#[global] Instance ascii_lossless : Lossless ascii_codec.
Proof.
  intros [b0 b1 b2 b3 b4 b5 b6 b7] rest. cbn [ascii_codec enc dec app].
  rewrite !nibble_of_hex_of_nibble. reflexivity.
Qed.

#[global] Instance string_lossless : Lossless string_codec.
Proof.
  apply via_lossless; [apply string_of_list_ascii_of_string | apply _].
Qed.

#[global] Instance number_lossless : Lossless number_codec.
Proof. apply via_lossless; [intros [num den]; reflexivity | apply _]. Qed.

#[global] Instance TreeConfig_lossless : Lossless TreeConfig_codec.
Proof. apply via_lossless; [intros []; reflexivity | apply _]. Qed.

#[global] Instance TopperDraft_lossless : Lossless TopperDraft_codec.
Proof. apply via_lossless; [intros []; reflexivity | apply _]. Qed.

#[global] Instance OrnamentDraft_lossless : Lossless OrnamentDraft_codec.
Proof. apply via_lossless; [intros []; reflexivity | apply _]. Qed.

#[global] Instance TreeExportMetadata_lossless : Lossless TreeExportMetadata_codec.
Proof. apply via_lossless; [intros []; reflexivity | apply _]. Qed.

#[global] Instance TreeExportData_lossless : Lossless TreeExportData_codec.
Proof. apply via_lossless; [intros []; reflexivity | apply _]. Qed.

(** What [parseShareCode] does with a code of the current version. *)
Lemma parseShareCode_current_version (body : list ascii) :
  parseShareCode (string_of_list_ascii (shareCodeVersion ++ body))
  = match dec TreeExportData_codec body with
    | Some (e, []) => Some e
    | _ => None
    end.
Proof.
  unfold parseShareCode. rewrite list_ascii_of_string_of_list_ascii. reflexivity.
Qed.

(** C3. Parsing the share code generated for an envelope gives back
    that envelope: the configuration, the ornaments in their order, the
    topper or its absence, the metadata and the export time. *)
Theorem parseShareCode_generateShareCode (e : TreeExportData) :
  parseShareCode (generateShareCode e) = Some e.
Proof.
  unfold generateShareCode. rewrite parseShareCode_current_version.
  rewrite <- (app_nil_r (enc TreeExportData_codec e)).
  rewrite (lossless (c := TreeExportData_codec)). reflexivity.
Qed.

(** What the local backend saved, it loads: the identifier that [save]
    returns leads [load] back to the envelope. *)
Lemma localStorageBackend_load_after_save {ambient : Ambient} (e : TreeExportData)
    (r : Run (gmap string string)) :
  ∃ id saved,
    localStorageBackend_save e r = (Returned id, saved) ∧
    (localStorageBackend_load id saved).1 = Returned (Some e).
Proof.
  unfold localStorageBackend_save, localStorageBackend_load.
  autorewrite with run. cbn [fst snd state ticks].
  eexists _, _. split; [reflexivity|].
  autorewrite with run. cbn [fst snd state ticks].
  rewrite lookup_insert_eq. cbn [mbind option_bind]. unfold generateShareCode.
  rewrite parseShareCode_current_version.
  rewrite <- (app_nil_r (enc TreeExportData_codec e)).
  rewrite (lossless (c := TreeExportData_codec)). reflexivity.
Qed.

(** *** The share code is URL-safe *)

#[global] Instance positive_url_safe : UrlSafe positive_codec.
Proof.
  intros p. induction p as [p IH|p IH|]; cbn.
  - constructor; [reflexivity | exact IH].
  - constructor; [reflexivity | exact IH].
  - constructor; [reflexivity | constructor].
Qed.

#[global] Instance N_url_safe : UrlSafe N_codec.
Proof.
  intros [|p]; cbn; constructor; try reflexivity; try constructor.
  apply (url_safe (c := positive_codec)).
Qed.

#[global] Instance Z_url_safe : UrlSafe Z_codec.
Proof.
  intros [|p|p]; cbn; constructor; try reflexivity; try constructor;
    apply (url_safe (c := positive_codec)).
Qed.

#[global] Instance bool_url_safe : UrlSafe bool_codec.
Proof. intros [|]; cbn; constructor; try reflexivity; constructor. Qed.

#[global] Instance pair_url_safe {A B} (ca : codec A) (cb : codec B) :
  UrlSafe ca → UrlSafe cb → UrlSafe (pair_codec ca cb).
Proof. intros Ha Hb [a b]. cbn. apply Forall_app. split; [apply Ha | apply Hb]. Qed.

#[global] Instance via_url_safe {A B} (to : B → A) (from : A → B) (c : codec A) :
  UrlSafe c → UrlSafe (via to from c).
Proof. intros Hc b. cbn. apply Hc. Qed.

#[global] Instance option_url_safe {A} (c : codec A) :
  UrlSafe c → UrlSafe (option_codec c).
Proof.
  intros Hc [a|]; cbn; constructor; try reflexivity; [apply Hc | constructor].
Qed.

#[global] Instance list_url_safe {A} (c : codec A) :
  UrlSafe c → UrlSafe (list_codec c).
Proof.
  intros Hc l. unfold list_codec; cbn [enc]. apply Forall_app. split.
  - apply (url_safe (c := N_codec)).
  - induction l as [|a l IH]; cbn; [constructor|].
    apply Forall_app. split; [apply Hc | exact IH].
Qed.

Lemma hex_of_nibble_unreserved (b0 b1 b2 b3 : bool) :
  unreserved (hex_of_nibble b0 b1 b2 b3) = true.
Proof. destruct b0, b1, b2, b3; reflexivity. Qed.

#[global] Instance ascii_url_safe : UrlSafe ascii_codec.
Proof.
  intros [b0 b1 b2 b3 b4 b5 b6 b7]. cbn.
  repeat constructor; apply hex_of_nibble_unreserved.
Qed.

(** Every character of a share code is an unreserved URL character. *)
Lemma generateShareCode_url_safe (e : TreeExportData) :
  Forall (λ ch, unreserved ch = true) (list_ascii_of_string (generateShareCode e)).
Proof.
  unfold generateShareCode. rewrite list_ascii_of_string_of_list_ascii.
  apply Forall_app. split.
  - repeat constructor.
  - apply (url_safe (c := TreeExportData_codec)).
Qed.

End TreeExportFacts.

(* ================================================================== *)
(** * Properties of [convex/auth.ts] *)
(* ================================================================== *)

Module AuthFacts.
Import Convex Auth.

Section handlers.
Context {ambient : Ambient}.
Implicit Types r : Run Db.

Lemma run_randomSubstring2 {St} (r : Run St) :
  randomSubstring2 r = (Returned (Math_random_digits (ticks r)), mkRun (S (ticks r)) (state r)).
Proof. reflexivity. Qed.

Lemma run_db_insert (table : string) (fields : gmap string value) r :
  db_insert table fields r =
  (Returned (nextId (state r)),
   mkRun (S (ticks r))
     (mkDb (<[nextId (state r) :=
                (table, <["_id" := VId (nextId (state r))]>
                           (<["_creationTime" := VNumber (Date_now (ticks r))]> fields))]>
              (docs (state r)))
           (N.succ (nextId (state r))))).
Proof. reflexivity. Qed.

Lemma run_db_get (id : N) r :
  db_get id r = (Returned (snd <$> docs (state r) !! id), r).
Proof. reflexivity. Qed.

Lemma run_query_unique (table field wanted : string) r :
  query_unique table field wanted r =
  match filter (λ entry : N * (string * gmap string value),
                  entry.2.1 = table ∧ field_is_string entry.2.2 field wanted = true)
               (map_to_list (docs (state r))) with
  | [] => (Returned None, r)
  | [entry] => (Returned (Some entry.2.2), r)
  | _ => (Threw "unique() query returned more than one result", r)
  end.
Proof.
  unfold query_unique. rewrite run_bind, run_get.
  destruct (filter _ _) as [|entry [|entry' l]]; reflexivity.
Qed.

Lemma run_mutation {A} (handler : M Db A) r :
  mutation handler r =
  match handler r with
  | (Returned a, r') => (Returned a, r')
  | (Threw e, r') => (Threw e, mkRun (ticks r') (state r))
  end.
Proof. reflexivity. Qed.

(** What a handler returns when it succeeds passes through the
    transaction unchanged. *)
Lemma mutation_returned {A} (handler : M Db A) r (a : A) r' :
  mutation handler r = (Returned a, r') → handler r = (Returned a, r').
Proof.
  rewrite run_mutation. destruct (handler r) as [[a0|e] r0]; intros E;
    [exact E | discriminate E].
Qed.

End handlers.

#[global] Hint Rewrite @run_randomSubstring2 @run_db_insert @run_db_get
  @run_query_unique @run_mutation : run.

Section results.
Context {ambient : Ambient}.
Implicit Types r : Run Db.

Lemma safeUserOf_passwordHash (user : gmap string value) :
  safeUserOf user !! "passwordHash" = None.
Proof. unfold safeUserOf. apply lookup_delete_eq. Qed.

Lemma safeUserOf_other_field (user : gmap string value) (key : string) :
  key ≠ "passwordHash" → safeUserOf user !! key = user !! key.
Proof. intros Hne. unfold safeUserOf. apply lookup_delete_ne. congruence. Qed.

Lemma signup_user_is_safe (email password : string) (name : option string) r
    (token : string) (u : gmap string value) r' :
  signup email password name r = (Returned (AuthSuccess token u), r') →
  ∃ user, u = safeUserOf user.
Proof.
  intros Hrun. apply mutation_returned in Hrun.
  rewrite run_bind, run_query_unique in Hrun.
  destruct (filter _ _) as [|entry [|entry' l]]; [| discriminate Hrun ..].
  revert Hrun. autorewrite with run. cbn [fst snd state ticks].
  destruct (snd <$> _ !! _) as [user|]; intros Hrun; [|discriminate Hrun].
  exists user. rewrite run_ret in Hrun. congruence.
Qed.

Lemma login_user_is_safe (email password : string) r
    (token : string) (u : gmap string value) r' :
  login email password r = (Returned (AuthSuccess token u), r') →
  ∃ user, u = safeUserOf user.
Proof.
  intros Hrun. apply mutation_returned in Hrun.
  rewrite run_bind, run_query_unique in Hrun.
  destruct (filter _ _) as [|entry [|entry' l]]; [discriminate Hrun | | discriminate Hrun].
  destruct (passwordDiffers entry.2.2 password); [discriminate Hrun|].
  revert Hrun. autorewrite with run. cbn [fst snd state ticks].
  intros Hrun. exists entry.2.2. congruence.
Qed.

Lemma validateSession_user_is_safe (token : string) r (u : gmap string value) r' :
  validateSession token r = (Returned (Some u), r') →
  ∃ user, u = safeUserOf user.
Proof.
  intros Hrun. apply mutation_returned in Hrun.
  rewrite run_bind, run_query_unique in Hrun.
  destruct (filter _ _) as [|entry [|entry' l]]; [discriminate Hrun | | discriminate Hrun].
  rewrite run_bind, run_dateNow in Hrun.
  destruct (expiredAt entry.2.2 _); [discriminate Hrun|].
  destruct (entry.2.2 !! "userId") as [[s|n|b|userId|fields]|]; try discriminate Hrun.
  revert Hrun. autorewrite with run. cbn [fst snd state ticks].
  destruct (snd <$> _ !! _) as [user|]; intros Hrun; [|discriminate Hrun].
  exists user. rewrite run_ret in Hrun. congruence.
Qed.

(** C10. The user object that [signup], [login] or [validateSession]
    returns on success has no [passwordHash] field. *)
Theorem auth_user_has_no_passwordHash (email password sessionToken : string)
    (name : option string) r (token : string) (u : gmap string value) r' :
  signup email password name r = (Returned (AuthSuccess token u), r') ∨
  login email password r = (Returned (AuthSuccess token u), r') ∨
  validateSession sessionToken r = (Returned (Some u), r') →
  u !! "passwordHash" = None.
Proof.
  intros [Hrun|[Hrun|Hrun]];
    [apply signup_user_is_safe in Hrun
    |apply login_user_is_safe in Hrun
    |apply validateSession_user_is_safe in Hrun];
    destruct Hrun as [user ->]; apply safeUserOf_passwordHash.
Qed.
End results.
End AuthFacts.

(* ================================================================== *)
(** * Sessions, passwords and profiles *)
(* ================================================================== *)

Module SessionFacts.
Import Convex ConvexWrites Auth AuthProfile AuthFacts.

Lemma run_eta {St} (r : Run St) : mkRun (ticks r) (state r) = r.
Proof. destruct r. reflexivity. Qed.

Lemma run_db_delete (id : N) (r : Run Db) :
  db_delete id r = (Returned tt, mkRun (ticks r) (mkDb (delete id (docs (state r))) (nextId (state r)))).
Proof. reflexivity. Qed.

Lemma run_db_delete_existing (id : N) (r : Run Db) :
  db_delete_existing id r =
  match docs (state r) !! id with
  | None => (Threw "Delete on nonexistent document", r)
  | Some _ => (Returned tt, mkRun (ticks r) (mkDb (delete id (docs (state r))) (nextId (state r))))
  end.
Proof.
  unfold db_delete_existing. rewrite run_bind, run_get.
  destruct (docs (state r) !! id); reflexivity.
Qed.

Lemma run_db_patch (id : N) (changes : list (string * option value)) (r : Run Db) :
  db_patch id changes r =
  match docs (state r) !! id with
  | None => (Threw "Update on nonexistent document", r)
  | Some (table, doc) =>
      (Returned tt,
       mkRun (ticks r)
         (mkDb (<[id := (table, foldl patch_field doc changes)]> (docs (state r)))
               (nextId (state r))))
  end.
Proof.
  unfold db_patch. rewrite run_bind, run_get.
  destruct (docs (state r) !! id) as [[table doc]|]; reflexivity.
Qed.

Lemma run_query_selected (table field wanted : string) (r : Run Db) :
  query_unique table field wanted r =
  match selected table field wanted (state r) with
  | [] => (Returned None, r)
  | [entry] => (Returned (Some entry.2.2), r)
  | _ => (Threw "unique() query returned more than one result", r)
  end.
Proof. apply run_query_unique. Qed.

Section handlers.
Context {ambient : Ambient}.
Implicit Types r : Run Db.

Lemma run_signup (email password : string) (name : option string) r :
  signup email password name r =
  match selected "users" "email" email (state r) with
  | [] =>
      let k := ticks r in
      let n := nextId (state r) in
      let user := stored (newUserFields email password name (Date_now k) (Date_now (1 + k)))
                    (Date_now (2 + k)) n in
      let token := Math_random_digits (3 + k) in
      let session := stored (newSessionFields (Some (VId n)) token (Date_now (4 + k)))
                       (Date_now (5 + k)) (N.succ n) in
      (Returned (AuthSuccess token (safeUserOf user)),
       mkRun (6 + k)
         (mkDb (<[N.succ n := ("sessions", session)]>
                  (<[n := ("users", user)]> (docs (state r))))
               (N.succ (N.succ n))))
  | [_] => (Returned (AuthFailure "User already exists"), r)
  | _ => (Threw "unique() query returned more than one result", r)
  end.
Proof.
  unfold signup. rewrite run_mutation, run_bind, run_query_selected.
  destruct (selected _ _ _ _) as [|entry [|entry' l]];
    [|reflexivity|cbn; rewrite run_eta; reflexivity].
  autorewrite with run. cbn [fst snd state ticks docs nextId].
  rewrite lookup_insert_ne by apply N.neq_succ_diag_l.
  rewrite lookup_insert_eq. reflexivity.
Qed.

Lemma run_login (email password : string) r :
  login email password r =
  match selected "users" "email" email (state r) with
  | [] => (Returned (AuthFailure "Invalid email or password"), r)
  | [entry] =>
      if passwordDiffers entry.2.2 password
      then (Returned (AuthFailure "Invalid email or password"), r)
      else
        let k := ticks r in
        let n := nextId (state r) in
        let token := Math_random_digits k in
        let session := stored (newSessionFields (entry.2.2 !! "_id") token (Date_now (1 + k)))
                         (Date_now (2 + k)) n in
        (Returned (AuthSuccess token (safeUserOf entry.2.2)),
         mkRun (3 + k) (mkDb (<[n := ("sessions", session)]> (docs (state r))) (N.succ n)))
  | _ => (Threw "unique() query returned more than one result", r)
  end.
Proof.
  unfold login. rewrite run_mutation, run_bind, run_query_selected.
  destruct (selected _ _ _ _) as [|entry [|entry' l]];
    [reflexivity| |cbn; rewrite run_eta; reflexivity].
  destruct (passwordDiffers entry.2.2 password); [reflexivity|].
  autorewrite with run. reflexivity.
Qed.

Lemma run_validateSession (token : string) r :
  validateSession token r =
  match selected "sessions" "token" token (state r) with
  | [] => (Returned None, r)
  | [entry] =>
      let r' := mkRun (S (ticks r)) (state r) in
      if expiredAt entry.2.2 (Date_now (ticks r)) then (Returned None, r')
      else
        match entry.2.2 !! "userId" with
        | Some (VId userId) =>
            (Returned (safeUserOf <$> (snd <$> docs (state r) !! userId)), r')
        | _ => (Threw "Invalid argument `id` for `db.get`", r')
        end
  | _ => (Threw "unique() query returned more than one result", r)
  end.
Proof.
  unfold validateSession. rewrite run_mutation, run_bind, run_query_selected.
  destruct (selected _ _ _ _) as [|entry [|entry' l]];
    [reflexivity| |cbn; rewrite run_eta; reflexivity].
  rewrite run_bind, run_dateNow. cbn zeta.
  destruct (expiredAt entry.2.2 _); [reflexivity|].
  destruct (entry.2.2 !! "userId") as [[s|n|b|userId|fields]|]; try reflexivity.
  autorewrite with run. cbn [fst snd state ticks].
  destruct (snd <$> _ !! _); reflexivity.
Qed.

Lemma run_logout (token : string) r :
  logout token r =
  match selected "sessions" "token" token (state r) with
  | [] => (Returned tt, r)
  | [entry] =>
      match entry.2.2 !! "_id" with
      | Some (VId id) =>
          match docs (state r) !! id with
          | Some _ =>
              (Returned tt,
               mkRun (ticks r) (mkDb (delete id (docs (state r))) (nextId (state r))))
          | None => (Threw "Delete on nonexistent document", r)
          end
      | _ => (Threw "Invalid argument `id` for `db.delete`", r)
      end
  | _ => (Threw "unique() query returned more than one result", r)
  end.
Proof.
  unfold logout. rewrite run_mutation, run_bind, run_query_selected.
  destruct (selected _ _ _ _) as [|entry [|entry' l]];
    [reflexivity| |cbn; rewrite run_eta; reflexivity].
  destruct (entry.2.2 !! "_id") as [[s|n|b|id|fields]|];
    try (cbn; rewrite run_eta; reflexivity).
  rewrite run_db_delete_existing.
  destruct (docs (state r) !! id); [reflexivity|]. rewrite run_eta. reflexivity.
Qed.

(** *** What an index lookup selects *)

Lemma elem_of_selected (table field wanted : string) (db : Db) (k : N) (t : string)
    (doc : gmap string value) :
  (k, (t, doc)) ∈ selected table field wanted db ↔
  docs db !! k = Some (t, doc) ∧ t = table ∧ field_is_string doc field wanted = true.
Proof.
  unfold selected. rewrite list_elem_of_filter, elem_of_map_to_list. cbn. tauto.
Qed.

Lemma selected_NoDup (table field wanted : string) (db : Db) :
  NoDup (selected table field wanted db).
Proof. apply NoDup_filter, NoDup_map_to_list. Qed.

Lemma selected_none (table field wanted : string) (db : Db) :
  selected table field wanted db = [] ↔
  ∀ k doc, docs db !! k = Some (table, doc) → field_is_string doc field wanted = false.
Proof.
  split.
  - intros Hnil k doc Hdoc. destruct (field_is_string doc field wanted) eqn:Hfield; [|done].
    assert ((k, (table, doc)) ∈ selected table field wanted db) as Hin
      by (apply elem_of_selected; auto).
    rewrite Hnil in Hin. by apply elem_of_nil in Hin.
  - intros Hnone. destruct (selected table field wanted db) as [|[k [t doc]] l] eqn:Hsel;
      [done|].
    assert ((k, (t, doc)) ∈ selected table field wanted db) as Hin
      by (rewrite Hsel; apply list_elem_of_here).
    apply elem_of_selected in Hin as (Hdoc & -> & Hfield).
    rewrite (Hnone k doc Hdoc) in Hfield. discriminate Hfield.
Qed.

Lemma selected_one (table field wanted : string) (db : Db) (k : N)
    (doc : gmap string value) :
  selected table field wanted db = [(k, (table, doc))] ↔
  docs db !! k = Some (table, doc) ∧ field_is_string doc field wanted = true ∧
  ∀ k' doc', docs db !! k' = Some (table, doc') →
             field_is_string doc' field wanted = true → k' = k.
Proof.
  split.
  - intros Hsel.
    assert ((k, (table, doc)) ∈ selected table field wanted db) as Hin
      by (rewrite Hsel; apply list_elem_of_here).
    apply elem_of_selected in Hin as (Hdoc & _ & Hfield).
    split; [exact Hdoc|]. split; [exact Hfield|].
    intros k' doc' Hdoc' Hfield'.
    assert ((k', (table, doc')) ∈ selected table field wanted db) as Hin'
      by (apply elem_of_selected; auto).
    rewrite Hsel in Hin'. apply list_elem_of_singleton in Hin'. congruence.
  - intros (Hdoc & Hfield & Honly).
    assert (∀ e, e ∈ selected table field wanted db → e = (k, (table, doc))) as Hall.
    { intros [k' [t doc']] Hin. apply elem_of_selected in Hin as (Hdoc' & -> & Hfield').
      pose proof (Honly k' doc' Hdoc' Hfield') as ->. congruence. }
    assert ((k, (table, doc)) ∈ selected table field wanted db) as Hin
      by (apply elem_of_selected; auto).
    pose proof (selected_NoDup table field wanted db) as Hnodup.
    destruct (selected table field wanted db) as [|e [|e' l]].
    + by apply elem_of_nil in Hin.
    + f_equal. apply Hall, list_elem_of_here.
    + exfalso. apply NoDup_cons in Hnodup as [Hnotin _]. apply Hnotin.
      rewrite (Hall e) by apply list_elem_of_here.
      rewrite <- (Hall e') at 1; [apply list_elem_of_here|].
      apply list_elem_of_further, list_elem_of_here.
Qed.

(** *** Stored documents, field by field *)

Lemma stored_id (fields : gmap string value) (creationTime : Z) (id : N) :
  stored fields creationTime id !! "_id" = Some (VId id).
Proof. unfold stored. apply lookup_insert_eq. Qed.

Lemma stored_field (fields : gmap string value) (creationTime : Z) (id : N) (key : string) :
  key ≠ "_id" → key ≠ "_creationTime" →
  stored fields creationTime id !! key = fields !! key.
Proof.
  intros Hid Hcreation. unfold stored.
  rewrite !lookup_insert_ne by congruence. reflexivity.
Qed.

Lemma newSessionFields_token (userId : option value) (token : string) (now : Z) :
  newSessionFields userId token now !! "token" = Some (VString token).
Proof. destruct userId; reflexivity. Qed.

Lemma newSessionFields_expiresAt (userId : option value) (token : string) (now : Z) :
  newSessionFields userId token now !! "expiresAt" = Some (VNumber (now + thirtyDays)).
Proof. destruct userId; reflexivity. Qed.

Lemma newSessionFields_userId (userId : option value) (token : string) (now : Z) :
  newSessionFields userId token now !! "userId" = userId.
Proof. destruct userId; reflexivity. Qed.

Lemma newUserFields_email (email password : string) (name : option string)
    (createdAt updatedAt : Z) :
  newUserFields email password name createdAt updatedAt !! "email" = Some (VString email).
Proof. destruct name; reflexivity. Qed.

Lemma newUserFields_passwordHash (email password : string) (name : option string)
    (createdAt updatedAt : Z) :
  newUserFields email password name createdAt updatedAt !! "passwordHash"
  = Some (VString password).
Proof. destruct name; reflexivity. Qed.

Lemma field_is_string_spec (doc : gmap string value) (field wanted : string) :
  field_is_string doc field wanted = true ↔ doc !! field = Some (VString wanted).
Proof.
  unfold field_is_string. destruct (doc !! field) as [[s|n|b|id|fields]|];
    try (split; [discriminate | intros [=]]).
  rewrite bool_decide_eq_true. split; [intros ->; reflexivity | intros [=]; done].
Qed.

(** The session that [signup] and [login] store is found by its token,
    names its user and expires thirty days after it was opened. *)
Lemma stored_session (userId : option value) (token : string) (now creationTime : Z) (id : N) :
  let session := stored (newSessionFields userId token now) creationTime id in
  field_is_string session "token" token = true ∧
  session !! "userId" = userId ∧
  ∀ at_ : Z, expiredAt session at_ = bool_decide (now + thirtyDays < at_)%Z.
Proof.
  cbn zeta. split; [|split].
  - apply field_is_string_spec. rewrite stored_field by done.
    apply newSessionFields_token.
  - rewrite stored_field by done. apply newSessionFields_userId.
  - intros at_. unfold expiredAt. rewrite stored_field by done.
    rewrite newSessionFields_expiresAt. reflexivity.
Qed.

(** *** Refusals *)

(** X15. Only a successful [signup] or [login] writes: when either ends in a
    refusal or in an error, the run is exactly as before (no document
    written, no clock or random value read). [signup] refuses with
    ["User already exists"] only, and [login] with
    ["Invalid email or password"] only, whether the email is unknown or
    the password wrong. *)
Theorem refused_signup_and_login_write_nothing (email password : string)
    (name : option string) r :
  (∀ o r', signup email password name r = (o, r') →
           (∀ token u, o ≠ Returned (AuthSuccess token u)) → r' = r) ∧
  (∀ o r', login email password r = (o, r') →
           (∀ token u, o ≠ Returned (AuthSuccess token u)) → r' = r) ∧
  (∀ e r', signup email password name r = (Returned (AuthFailure e), r') →
           e = "User already exists") ∧
  (∀ e r', login email password r = (Returned (AuthFailure e), r') →
           e = "Invalid email or password").
Proof.
  rewrite run_signup, run_login.
  destruct (selected "users" "email" email (state r)) as [|entry [|entry' l]].
  - split; [|split; [|split]]; cbn zeta.
    + intros o r' [= <- <-] Hno. destruct (Hno _ _ eq_refl).
    + intros o r' [= <- <-] _. reflexivity.
    + intros e r' [=].
    + intros e r' [= <-]. reflexivity.
  - split; [|split; [|split]].
    + intros o r' [= <- <-] _. reflexivity.
    + destruct (passwordDiffers entry.2.2 password); cbn zeta.
      * intros o r' [= <- <-] _. reflexivity.
      * intros o r' [= <- <-] Hno. destruct (Hno _ _ eq_refl).
    + intros e r' [= <-]. reflexivity.
    + destruct (passwordDiffers entry.2.2 password); cbn zeta; intros e r' [=]; done.
  - split; [|split; [|split]].
    + intros o r' [= <- <-] _. reflexivity.
    + intros o r' [= <- <-] _. reflexivity.
    + intros e r' [=].
    + intros e r' [=].
Qed.

(** X16. [validateSession] only reads: whatever it answers, and when it
    throws, the database is as before; in particular an expired session
    is refused but not deleted. *)
Theorem validateSession_reads_only (token : string) r :
  state (validateSession token r).2 = state r.
Proof.
  rewrite run_validateSession.
  destruct (selected "sessions" "token" token (state r)) as [|entry [|entry' l]];
    [reflexivity| |reflexivity].
  cbn zeta. destruct (expiredAt entry.2.2 _); [reflexivity|].
  destruct (entry.2.2 !! "userId") as [[s|n|b|userId|fields]|]; reflexivity.
Qed.

(** *** Sessions *)

(** X17. The token that a successful [signup] returns opens a session: as long
    as no older session carries the same token, [validateSession] on the
    resulting database returns the very user object that [signup]
    returned, up to and including the thirtieth day after the signup, and
    null afterwards. *)
Theorem signup_opens_session (email password : string) (name : option string) r
    (token : string) (u : gmap string value) r1 :
  signup email password name r = (Returned (AuthSuccess token u), r1) →
  (∀ k doc, docs (state r) !! k = Some ("sessions", doc) →
            field_is_string doc "token" token = false) →
  ∀ r2, state r2 = state r1 →
    validateSession token r2 =
    (Returned (if bool_decide (Date_now (4 + ticks r) + thirtyDays < Date_now (ticks r2))%Z
               then None else Some u),
     mkRun (S (ticks r2)) (state r2)).
Proof.
  rewrite run_signup.
  destruct (selected "users" "email" email (state r)) as [|entry [|entry' l]];
    [|discriminate..].
  cbv zeta. intros [= <- <- <-] Hfresh r2 Hstate. cbn [Nat.add] in *.
  set (n := nextId (state r)) in *.
  set (token := Math_random_digits _) in *.
  set (user := stored _ _ n) in *.
  pose (session := stored (newSessionFields (Some (VId n)) token
                             (Date_now (S (S (S (S (ticks r)))))))
                     (Date_now (S (S (S (S (S (ticks r))))))) (N.succ n)).
  destruct (stored_session (Some (VId n)) token (Date_now (S (S (S (S (ticks r))))))
              (Date_now (S (S (S (S (S (ticks r))))))) (N.succ n))
    as (Htoken & HuserId & Hexpired).
  change (stored _ _ (N.succ n)) with session in Htoken, HuserId, Hexpired, Hstate.
  assert (selected "sessions" "token" token (state r2) = [(N.succ n, ("sessions", session))])
    as Hone.
  { rewrite Hstate. apply selected_one. cbn [docs state].
    split; [apply lookup_insert_eq|]. split; [exact Htoken|].
    intros k' doc' Hdoc' Hfield'.
    destruct (decide (k' = N.succ n)) as [->|Hne]; [reflexivity|].
    rewrite lookup_insert_ne in Hdoc' by congruence.
    destruct (decide (k' = n)) as [->|Hne'].
    - rewrite lookup_insert_eq in Hdoc'. discriminate Hdoc'.
    - rewrite lookup_insert_ne in Hdoc' by congruence.
      rewrite (Hfresh k' doc' Hdoc') in Hfield'. discriminate Hfield'. }
  rewrite run_validateSession, Hone. cbn [fst snd]. cbv zeta.
  rewrite Hexpired, HuserId, Hstate. cbn [docs state].
  case_bool_decide; [reflexivity|].
  rewrite lookup_insert_ne by apply N.neq_succ_diag_l.
  rewrite lookup_insert_eq. reflexivity.
Qed.

(** X18. On a consistent database the token that a successful [login] returns
    opens a session in the same way: [validateSession] returns the user
    object that [login] returned until the thirtieth day is over. *)
Theorem login_opens_session (email password : string) r
    (token : string) (u : gmap string value) r1 :
  login email password r = (Returned (AuthSuccess token u), r1) →
  consistent (state r) →
  (∀ k doc, docs (state r) !! k = Some ("sessions", doc) →
            field_is_string doc "token" token = false) →
  ∀ r2, state r2 = state r1 →
    validateSession token r2 =
    (Returned (if bool_decide (Date_now (1 + ticks r) + thirtyDays < Date_now (ticks r2))%Z
               then None else Some u),
     mkRun (S (ticks r2)) (state r2)).
Proof.
  rewrite run_login.
  destruct (selected "users" "email" email (state r)) as [|[k [t user]] [|entry' l]] eqn:Hsel;
    [discriminate| |discriminate].
  cbn [fst snd]. destruct (passwordDiffers user password); [discriminate|].
  cbv zeta. intros [= <- <- <-] Hconsistent Hfresh r2 Hstate.
  assert ((k, (t, user)) ∈ selected "users" "email" email (state r)) as Hin
    by (rewrite Hsel; apply list_elem_of_here).
  apply elem_of_selected in Hin as (Huser & -> & _).
  destruct (Hconsistent k _ _ Huser) as (Hbelow & Hid). cbn [Nat.add] in *.
  set (n := nextId (state r)) in *.
  set (token := Math_random_digits (ticks r)) in *.
  pose (session := stored (newSessionFields (user !! "_id") token (Date_now (S (ticks r))))
                     (Date_now (S (S (ticks r)))) n).
  destruct (stored_session (user !! "_id") token (Date_now (S (ticks r)))
              (Date_now (S (S (ticks r)))) n)
    as (Htoken & HuserId & Hexpired).
  change (stored _ _ n) with session in Htoken, HuserId, Hexpired, Hstate.
  assert (selected "sessions" "token" token (state r2) = [(n, ("sessions", session))])
    as Hone.
  { rewrite Hstate. apply selected_one. cbn [docs state].
    split; [apply lookup_insert_eq|]. split; [exact Htoken|].
    intros k' doc' Hdoc' Hfield'.
    destruct (decide (k' = n)) as [->|Hne]; [reflexivity|].
    rewrite lookup_insert_ne in Hdoc' by congruence.
    rewrite (Hfresh k' doc' Hdoc') in Hfield'. discriminate Hfield'. }
  rewrite run_validateSession, Hone. cbn [fst snd]. cbv zeta.
  rewrite Hexpired, HuserId, Hid, Hstate. cbn [docs state].
  case_bool_decide; [reflexivity|].
  rewrite lookup_insert_ne by lia. rewrite Huser. reflexivity.
Qed.

(** X19. After a successful [signup] the account exists: [login] with the same
    email and password succeeds and returns the same user object, [login]
    with any other password is refused, and a second [signup] with the
    same email is refused, each without a write. *)
Theorem signup_then_login (email password : string) (name : option string) r
    (token : string) (u : gmap string value) r1 :
  signup email password name r = (Returned (AuthSuccess token u), r1) →
  ∀ r2, state r2 = state r1 →
    (∃ token' r3, login email password r2 = (Returned (AuthSuccess token' u), r3)) ∧
    (∀ other, other ≠ password →
       login email other r2 = (Returned (AuthFailure "Invalid email or password"), r2)) ∧
    (∀ password' name',
       signup email password' name' r2 = (Returned (AuthFailure "User already exists"), r2)).
Proof.
  rewrite run_signup.
  destruct (selected "users" "email" email (state r)) as [|entry [|entry' l]] eqn:Hsel;
    [|discriminate..].
  cbv zeta. intros [= <- <- <-] r2 Hstate.
  pose proof (proj1 (selected_none _ _ _ _) Hsel) as Hnone. cbn [Nat.add] in *.
  set (n := nextId (state r)) in *.
  set (user := stored (newUserFields email password name (Date_now (ticks r))
                         (Date_now (S (ticks r)))) (Date_now (S (S (ticks r)))) n) in *.
  assert (selected "users" "email" email (state r2) = [(n, ("users", user))]) as Hone.
  { rewrite Hstate. apply selected_one. cbn [docs state].
    split; [|split].
    - rewrite lookup_insert_ne by apply N.neq_succ_diag_l. apply lookup_insert_eq.
    - apply field_is_string_spec. unfold user. rewrite stored_field by done.
      apply newUserFields_email.
    - intros k' doc' Hdoc' Hfield'.
      destruct (decide (k' = N.succ n)) as [->|Hne].
      + rewrite lookup_insert_eq in Hdoc'. discriminate Hdoc'.
      + rewrite lookup_insert_ne in Hdoc' by congruence.
        destruct (decide (k' = n)) as [->|Hne']; [reflexivity|].
        rewrite lookup_insert_ne in Hdoc' by congruence.
        rewrite (Hnone k' doc' Hdoc') in Hfield'. discriminate Hfield'. }
  assert (∀ p, passwordDiffers user p = negb (bool_decide (password = p))) as Hpassword.
  { intros p. unfold passwordDiffers, field_is_string, user.
    rewrite stored_field by done. rewrite newUserFields_passwordHash. reflexivity. }
  split; [|split].
  - rewrite run_login, Hone. cbn [fst snd]. rewrite Hpassword.
    rewrite bool_decide_true by reflexivity. cbn [negb]. cbv zeta. eauto.
  - intros other Hother. rewrite run_login, Hone. cbn [fst snd]. rewrite Hpassword.
    rewrite bool_decide_false by congruence. reflexivity.
  - intros password' name'. rewrite run_signup, Hone. reflexivity.
Qed.

(** *** Logout *)

(** X20. [logout] with a token that no session carries changes nothing. On a
    consistent database, [logout] with the token of a session deletes
    that session and nothing else; afterwards [validateSession] with the
    token answers null without a write, and a second [logout] changes
    nothing. *)
Theorem logout_closes_session (token : string) r :
  ((∀ k doc, docs (state r) !! k = Some ("sessions", doc) →
             field_is_string doc "token" token = false) →
     logout token r = (Returned tt, r)) ∧
  (∀ k session,
     consistent (state r) →
     docs (state r) !! k = Some ("sessions", session) →
     field_is_string session "token" token = true →
     (∀ k' doc', docs (state r) !! k' = Some ("sessions", doc') →
                 field_is_string doc' "token" token = true → k' = k) →
     ∃ r',
       logout token r = (Returned tt, r') ∧
       docs (state r') = delete k (docs (state r)) ∧
       nextId (state r') = nextId (state r) ∧
       logout token r' = (Returned tt, r') ∧
       ∀ r2, state r2 = state r' → validateSession token r2 = (Returned None, r2)).
Proof.
  split.
  - intros Hnone. rewrite run_logout.
    rewrite (proj2 (selected_none "sessions" "token" token (state r)) Hnone). reflexivity.
  - intros k session Hconsistent Hsession Htoken Honly.
    destruct (Hconsistent k _ _ Hsession) as (_ & Hid).
    assert (∀ db, docs db = delete k (docs (state r)) →
                  selected "sessions" "token" token db = []) as Hgone.
    { intros db Hdocs. apply selected_none. intros k' doc' Hdoc'. rewrite Hdocs in Hdoc'.
      destruct (decide (k' = k)) as [->|Hne].
      - rewrite lookup_delete_eq in Hdoc'. discriminate Hdoc'.
      - rewrite lookup_delete_ne in Hdoc' by congruence.
        destruct (field_is_string doc' "token" token) eqn:Hfield; [|reflexivity].
        destruct (Hne (Honly k' doc' Hdoc' Hfield)). }
    rewrite run_logout.
    rewrite (proj2 (selected_one "sessions" "token" token (state r) k session)) by auto.
    cbn [fst snd]. rewrite Hid, Hsession.
    eexists. split; [reflexivity|]. cbn [state docs nextId].
    split; [reflexivity|]. split; [reflexivity|]. split.
    + rewrite run_logout, Hgone by reflexivity. reflexivity.
    + intros r2 Hstate. rewrite run_validateSession, Hgone; [reflexivity|].
      rewrite Hstate. reflexivity.
Qed.

(** *** Profile and password *)

Lemma run_updateProfile (token : string) (name : option string) r :
  updateProfile token name r =
  match selected "sessions" "token" token (state r) with
  | [] => (Returned (Refused "Invalid session"), r)
  | [entry] =>
      if expiredAt entry.2.2 (Date_now (ticks r))
      then (Returned (Refused "Invalid session"), mkRun (S (ticks r)) (state r))
      else
        match entry.2.2 !! "userId" with
        | Some (VId userId) =>
            match docs (state r) !! userId with
            | Some (table, user) =>
                let user' := foldl patch_field user
                               [("name", VString <$> name);
                                ("updatedAt", Some (VNumber (Date_now (S (ticks r)))))] in
                (Returned (Accepted (safeUserOf user')),
                 mkRun (S (S (ticks r)))
                   (mkDb (<[userId := (table, user')]> (docs (state r))) (nextId (state r))))
            | None => (Threw "Update on nonexistent document",
                       mkRun (S (S (ticks r))) (state r))
            end
        | _ => (Threw "Invalid argument `id` for `db.patch`", mkRun (S (ticks r)) (state r))
        end
  | _ => (Threw "unique() query returned more than one result", r)
  end.
Proof.
  unfold updateProfile. rewrite run_mutation, run_bind, run_query_selected.
  destruct (selected _ _ _ _) as [|entry [|entry' l]];
    [reflexivity| |cbn; rewrite run_eta; reflexivity].
  rewrite run_bind, run_dateNow. destruct (expiredAt entry.2.2 _); [reflexivity|].
  destruct (entry.2.2 !! "userId") as [[s|n|b|userId|fields]|]; try reflexivity.
  rewrite run_bind, run_dateNow, run_bind, run_db_patch. cbn [state ticks].
  destruct (docs (state r) !! userId) as [[table user]|]; [|reflexivity].
  autorewrite with run. cbn [fst snd state ticks docs].
  rewrite lookup_insert_eq. reflexivity.
Qed.

(** X21. [updateProfile] answers with a user object that has no
    [passwordHash] and whose [name] is the one given, or no [name] at
    all when none is given; its other fields are the stored user's. In
    the database only that user's [name] and [updatedAt] change, so the
    stored [passwordHash] stays. When [updateProfile] does not accept,
    the database is as before, and it refuses with ["Invalid session"]
    only. *)
Theorem updateProfile_changes_name_only (token : string) (name : option string) r :
  (∀ u r1,
     updateProfile token name r = (Returned (Accepted u), r1) →
     u !! "passwordHash" = None ∧
     u !! "name" = VString <$> name ∧
     ∃ userId table user user',
       docs (state r) !! userId = Some (table, user) ∧
       docs (state r1) = <[userId := (table, user')]> (docs (state r)) ∧
       nextId (state r1) = nextId (state r) ∧
       u = safeUserOf user' ∧
       user' !! "passwordHash" = user !! "passwordHash" ∧
       ∀ key, key ≠ "name" → key ≠ "updatedAt" → user' !! key = user !! key) ∧
  (∀ o r1,
     updateProfile token name r = (o, r1) →
     (∀ u, o ≠ Returned (Accepted u)) → state r1 = state r) ∧
  (∀ e r1,
     updateProfile token name r = (Returned (Refused e), r1) → e = "Invalid session").
Proof.
  rewrite run_updateProfile.
  destruct (selected "sessions" "token" token (state r)) as [|entry [|entry' l]].
  - split; [|split].
    + intros u r1 [=].
    + intros o r1 [= <- <-] _. reflexivity.
    + intros e r1 [= <-]. reflexivity.
  - destruct (expiredAt entry.2.2 _).
    { split; [|split].
      - intros u r1 [=].
      - intros o r1 [= <- <-] _. reflexivity.
      - intros e r1 [= <-]. reflexivity. }
    destruct (entry.2.2 !! "userId") as [[s|n|b|userId|fields]|];
      try (split; [|split];
           [intros u r1 [=] | intros o r1 [= <- <-] _; reflexivity | intros e r1 [=]]).
    destruct (docs (state r) !! userId) as [[table user]|] eqn:Huser;
      [|split; [|split];
        [intros u r1 [=] | intros o r1 [= <- <-] _; reflexivity | intros e r1 [=]]].
    cbv zeta. split; [|split].
    + intros u r1 [= <- <-]. cbn [state docs nextId].
      split; [apply safeUserOf_passwordHash|]. split.
      * rewrite safeUserOf_other_field by done. cbn.
        rewrite lookup_insert_ne by done.
        destruct name; cbn; [apply lookup_insert_eq | apply lookup_delete_eq].
      * eexists userId, table, user, _. split; [exact Huser|]. split; [reflexivity|].
        split; [reflexivity|]. split; [reflexivity|]. split.
        -- cbn. rewrite lookup_insert_ne by done.
           destruct name; cbn; [apply lookup_insert_ne | apply lookup_delete_ne]; done.
        -- intros key Hname Hupdated. cbn. rewrite lookup_insert_ne by congruence.
           destruct name; cbn; [apply lookup_insert_ne | apply lookup_delete_ne]; congruence.
    + intros o r1 [= <- <-] Hno. destruct (Hno _ eq_refl).
    + intros e r1 [=].
  - split; [|split].
    + intros u r1 [=].
    + intros o r1 [= <- <-] _. reflexivity.
    + intros e r1 [=].
Qed.

Lemma run_changePassword (token currentPassword newPassword : string) r :
  changePassword token currentPassword newPassword r =
  match selected "sessions" "token" token (state r) with
  | [] => (Returned (Refused "Invalid session"), r)
  | [entry] =>
      let r' := mkRun (S (ticks r)) (state r) in
      if expiredAt entry.2.2 (Date_now (ticks r))
      then (Returned (Refused "Invalid session"), r')
      else
        match entry.2.2 !! "userId" with
        | Some (VId userId) =>
            match docs (state r) !! userId with
            | None => (Returned (Refused "Invalid current password"), r')
            | Some (_, user) =>
                if passwordDiffers user currentPassword
                then (Returned (Refused "Invalid current password"), r')
                else
                  match user !! "_id" with
                  | Some (VId id) =>
                      match docs (state r) !! id with
                      | Some (table, doc) =>
                          (Returned (Accepted tt),
                           mkRun (S (S (ticks r)))
                             (mkDb (<[id := (table,
                                       foldl patch_field doc
                                         [("passwordHash", Some (VString newPassword));
                                          ("updatedAt",
                                           Some (VNumber (Date_now (S (ticks r)))))])]>
                                      (docs (state r)))
                                   (nextId (state r))))
                      | None => (Threw "Update on nonexistent document",
                                 mkRun (S (S (ticks r))) (state r))
                      end
                  | _ => (Threw "Invalid argument `id` for `db.patch`", r')
                  end
            end
        | _ => (Threw "Invalid argument `id` for `db.get`", r')
        end
  | _ => (Threw "unique() query returned more than one result", r)
  end.
Proof.
  unfold changePassword. rewrite run_mutation, run_bind, run_query_selected.
  destruct (selected _ _ _ _) as [|entry [|entry' l]];
    [reflexivity| |cbn; rewrite run_eta; reflexivity].
  rewrite run_bind, run_dateNow. cbv zeta. destruct (expiredAt entry.2.2 _); [reflexivity|].
  destruct (entry.2.2 !! "userId") as [[s|n|b|userId|fields]|]; try reflexivity.
  rewrite run_bind, run_db_get. cbn [state ticks].
  destruct (docs (state r) !! userId) as [[table user]|]; [|reflexivity].
  cbn [fmap option_fmap option_map snd].
  destruct (passwordDiffers user currentPassword); [reflexivity|].
  destruct (user !! "_id") as [[s|n|b|id|fields]|]; try reflexivity.
  rewrite run_bind, run_dateNow, run_bind, run_db_patch. cbn [state ticks].
  destruct (docs (state r) !! id) as [[table' doc]|]; reflexivity.
Qed.

(** X22. On a consistent database [changePassword] accepts whenever the
    token is that of one session, not expired, whose user's stored
    password is the current password given. An accepted
    [changePassword] rewrites one document, the user that the session of
    the token names: its [passwordHash] becomes the new password, the
    current password was the stored one, and every field but
    [passwordHash] and [updatedAt] stays. If that user is the only one
    with its email, [login] then succeeds with the new password and is
    refused with the old one, unless the two are equal. When
    [changePassword] does not accept, the database is as before, and it
    refuses with ["Invalid session"] or ["Invalid current password"]
    only. *)
Theorem changePassword_replaces_password (token currentPassword newPassword : string) r :
  (∀ sessionId session userId table user,
     consistent (state r) →
     docs (state r) !! sessionId = Some ("sessions", session) →
     field_is_string session "token" token = true →
     (∀ k' doc', docs (state r) !! k' = Some ("sessions", doc') →
                 field_is_string doc' "token" token = true → k' = sessionId) →
     expiredAt session (Date_now (ticks r)) = false →
     session !! "userId" = Some (VId userId) →
     docs (state r) !! userId = Some (table, user) →
     passwordDiffers user currentPassword = false →
     ∃ r1, changePassword token currentPassword newPassword r = (Returned (Accepted tt), r1)) ∧
  (∀ r1,
     changePassword token currentPassword newPassword r = (Returned (Accepted tt), r1) →
     consistent (state r) →
     ∃ sessionId session userId table user user',
       docs (state r) !! sessionId = Some ("sessions", session) ∧
       field_is_string session "token" token = true ∧
       (∀ k' doc', docs (state r) !! k' = Some ("sessions", doc') →
                   field_is_string doc' "token" token = true → k' = sessionId) ∧
       expiredAt session (Date_now (ticks r)) = false ∧
       session !! "userId" = Some (VId userId) ∧
       docs (state r) !! userId = Some (table, user) ∧
       docs (state r1) = <[userId := (table, user')]> (docs (state r)) ∧
       nextId (state r1) = nextId (state r) ∧
       passwordDiffers user currentPassword = false ∧
       (∀ p, passwordDiffers user' p = negb (bool_decide (newPassword = p))) ∧
       (∀ key, key ≠ "passwordHash" → key ≠ "updatedAt" → user' !! key = user !! key) ∧
       ∀ email,
         table = "users" →
         field_is_string user "email" email = true →
         (∀ k' doc', docs (state r) !! k' = Some ("users", doc') →
                     field_is_string doc' "email" email = true → k' = userId) →
         ∀ r2, state r2 = state r1 →
           (∃ token' u r3,
              login email newPassword r2 = (Returned (AuthSuccess token' u), r3)) ∧
           (currentPassword ≠ newPassword →
              login email currentPassword r2
              = (Returned (AuthFailure "Invalid email or password"), r2))) ∧
  (∀ o r1,
     changePassword token currentPassword newPassword r = (o, r1) →
     o ≠ Returned (Accepted tt) → state r1 = state r) ∧
  (∀ e r1,
     changePassword token currentPassword newPassword r = (Returned (Refused e), r1) →
     e = "Invalid session" ∨ e = "Invalid current password").
Proof.
  split.
  { intros sessionId session userId table user Hconsistent Hsession Htoken Honly
      Hlive HuserId Huser Hcurrent.
    rewrite run_changePassword.
    rewrite (proj2 (selected_one "sessions" "token" token (state r) sessionId session))
      by auto.
    cbv zeta. cbn [fst snd]. rewrite Hlive, HuserId, Huser, Hcurrent.
    destruct (Hconsistent userId _ _ Huser) as (_ & Hid). rewrite Hid, Huser.
    eexists. reflexivity. }
  rewrite run_changePassword.
  destruct (selected "sessions" "token" token (state r)) as [|entry [|entry' l]] eqn:Hsel;
    [split; [|split];
       [intros r1 [=] | intros o r1 [= <- <-] _; reflexivity | intros e r1 [= <-]; auto]
    | |split; [|split];
       [intros r1 [=] | intros o r1 [= <- <-] _; reflexivity | intros e r1 [=]]].
  destruct entry as [sessionId [sessions session]]. cbn [fst snd].
  assert ((sessionId, (sessions, session)) ∈ selected "sessions" "token" token (state r))
    as Hin by (rewrite Hsel; apply list_elem_of_here).
  apply elem_of_selected in Hin as (Hsession & -> & Htoken).
  destruct (proj1 (selected_one _ _ _ _ _ _) Hsel) as (_ & _ & Honly).
  cbv zeta. destruct (expiredAt session _) eqn:Hlive;
    [split; [|split];
       [intros r1 [=] | intros o r1 [= <- <-] _; reflexivity | intros e r1 [= <-]; auto]|].
  destruct (session !! "userId") as [[s|n|b|userId|fields]|] eqn:HuserId;
    try (split; [|split];
         [intros r1 [=] | intros o r1 [= <- <-] _; reflexivity | intros e r1 [=]]).
  destruct (docs (state r) !! userId) as [[table user]|] eqn:Huser;
    [|split; [|split];
       [intros r1 [=] | intros o r1 [= <- <-] _; reflexivity | intros e r1 [= <-]; auto]].
  destruct (passwordDiffers user currentPassword) eqn:Hcurrent;
    [split; [|split];
       [intros r1 [=] | intros o r1 [= <- <-] _; reflexivity | intros e r1 [= <-]; auto]|].
  destruct (user !! "_id") as [[s|n|b|id|fields]|] eqn:Hid;
    try (split; [|split];
         [intros r1 [=] | intros o r1 [= <- <-] _; reflexivity | intros e r1 [=]]).
  destruct (docs (state r) !! id) as [[table' doc]|] eqn:Hdoc;
    [|split; [|split];
       [intros r1 [=] | intros o r1 [= <- <-] _; reflexivity | intros e r1 [=]]].
  split; [|split];
    [|intros o r1 [= <- <-] Hno; destruct (Hno eq_refl) | intros e r1 [=]].
  intros r1 [= <-] Hconsistent. cbn [state docs nextId].
  destruct (Hconsistent userId _ _ Huser) as (_ & Hown).
  rewrite Hid in Hown. injection Hown as Hsame. subst id. rewrite Huser in Hdoc.
  injection Hdoc as Htable Hdocs. subst table' doc.
  set (user' := patch_field (patch_field user _) _).
  assert (user' !! "passwordHash" = Some (VString newPassword)) as Hnew.
  { unfold user'. cbn. rewrite lookup_insert_ne by done. apply lookup_insert_eq. }
  assert (∀ key, key ≠ "passwordHash" → key ≠ "updatedAt" → user' !! key = user !! key)
    as Hother.
  { intros key Hpassword Hupdated. unfold user'. cbn.
    rewrite !lookup_insert_ne by congruence. reflexivity. }
  assert (∀ p, passwordDiffers user' p = negb (bool_decide (newPassword = p))) as Hdiffers.
  { intros p. unfold passwordDiffers, field_is_string. rewrite Hnew. reflexivity. }
  exists sessionId, session, userId, table, user, user'.
  split; [exact Hsession|]. split; [exact Htoken|]. split; [exact Honly|].
  split; [exact Hlive|]. split; [exact HuserId|].
  split; [exact Huser|]. split; [reflexivity|]. split; [reflexivity|].
  split; [exact Hcurrent|]. split; [exact Hdiffers|]. split; [exact Hother|].
  intros email -> Hemail Honly_email r2 Hstate.
  assert (selected "users" "email" email (state r2) = [(userId, ("users", user'))]) as Hone.
  { rewrite Hstate. apply selected_one. cbn [docs state].
    split; [apply lookup_insert_eq|]. split.
    - apply field_is_string_spec. rewrite Hother by done.
      apply field_is_string_spec, Hemail.
    - intros k' doc' Hdoc' Hfield'.
      destruct (decide (k' = userId)) as [->|Hne]; [reflexivity|].
      rewrite lookup_insert_ne in Hdoc' by congruence.
      exact (Honly_email k' doc' Hdoc' Hfield'). }
  split.
  - rewrite run_login, Hone. cbn [fst snd]. rewrite Hdiffers.
    rewrite bool_decide_true by reflexivity. cbn [negb]. cbv zeta. eauto.
  - intros Hchanged. rewrite run_login, Hone. cbn [fst snd]. rewrite Hdiffers.
    rewrite bool_decide_false by congruence. reflexivity.
Qed.

(** *** Consistency *)

Lemma consistent_insert (db : Db) (table : string) (fields : gmap string value)
    (creationTime : Z) :
  consistent db →
  consistent (mkDb (<[nextId db := (table, stored fields creationTime (nextId db))]> (docs db))
                   (N.succ (nextId db))).
Proof.
  intros Hdb k t doc. cbn [docs nextId].
  destruct (decide (k = nextId db)) as [->|Hne].
  - rewrite lookup_insert_eq. intros [= <- <-]. split; [lia | apply stored_id].
  - rewrite lookup_insert_ne by congruence. intros Hdoc.
    destruct (Hdb k t doc Hdoc). split; [lia | assumption].
Qed.

Lemma consistent_delete (db : Db) (id : N) :
  consistent db → consistent (mkDb (delete id (docs db)) (nextId db)).
Proof.
  intros Hdb k t doc. cbn [docs nextId].
  destruct (decide (k = id)) as [->|Hne].
  - rewrite lookup_delete_eq. discriminate.
  - rewrite lookup_delete_ne by congruence. apply Hdb.
Qed.

Lemma consistent_replace (db : Db) (id : N) (table : string) (doc doc' : gmap string value) :
  consistent db →
  docs db !! id = Some (table, doc) →
  doc' !! "_id" = doc !! "_id" →
  consistent (mkDb (<[id := (table, doc')]> (docs db)) (nextId db)).
Proof.
  intros Hdb Hdoc Hid k t d. cbn [docs nextId].
  destruct (decide (k = id)) as [->|Hne].
  - rewrite lookup_insert_eq. intros [= <- <-].
    destruct (Hdb id table doc Hdoc). split; [assumption | congruence].
  - rewrite lookup_insert_ne by congruence. apply Hdb.
Qed.

Lemma consistentb_consistent (db : Db) : consistentb db = true → consistent db.
Proof.
  unfold consistentb. rewrite forallb_forall. intros Hall k table doc Hdoc.
  specialize (Hall (k, (table, doc))). cbn in Hall.
  assert (In (k, (table, doc)) (map_to_list (docs db))) as Hin
    by (apply list_elem_of_In, elem_of_map_to_list, Hdoc).
  apply Hall in Hin. apply andb_true_iff in Hin as [Hbelow Hid].
  apply N.ltb_lt in Hbelow. split; [exact Hbelow|].
  destruct (doc !! "_id") as [[s|n|b|id|fields]|]; try discriminate Hid.
  apply N.eqb_eq in Hid. congruence.
Qed.

(** X23. The empty database is consistent, and every handler of
    [convex/auth.ts] keeps a consistent database consistent, whatever it
    answers: ids stay below the next id and every document keeps its own
    id. *)
Theorem auth_keeps_database_consistent (email password token newPassword : string)
    (name : option string) r :
  consistent emptyDb ∧
  (consistent (state r) →
   consistent (state (signup email password name r).2) ∧
   consistent (state (login email password r).2) ∧
   consistent (state (validateSession token r).2) ∧
   consistent (state (logout token r).2) ∧
   consistent (state (updateProfile token name r).2) ∧
   consistent (state (changePassword token password newPassword r).2)).
Proof.
  split; [intros k t doc Hdoc; exact (False_ind _ (lookup_empty_Some k (t, doc) Hdoc))|].
  intros Hdb. split; [|split; [|split; [|split; [|split]]]].
  - rewrite run_signup.
    destruct (selected "users" "email" email (state r)) as [|entry [|entry' l]];
      [|exact Hdb..].
    cbv zeta. cbn [snd state].
    apply (consistent_insert (mkDb _ _) "sessions"), (consistent_insert _ "users"), Hdb.
  - rewrite run_login.
    destruct (selected "users" "email" email (state r)) as [|entry [|entry' l]];
      [exact Hdb| |exact Hdb].
    destruct (passwordDiffers entry.2.2 password); [exact Hdb|].
    cbv zeta. cbn [snd state]. apply (consistent_insert _ "sessions"), Hdb.
  - rewrite validateSession_reads_only. exact Hdb.
  - rewrite run_logout.
    destruct (selected "sessions" "token" token (state r)) as [|entry [|entry' l]];
      [exact Hdb| |exact Hdb].
    destruct (entry.2.2 !! "_id") as [[s|n|b|id|fields]|]; try exact Hdb.
    destruct (docs (state r) !! id); [|exact Hdb].
    cbn [snd state]. apply consistent_delete, Hdb.
  - rewrite run_updateProfile.
    destruct (selected "sessions" "token" token (state r)) as [|entry [|entry' l]];
      [exact Hdb| |exact Hdb].
    destruct (expiredAt entry.2.2 _); [exact Hdb|].
    destruct (entry.2.2 !! "userId") as [[s|n|b|userId|fields]|]; try exact Hdb.
    destruct (docs (state r) !! userId) as [[table user]|] eqn:Huser; [|exact Hdb].
    cbv zeta. cbn [snd state]. apply (consistent_replace _ _ _ user); [exact Hdb|exact Huser|].
    cbn. rewrite lookup_insert_ne by done.
    destruct name; cbn; [apply lookup_insert_ne | apply lookup_delete_ne]; done.
  - rewrite run_changePassword.
    destruct (selected "sessions" "token" token (state r)) as [|entry [|entry' l]];
      [exact Hdb| |exact Hdb].
    cbv zeta. destruct (expiredAt entry.2.2 _); [exact Hdb|].
    destruct (entry.2.2 !! "userId") as [[s|n|b|userId|fields]|]; try exact Hdb.
    destruct (docs (state r) !! userId) as [[table user]|]; [|exact Hdb].
    destruct (passwordDiffers user password); [exact Hdb|].
    destruct (user !! "_id") as [[s|n|b|id|fields]|]; try exact Hdb.
    destruct (docs (state r) !! id) as [[table' doc]|] eqn:Hdoc; [|exact Hdb].
    cbn [snd state]. apply (consistent_replace _ _ _ doc); [exact Hdb|exact Hdoc|].
    cbn. rewrite !lookup_insert_ne by done. reflexivity.
Qed.
End handlers.
End SessionFacts.

(* ================================================================== *)
(** * Properties of the authentication hook *)
(* ================================================================== *)

Module UseAuthFacts.
Import Convex UseAuth.

Section provider.
Context {api : AuthApi}.
Implicit Types r : Run AuthWorld.

(** Unfolds the hook's state and storage primitives and runs them. *)
Ltac run_hook :=
  unfold setState, setItem, removeItem, getItem, currentState;
  repeat (autorewrite with run; cbn [fst snd state ticks authState browserStorage]).

Lemma run_authenticate (reply : outcome AuthResult) (fallback : string) r :
  authenticate reply fallback r =
  let before := authState (state r) in
  let storage := browserStorage (state r) in
  match reply with
  | Returned result =>
      if accepted result
      then (Returned result,
            mkRun (ticks r)
              (mkAuthWorld (mkAuthState (result_user result) (result_token result) false None)
                 (<[TOKEN_STORAGE_KEY := default "" (result_token result)]> storage)))
      else (Returned result,
            mkRun (ticks r)
              (mkAuthWorld (mkAuthState (user before) (token before) false
                              (Some (or_else (result_error result) fallback)))
                 storage))
  | Threw message =>
      (Returned (failed message),
       mkRun (ticks r)
         (mkAuthWorld (mkAuthState (user before) (token before) false (Some message)) storage))
  end.
Proof.
  unfold authenticate. run_hook. destruct reply as [result|message]; cbn [fst snd].
  - destruct (accepted result); run_hook; reflexivity.
  - run_hook. reflexivity.
Qed.

Lemma accepted_token (result : AuthResult) :
  accepted result = true →
  ∃ text, result_token result = Some text ∧ text ≠ "" ∧ is_Some (result_user result).
Proof.
  unfold accepted, truthy. destruct (success result); [|discriminate].
  destruct (result_token result) as [text|]; [|discriminate].
  cbn. case_bool_decide as Hempty; [discriminate|]. cbn.
  rewrite bool_decide_eq_true. eauto.
Qed.

(** X24. [login] and [signup] never throw and always end with [isLoading]
    cleared. When the server's answer is a success that carries a
    non-empty token and a user, the hook's user and token are the
    answer's, the error is cleared and the token is stored under the
    storage key. In every other case, a refusal, a success without a
    usable token, or a thrown error, the hook's user and token and the
    storage are as before and an error message is set; a thrown error
    is returned as a failed result with its message. *)
Theorem login_and_signup_settle (email password : string) (name : option string)
    (act : M AuthWorld AuthResult) (reply : outcome AuthResult) r :
  (act = login email password ∧ reply = loginMutation email password) ∨
  (act = signup email password name ∧ reply = signupMutation email password name) →
  ∃ result,
    (act r).1 = Returned result ∧
    isLoading (authState (state (act r).2)) = false ∧
    (reply = Returned result ∨ ∃ message, reply = Threw message ∧ result = failed message) ∧
    (accepted result = true →
       user (authState (state (act r).2)) = result_user result ∧
       token (authState (state (act r).2)) = result_token result ∧
       error (authState (state (act r).2)) = None ∧
       browserStorage (state (act r).2) !! TOKEN_STORAGE_KEY = result_token result) ∧
    (accepted result = false →
       user (authState (state (act r).2)) = user (authState (state r)) ∧
       token (authState (state (act r).2)) = token (authState (state r)) ∧
       is_Some (error (authState (state (act r).2))) ∧
       browserStorage (state (act r).2) = browserStorage (state r)).
Proof.
  intros Hact.
  assert (∃ fallback, act = authenticate reply fallback) as [fallback ->].
  { destruct Hact as [[-> ->]|[-> ->]]; eexists; reflexivity. }
  rewrite run_authenticate. cbv zeta. destruct reply as [result|message].
  - exists result. destruct (accepted result) eqn:Haccepted; cbn.
    + split; [reflexivity|]. split; [reflexivity|]. split; [auto|].
      split; [|discriminate]. intros _.
      destruct (accepted_token result Haccepted) as (text & Htoken & _).
      rewrite Htoken. cbn. rewrite lookup_insert_eq. auto.
    + split; [reflexivity|]. split; [reflexivity|]. split; [auto|].
      split; [discriminate|]. intros _. eauto.
  - exists (failed message). cbn.
    split; [reflexivity|]. split; [reflexivity|]. split; [eauto|].
    split; [discriminate|]. intros _. eauto.
Qed.

(** X25. [logout] is not guarded: when the hook holds a token and the remote
    logout throws, [logout] throws with state and storage as they were,
    so the local session stays. Otherwise (no token, or the remote logout
    completes) it clears user, token and error and removes the stored
    token. *)
Theorem logout_clears_unless_remote_throws r :
  (∀ message,
     truthy (token (authState (state r))) = true →
     logoutMutation (default "" (token (authState (state r)))) = Threw message →
     logout r = (Threw message, r)) ∧
  (truthy (token (authState (state r))) = false ∨
   logoutMutation (default "" (token (authState (state r)))) = Returned tt →
     logout r =
     (Returned tt,
      mkRun (ticks r)
        (mkAuthWorld (mkAuthState None None false None)
           (delete TOKEN_STORAGE_KEY (browserStorage (state r)))))).
Proof.
  unfold logout. run_hook. split.
  - intros message Htoken Hremote. rewrite Htoken. run_hook. rewrite Hremote. reflexivity.
  - intros [Htoken|Hremote].
    + rewrite Htoken. run_hook. reflexivity.
    + destruct (truthy _); run_hook; [rewrite Hremote|]; reflexivity.
Qed.

(** X26. [updateProfile] and [changePassword] never throw. Without a token
    they answer ["Not authenticated"] and change nothing.
    [changePassword] never changes the hook's state or the storage, and
    [updateProfile] changes at most the user, and only to the user of a
    successful answer. *)
Theorem profile_calls_never_throw (name : option string)
    (currentPassword newPassword : string) r :
  (truthy (token (authState (state r))) = false →
     updateProfile name r = (Returned (failed "Not authenticated"), r) ∧
     changePassword currentPassword newPassword r
       = (Returned (failed "Not authenticated"), r)) ∧
  (∃ result, changePassword currentPassword newPassword r = (Returned result, r)) ∧
  (∃ result,
     (updateProfile name r).1 = Returned result ∧
     token (authState (state (updateProfile name r).2)) = token (authState (state r)) ∧
     isLoading (authState (state (updateProfile name r).2)) = isLoading (authState (state r)) ∧
     error (authState (state (updateProfile name r).2)) = error (authState (state r)) ∧
     browserStorage (state (updateProfile name r).2) = browserStorage (state r) ∧
     (user (authState (state (updateProfile name r).2)) = user (authState (state r)) ∨
      success result = true ∧
      user (authState (state (updateProfile name r).2)) = result_user result)).
Proof.
  unfold updateProfile, changePassword. run_hook.
  destruct (truthy (token (authState (state r)))) eqn:Htoken; cbn [negb].
  - split; [discriminate|]. split.
    + run_hook. destruct (changePasswordMutation _ _ _) as [result|message]; eauto.
    + run_hook. destruct (updateProfileMutation _ _) as [result|message]; cbn [fst snd].
      * destruct (success result) eqn:Hsuccess; cbn [andb].
        -- case_bool_decide; run_hook; exists result; cbn; auto 10.
        -- run_hook. exists result. cbn. auto 10.
      * exists (failed message). cbn. auto 10.
  - split; [auto|]. split; [eauto|]. exists (failed "Not authenticated"). cbn. auto 10.
Qed.

(** X27. [initAuth] never throws and always ends with [isLoading] cleared.
    Without a stored token nothing else changes. With one: a user from
    the server becomes the hook's user, with the stored token as its
    token; a null answer removes the stored token; a thrown error leaves
    the stored token in place. *)
Theorem initAuth_settles r :
  (initAuth r).1 = Returned tt ∧
  isLoading (authState (state (initAuth r).2)) = false ∧
  (truthy (browserStorage (state r) !! TOKEN_STORAGE_KEY) = false →
     browserStorage (state (initAuth r).2) = browserStorage (state r) ∧
     user (authState (state (initAuth r).2)) = user (authState (state r)) ∧
     token (authState (state (initAuth r).2)) = token (authState (state r))) ∧
  (∀ stored,
     browserStorage (state r) !! TOKEN_STORAGE_KEY = Some stored → stored ≠ "" →
     (∀ u, validateSessionMutation stored = Returned (Some u) →
        user (authState (state (initAuth r).2)) = Some u ∧
        token (authState (state (initAuth r).2)) = Some stored ∧
        error (authState (state (initAuth r).2)) = None ∧
        browserStorage (state (initAuth r).2) = browserStorage (state r)) ∧
     (validateSessionMutation stored = Returned None →
        browserStorage (state (initAuth r).2)
          = delete TOKEN_STORAGE_KEY (browserStorage (state r)) ∧
        user (authState (state (initAuth r).2)) = user (authState (state r)) ∧
        token (authState (state (initAuth r).2)) = token (authState (state r))) ∧
     (∀ message, validateSessionMutation stored = Threw message →
        browserStorage (state (initAuth r).2) = browserStorage (state r) ∧
        user (authState (state (initAuth r).2)) = user (authState (state r)) ∧
        token (authState (state (initAuth r).2)) = token (authState (state r)))).
Proof.
  unfold initAuth. run_hook.
  destruct (browserStorage (state r) !! TOKEN_STORAGE_KEY) as [stored|] eqn:Hstored.
  - unfold truthy. case_bool_decide as Hempty; cbn [negb].
    + run_hook. cbn. split; [reflexivity|]. split; [reflexivity|]. split; [auto|].
      intros stored' [= <-] Hne. destruct (Hne Hempty).
    + run_hook. change (default "" (Some stored)) with stored.
      destruct (validateSessionMutation stored) as [[u|]|message] eqn:Hremote;
        run_hook; cbn; (split; [reflexivity|]); (split; [reflexivity|]);
        (split; [discriminate|]); intros stored' [= <-] _; rewrite Hremote.
      * split; [intros u' [= <-]; auto|]. split; [discriminate|]. discriminate.
      * split; [discriminate|]. split; [auto|]. discriminate.
      * split; [discriminate|]. split; [discriminate|]. auto.
  - cbn. run_hook. cbn. split; [reflexivity|]. split; [reflexivity|]. split; [auto|].
    intros stored [=].
Qed.

End provider.
End UseAuthFacts.

(* ================================================================== *)
(** * The properties at work on sample runs *)
(* ================================================================== *)

Module SampleFacts.
Import Samples.

(** A fresh session exports its empty tree, stamped with the first
    clock reading. *)
Lemma freshRun_export :
  exportTreeData (treeExport := sampleTreeExport) None freshRun
  = (Returned freshEnvelope, mkRun 1 (state freshRun)).
Proof. vm_compute. reflexivity. Qed.

(** With the remote store out of reach, [saveToCloud] on a fresh
    session returns the local identifier and stores the envelope's
    share code under it. *)
Lemma saveToCloud_falls_back_to_local_witness :
  (saveToCloud (treeExport := sampleTreeExport) (convex := offlineConvex) None freshRun).1
    = Returned "local-1700000000001-4fzyo82mv" ∧
  localStorage (state (saveToCloud (treeExport := sampleTreeExport)
                         (convex := offlineConvex) None freshRun).2)
    = {[ "christmas_tree_local-1700000000001-4fzyo82mv"
         := TreeExportModel.generateShareCode freshEnvelope ]}.
Proof.
  destruct (saveToCloud_falls_back_to_local (treeExport := sampleTreeExport)
              (convex := offlineConvex) None freshRun freshEnvelope
              (mkRun 1 (state freshRun)) "Network error" freshRun_export eq_refl)
    as (_ & _ & Hsaved).
  assert (localStorageBackend_save (TreeExport := sampleTreeExport) freshEnvelope
            (mkRun 1 (localStorage (state freshRun)))
          = (Returned "local-1700000000001-4fzyo82mv",
             mkRun 3 {[ "christmas_tree_local-1700000000001-4fzyo82mv"
                        := TreeExportModel.generateShareCode freshEnvelope ]}))
    as Hlocal by (vm_compute; reflexivity).
  exact (Hsaved _ _ Hlocal).
Defined.


(** An unparsable code, a missing record and an unreachable remote
    store each leave a decorated tree as it was. *)
Lemma failed_load_keeps_tree_witness :
  parseShareCode (TreeExport := sampleTreeExport) "not-a-valid-code" = None ∧
  importFromCode (ambient := sampleAmbient) (treeExport := sampleTreeExport)
    "not-a-valid-code" oneBallRun = (Returned false, oneBallRun) ∧
  (loadFromCloud (ambient := sampleAmbient) (treeExport := sampleTreeExport)
     (convex := emptyConvex) "k5796s0xq3" oneBallRun).1 = Returned false ∧
  sameTree (store (state oneBallRun))
    (store (state (loadFromCloud (ambient := sampleAmbient) (treeExport := sampleTreeExport)
                     (convex := emptyConvex) "k5796s0xq3" oneBallRun).2)) ∧
  (loadFromCloud (ambient := sampleAmbient) (treeExport := sampleTreeExport)
     (convex := offlineConvex) "k5796s0xq3" oneBallRun).1 = Returned false ∧
  sameTree (store (state oneBallRun))
    (store (state (loadFromCloud (ambient := sampleAmbient) (treeExport := sampleTreeExport)
                     (convex := offlineConvex) "k5796s0xq3" oneBallRun).2)).
Proof.
  assert (parseShareCode (TreeExport := sampleTreeExport) "not-a-valid-code" = None)
    as Hparse by (vm_compute; reflexivity).
  split; [exact Hparse|]. split.
  - apply (failed_load_keeps_tree (ambient := sampleAmbient) (treeExport := sampleTreeExport)
             (convex := emptyConvex) "not-a-valid-code" "k5796s0xq3" oneBallRun).
    exact Hparse.
  - destruct (proj2 (failed_load_keeps_tree (ambient := sampleAmbient)
                       (treeExport := sampleTreeExport) (convex := emptyConvex)
                       "not-a-valid-code" "k5796s0xq3" oneBallRun)
                (or_introl eq_refl)) as (Hmissing & HmissingTree & _).
    destruct (proj2 (failed_load_keeps_tree (ambient := sampleAmbient)
                       (treeExport := sampleTreeExport) (convex := offlineConvex)
                       "not-a-valid-code" "k5796s0xq3" oneBallRun)
                (or_intror (ex_intro _ "Network error" eq_refl)))
      as (Hoffline & HofflineTree & _).
    auto.
Defined.

(** An id that no ornament has: nothing changes, and the result is
    [true]. *)
Lemma updateOrnament_unknown_id_witness :
  Forall (λ o, orn_id o ≠ "no-such-id") (st_ornaments (store (state oneBallRun))) ∧
  updateOrnament "no-such-id" recolour oneBallRun = (Returned true, oneBallRun).
Proof.
  assert (Forall (λ o, orn_id o ≠ "no-such-id") (st_ornaments (store (state oneBallRun))))
    as Habsent by (repeat constructor; discriminate).
  split; [exact Habsent|].
  apply (updateOrnament_unknown_id "no-such-id" recolour oneBallRun Habsent).
Defined.

(** C5, as stated, fails: for an id that no ornament has,
    [updateOrnament] signals success, not failure. *)
Lemma updateOrnament_unknown_id_counterexample :
  Forall (λ o, orn_id o ≠ "no-such-id") (st_ornaments (store (state oneBallRun))) ∧
  (updateOrnament "no-such-id" recolour oneBallRun).1 = Returned true ∧
  (updateOrnament "no-such-id" recolour oneBallRun).1 ≠ Returned false.
Proof.
  split; [repeat constructor; discriminate|].
  split; [reflexivity | discriminate].
Qed.

(** Recolouring the one ornament keeps its identity; forged fields
    replace it. *)
Lemma updateOrnament_merges_every_field_witness :
  ∃ o o' r',
    st_ornaments (store (state oneBallRun)) !! 0 = Some o ∧
    updateOrnament "1700000000000-4fzyo82mv" recolour oneBallRun = (Returned true, r') ∧
    st_ornaments (store (state r')) !! 0 = Some o' ∧
    orn_id o' = orn_id o ∧ orn_createdAt o' = orn_createdAt o ∧
    orn_userId o' = orn_userId o ∧ orn_userName o' = orn_userName o ∧
    orn_color o' = "#00ff00".
Proof.
  destruct (st_ornaments (store (state oneBallRun)) !! 0) as [o|] eqn:Ho;
    [|vm_compute in Ho; discriminate Ho].
  destruct (updateOrnament_merges_every_field "1700000000000-4fzyo82mv" recolour
              oneBallRun 0 o Ho) as (r' & o' & Hrun & _ & Ho' & _ & Hmerged).
  assert (orn_id o = "1700000000000-4fzyo82mv") as Hid
    by (vm_compute in Ho; injection Ho as <-; reflexivity).
  destruct (Hmerged Hid) as (Eid & Ecreated & EuserId & EuserName & _ & Ecolor & _).
  exists o, o', r'. auto 10.
Defined.

(** C6, as stated, fails: an update that carries [id], [createdAt],
    [userId] and [userName] overwrites all four. *)
Lemma updateOrnament_identity_counterexample :
  (λ o, (orn_id o, orn_createdAt o, orn_userId o, orn_userName o))
    <$> st_ornaments (store (state oneBallRun))
  = [("1700000000000-4fzyo82mv", 1700000000002%Z, Some "u1", Some "Ann")] ∧
  (λ o, (orn_id o, orn_createdAt o, orn_userId o, orn_userName o))
    <$> st_ornaments (store (state
          (updateOrnament "1700000000000-4fzyo82mv" forgedFields oneBallRun).2))
  = [("forged", 0%Z, Some "mallory", Some "Mallory")].
Proof. split; vm_compute; reflexivity. Qed.

(** A remote save sets [cloudId] and with it the cloud share URL. *)
Lemma cloudId_set_by_remote_save_only_witness :
  (saveToCloud (treeExport := sampleTreeExport) (convex := emptyConvex) None freshRun).1
    = Returned "k5796s0xq3" ∧
  st_cloudId (store (state (saveToCloud (treeExport := sampleTreeExport)
                              (convex := emptyConvex) None freshRun).2))
    = Some "k5796s0xq3" ∧
  getCloudShareURL "https://tree.example"
    (store (state (saveToCloud (treeExport := sampleTreeExport)
                     (convex := emptyConvex) None freshRun).2))
    = "https://tree.example?id=k5796s0xq3".
Proof.
  destruct (cloudId_set_by_remote_save_only (treeExport := sampleTreeExport)
              (convex := emptyConvex) None freshRun freshEnvelope
              (mkRun 1 (state freshRun)) "https://tree.example" freshRun_export)
    as (Hremote & _ & _).
  destruct (Hremote "k5796s0xq3" eq_refl) as (Hid & Hcloud & Hurl).
  split; [exact Hid|]. split; [exact Hcloud|]. apply Hurl. discriminate.
Defined.

(** C7, as stated, fails: a save that lands in the local backend,
    through the fallback of [saveToCloud] or through [saveToStorage],
    succeeds and leaves [cloudId] unset, so that no cloud share URL can
    be derived. *)
Lemma local_save_cloudId_counterexample :
  (saveToCloud (treeExport := sampleTreeExport) (convex := offlineConvex) None freshRun).1
    = Returned "local-1700000000001-4fzyo82mv" ∧
  st_cloudId (store (state (saveToCloud (treeExport := sampleTreeExport)
                              (convex := offlineConvex) None freshRun).2)) = None ∧
  getCloudShareURL "https://tree.example"
    (store (state (saveToCloud (treeExport := sampleTreeExport)
                     (convex := offlineConvex) None freshRun).2)) = "" ∧
  (saveToStorage (treeExport := sampleTreeExport) None freshRun).1
    = Returned "local-1700000000001-4fzyo82mv" ∧
  st_cloudId (store (state (saveToStorage (treeExport := sampleTreeExport)
                              None freshRun).2)) = None.
Proof. repeat split; vm_compute; reflexivity. Qed.

(** Removing an id that is not there changes nothing; removing the
    one ornament twice is removing it once. *)
Lemma removeOrnament_idempotent_witness :
  removeOrnament "no-such-id" oneBallRun = (Returned true, oneBallRun) ∧
  (removeOrnament "1700000000000-4fzyo82mv" ;; removeOrnament "1700000000000-4fzyo82mv")
    oneBallRun
  = removeOrnament "1700000000000-4fzyo82mv" oneBallRun.
Proof.
  split.
  - apply (removeOrnament_idempotent "no-such-id" oneBallRun).
    repeat constructor; discriminate.
  - apply (removeOrnament_idempotent "1700000000000-4fzyo82mv" oneBallRun).
Defined.

(** The free user may hang a ball and may not hang a heart. *)
Lemma canUseOrnamentType_gates_special_types_witness :
  st_currentUser (initialState freeUser) = Some freeUser ∧
  canUseOrnamentType (initialState freeUser) "heart" = false ∧
  canUseOrnamentType (initialState freeUser) "ball" = true.
Proof.
  split; [reflexivity|].
  apply (canUseOrnamentType_gates_special_types (initialState freeUser) freeUser "ball"
           eq_refl).
  reflexivity.
Defined.

(** Ann signs up, logs in and has her session validated: each time the
    user object she gets carries no [passwordHash]. *)
Lemma auth_user_has_no_passwordHash_witness :
  signedUp = (Returned (Auth.AuthSuccess "4fzyo82mvyr" annSafeUser), signedUp.2) ∧
  Auth.login (ambient := sampleAmbient) "ann@example.com" "hunter2" signedUp.2
    = (Returned (Auth.AuthSuccess "4fzyo82mvyr" annSafeUser),
       (Auth.login (ambient := sampleAmbient) "ann@example.com" "hunter2" signedUp.2).2) ∧
  Auth.validateSession (ambient := sampleAmbient) "4fzyo82mvyr" signedUp.2
    = (Returned (Some annSafeUser),
       (Auth.validateSession (ambient := sampleAmbient) "4fzyo82mvyr" signedUp.2).2) ∧
  annSafeUser !! "passwordHash" = None.
Proof.
  assert (signedUp = (Returned (Auth.AuthSuccess "4fzyo82mvyr" annSafeUser), signedUp.2))
    as Hsignup by (vm_compute; reflexivity).
  assert (Auth.login (ambient := sampleAmbient) "ann@example.com" "hunter2" signedUp.2
          = (Returned (Auth.AuthSuccess "4fzyo82mvyr" annSafeUser),
             (Auth.login (ambient := sampleAmbient) "ann@example.com" "hunter2"
                signedUp.2).2))
    as Hlogin by (vm_compute; reflexivity).
  assert (Auth.validateSession (ambient := sampleAmbient) "4fzyo82mvyr" signedUp.2
          = (Returned (Some annSafeUser),
             (Auth.validateSession (ambient := sampleAmbient) "4fzyo82mvyr" signedUp.2).2))
    as Hvalidate by (vm_compute; reflexivity).
  split; [exact Hsignup|]. split; [exact Hlogin|]. split; [exact Hvalidate|].
  pose proof (AuthFacts.auth_user_has_no_passwordHash (ambient := sampleAmbient)
                "ann@example.com" "hunter2" "4fzyo82mvyr" (Some "Ann")
                signedUp.2 "4fzyo82mvyr" annSafeUser _ (or_intror (or_introl Hlogin)))
    as Hafter_login.
  pose proof (AuthFacts.auth_user_has_no_passwordHash (ambient := sampleAmbient)
                "ann@example.com" "hunter2" "4fzyo82mvyr" (Some "Ann")
                signedUp.2 "4fzyo82mvyr" annSafeUser _ (or_intror (or_intror Hvalidate)))
    as Hafter_validate.
  apply (AuthFacts.auth_user_has_no_passwordHash (ambient := sampleAmbient)
           "ann@example.com" "hunter2" "" (Some "Ann")
           (mkRun 0 Convex.emptyDb) "4fzyo82mvyr" annSafeUser signedUp.2).
  left. exact Hsignup.
Defined.

(** At the quota boundary nothing more can be added and nothing
remains. *)
Lemma quota_boundary :
  usedOrnamentsOf (store (state fullRun)) = 10%Z ∧
  canAddOrnament (store (state fullRun)) = false ∧
  getRemainingOrnaments (store (state fullRun)) = 0%Z.
Proof. repeat split; vm_compute; reflexivity. Qed.

(** The basic cycle: one ball is added, the tree is exported to a share
code, and the code is imported into a fresh session, which then holds
one red ball and the same configuration. *)
Lemma basic_cycle :
  ∃ code imported,
    getShareCode (treeExport := sampleTreeExport) oneBallRun = (Returned code, mkRun 4 (state oneBallRun)) ∧
    importFromCode (ambient := sampleAmbient) (treeExport := sampleTreeExport) code freshRun
      = (Returned true, imported) ∧
    (λ o, (orn_type o, orn_color o, orn_position o, orn_scale o))
      <$> st_ornaments (store (state imported))
      = [("ball", "#ff0000", [0%Q; 1%Q; 0%Q], 1%Q)] ∧
    st_treeConfig (store (state imported)) = DEFAULT_TREE_CONFIG.
Proof.
  eexists _, _. split; [vm_compute; reflexivity|].
  split; [vm_compute; reflexivity|].
  split; reflexivity.
Qed.

End SampleFacts.

(* ================================================================== *)
(** * More properties at work on sample runs *)
(* ================================================================== *)

Module MoreSampleFacts.
Import Samples MoreSamples.

(** *** The store *)

(** The free user starts with ten slots. *)
Lemma quota_helpers_agree_witness :
  st_currentUser (initialState freeUser) = Some freeUser ∧
  getRemainingOrnaments (initialState freeUser) = 10%Z ∧
  canAddOrnament (initialState freeUser) = true.
Proof.
  destruct (quota_helpers_agree (initialState freeUser) freeUser eq_refl)
    as (_ & Hcan & Hwithin & _).
  split; [reflexivity|]. split.
  - rewrite Hwithin; [reflexivity | vm_compute; discriminate].
  - apply Hcan. vm_compute. reflexivity.
Defined.

(** The first ball takes one of them. *)
Lemma addOrnament_takes_one_slot_witness :
  ∃ o r',
    addOrnament (ambient := sampleAmbient) (store (state freshRun)) ballDraft freshRun
    = (Returned (Some o), r') ∧
    getRemainingOrnaments (store (state r')) = 9%Z ∧
    ornamentFields o = ballDraft ∧
    orn_userId o = Some "u1" ∧
    orn_userName o = Some "Ann".
Proof.
  destruct (addOrnament_takes_one_slot (ambient := sampleAmbient) ballDraft freshRun freeUser
              eq_refl eq_refl)
    as (o & r' & Hrun & Hremaining & Hfields & HuserId & HuserName & _).
  exists o, r'. split; [exact Hrun|]. split; [exact Hremaining|]. auto.
Defined.

(** Clearing a full tree gives the ten slots back. *)
Lemma clearOrnaments_frees_quota_witness :
  usedOrnamentsOf (store (state fullRun)) = 10%Z ∧
  ∃ r',
    clearOrnaments fullRun = (Returned tt, r') ∧
    getRemainingOrnaments (store (state r')) = 10%Z ∧
    canAddOrnament (store (state r')) = true.
Proof.
  split; [vm_compute; reflexivity|].
  assert (st_currentUser (store (state fullRun)) = Some freeUser) as Huser
    by (vm_compute; reflexivity).
  destruct (clearOrnaments_frees_quota fullRun freeUser Huser)
    as (r' & Hrun & _ & Hremaining & Hcan & _).
  exists r'. split; [exact Hrun|]. split; [exact Hremaining|].
  apply Hcan. vm_compute. reflexivity.
Defined.

(** An export names Ann as its author, whoever the caller names. *)
Lemma exportTreeData_author_is_current_user_witness :
  (∃ passed : PartialTreeExportMetadata,
     exportTreeData (treeExport := sampleTreeExport)
       (Some (namedMetadata (Some (Some "Mallory")))) freshRun
     = zoom (λ _, tt) (λ _ w, w)
         (exportTree (TreeExport := sampleTreeExport) [] None DEFAULT_TREE_CONFIG passed)
         freshRun ∧
     pm_authorName passed = Some (Some "Ann") ∧
     pm_authorId passed = Some (Some "u1")) ∧
  exportTreeData (treeExport := sampleTreeExport)
    (Some (namedMetadata (Some (Some "Mallory")))) freshRun
  = exportTreeData (treeExport := sampleTreeExport) (Some (namedMetadata None)) freshRun ∧
  meta_authorName <$> (match (exportTreeData (treeExport := sampleTreeExport)
                                (Some (namedMetadata (Some (Some "Mallory")))) freshRun).1 with
                       | Returned data => Some (metadata data)
                       | Threw _ => None
                       end) = Some (Some "Ann").
Proof.
  destruct (exportTreeData_author_is_current_user (treeExport := sampleTreeExport)
              (namedMetadata (Some (Some "Mallory"))) (namedMetadata None) freshRun)
    as ((passed & Hrun & _ & _ & Hauthor & _) & Halike & _).
  destruct (Hauthor freeUser eq_refl) as (HauthorName & HauthorId).
  split; [exists passed; split; [exact Hrun | split; [exact HauthorName | exact HauthorId]]|].
  split; [apply Halike; reflexivity|].
  vm_compute. reflexivity.
Defined.

(** Importing the ball envelope into a full tree replaces the ten
    ornaments by one ball and puts the star on top. *)
Lemma importFromData_replaces_tree_witness :
  ∃ r',
    importFromData (ambient := sampleAmbient) (treeExport := sampleTreeExport)
      ballEnvelope fullRun = (Returned tt, r') ∧
    ornamentFields <$> st_ornaments (store (state r')) = [ballDraft] ∧
    topperFields <$> st_topper (store (state r')) = Some starDraft ∧
    usedOrnamentsOf (store (state r')) = 1%Z.
Proof.
  destruct (importFromData_replaces_tree (ambient := sampleAmbient)
              (treeExport := sampleTreeExport) ballEnvelope ballRestore fullRun eq_refl)
    as (r' & Hrun & Hornaments & Htopper & _ & _ & Hcount & _).
  exists r'. auto.
Defined.

(** With a restore that rejects, the share code of the ball envelope is
    not imported: the call throws and the ball already on the tree
    stays. *)
Lemma importFromData_rejects_atomically_witness :
  importFromCode (ambient := sampleAmbient) (treeExport := rejectingTreeExport)
    (TreeExportModel.generateShareCode ballEnvelope) oneBallRun
  = (Threw "Invalid tree data", oneBallRun) ∧
  (loadFromCloud (ambient := sampleAmbient) (treeExport := rejectingTreeExport)
     (convex := holdingConvex) "k5796s0xq3" oneBallRun).1 = Returned false.
Proof.
  destruct (importFromData_rejects_atomically (ambient := sampleAmbient)
              (treeExport := rejectingTreeExport) (convex := holdingConvex)
              ballEnvelope "Invalid tree data" oneBallRun eq_refl)
    as (_ & Hcode & _ & Hcloud).
  split.
  - apply Hcode. vm_compute. reflexivity.
  - apply (Hcloud "k5796s0xq3" eq_refl).
Defined.

(** Loading from a remote store that cannot be reached gives [false],
    with nothing left loading. *)
Lemma loadFromCloud_never_throws_witness :
  ∃ loaded,
    (loadFromCloud (ambient := sampleAmbient) (treeExport := sampleTreeExport)
       (convex := offlineConvex) "k5796s0xq3" oneBallRun).1 = Returned loaded ∧
    st_isLoading (store (state (loadFromCloud (ambient := sampleAmbient)
                                  (treeExport := sampleTreeExport) (convex := offlineConvex)
                                  "k5796s0xq3" oneBallRun).2)) = false.
Proof.
  destruct (loadFromCloud_never_throws (ambient := sampleAmbient)
              (treeExport := sampleTreeExport) (convex := offlineConvex)
              "k5796s0xq3" oneBallRun)
    as (loaded & Hrun & Hloading & _).
  exists loaded. auto.
Defined.

(** Loading the record that the remote store holds. *)
Lemma loadFromCloud_restores_record_witness :
  (loadFromCloud (ambient := sampleAmbient) (treeExport := sampleTreeExport)
     (convex := holdingConvex) "k5796s0xq3" freshRun).1 = Returned true ∧
  ornamentFields <$> st_ornaments (store (state
      (loadFromCloud (ambient := sampleAmbient) (treeExport := sampleTreeExport)
         (convex := holdingConvex) "k5796s0xq3" freshRun).2)) = [ballDraft] ∧
  st_cloudId (store (state
      (loadFromCloud (ambient := sampleAmbient) (treeExport := sampleTreeExport)
         (convex := holdingConvex) "k5796s0xq3" freshRun).2)) = Some "k5796s0xq3".
Proof.
  destruct (loadFromCloud_restores_record (ambient := sampleAmbient)
              (treeExport := sampleTreeExport) (convex := holdingConvex)
              "k5796s0xq3" ballEnvelope ballRestore freshRun eq_refl eq_refl)
    as (Hrun & Hornaments & _ & _ & Hcloud).
  auto.
Defined.

(** Loading from local storage: an unknown id, then a stored one. *)
Lemma loadFromStorage_follows_backend_witness :
  (loadFromStorage (ambient := sampleAmbient) (treeExport := sampleTreeExport)
     "local-2" storedRun).1 = Returned false ∧
  (loadFromStorage (ambient := sampleAmbient) (treeExport := sampleTreeExport)
     "local-1" storedRun).1 = Returned true ∧
  st_cloudId (store (state (loadFromStorage (ambient := sampleAmbient)
                              (treeExport := sampleTreeExport) "local-1" storedRun).2)) = None.
Proof.
  assert (localStorageBackend_load (TreeExport := sampleTreeExport) "local-2"
            (mkRun (ticks storedRun) (localStorage (state storedRun)))
          = (Returned None, mkRun 0 (localStorage (state storedRun)))) as Hmissing
    by (vm_compute; reflexivity).
  assert (localStorageBackend_load (TreeExport := sampleTreeExport) "local-1"
            (mkRun (ticks storedRun) (localStorage (state storedRun)))
          = (Returned (Some ballEnvelope), mkRun 0 (localStorage (state storedRun))))
    as Hfound by (vm_compute; reflexivity).
  destruct (loadFromStorage_follows_backend (ambient := sampleAmbient)
              (treeExport := sampleTreeExport) "local-2" storedRun _ _ Hmissing)
    as (Hnull & _ & _).
  destruct (loadFromStorage_follows_backend (ambient := sampleAmbient)
              (treeExport := sampleTreeExport) "local-1" storedRun _ _ Hfound)
    as (_ & _ & Hsome).
  destruct (Hnull eq_refl) as (Hfalse & _).
  destruct (Hsome ballEnvelope ballRestore eq_refl eq_refl) as (Htrue & _ & _ & _ & Hcloud).
  auto.
Defined.


(** *** Accounts and sessions *)

Import Convex ConvexWrites Auth AuthProfile SessionFacts.

Lemma signedUp'_result :
  signedUp' = (Returned (AuthSuccess "tok3" annSafeUser), signedUp'.2).
Proof. vm_compute. reflexivity. Qed.

Lemma signedUp'_documents :
  docs (state signedUp'.2) !! 0%N = Some ("users", annStoredUser) ∧
  docs (state signedUp'.2) !! 1%N = Some ("sessions", annSession) ∧
  selected "users" "email" "ann@example.com" (state signedUp'.2)
    = [(0%N, ("users", annStoredUser))] ∧
  selected "sessions" "token" "tok3" (state signedUp'.2) = [(1%N, ("sessions", annSession))] ∧
  consistentb (state signedUp'.2) = true.
Proof. repeat split; vm_compute; reflexivity. Qed.

(** A second signup with Ann's email and a login with a wrong password
    are refused and leave the run as it was. *)
Lemma refused_signup_and_login_write_nothing_witness :
  (signup (ambient := countingAmbient) "ann@example.com" "other" None signedUp'.2).2
    = signedUp'.2 ∧
  (login (ambient := countingAmbient) "ann@example.com" "wrong" signedUp'.2).2 = signedUp'.2.
Proof.
  destruct (refused_signup_and_login_write_nothing (ambient := countingAmbient)
              "ann@example.com" "other" None signedUp'.2) as (Hsignup & _ & _ & _).
  destruct (refused_signup_and_login_write_nothing (ambient := countingAmbient)
              "ann@example.com" "wrong" None signedUp'.2) as (_ & Hlogin & _ & _).
  split.
  - apply (Hsignup _ _ (surjective_pairing _)). intros token u. vm_compute. discriminate.
  - apply (Hlogin _ _ (surjective_pairing _)). intros token u. vm_compute. discriminate.
Defined.

(** Ann's session is valid on the thirtieth day after her signup and
    expired on the sixtieth. *)
Lemma signup_opens_session_witness :
  (validateSession (ambient := monthlyAmbient) "tok3" (mkRun 5 (state signedUpMonthly.2))).1
    = Returned (Some annMonthlyUser) ∧
  (validateSession (ambient := monthlyAmbient) "tok3" (mkRun 6 (state signedUpMonthly.2))).1
    = Returned None.
Proof.
  assert (signedUpMonthly
          = (Returned (AuthSuccess "tok3" annMonthlyUser), signedUpMonthly.2)) as Hsignup
    by (vm_compute; reflexivity).
  assert (∀ k doc, docs (state (mkRun 0 emptyDb)) !! k = Some ("sessions", doc) →
                   field_is_string doc "token" "tok3" = false) as Hfresh
    by (intros k doc Hdoc; exact (False_ind _ (lookup_empty_Some k _ Hdoc))).
  split.
  - rewrite (signup_opens_session (ambient := monthlyAmbient) _ _ _ _ _ _ _ Hsignup Hfresh
               (mkRun 5 (state signedUpMonthly.2)) eq_refl).
    vm_compute. reflexivity.
  - rewrite (signup_opens_session (ambient := monthlyAmbient) _ _ _ _ _ _ _ Hsignup Hfresh
               (mkRun 6 (state signedUpMonthly.2)) eq_refl).
    vm_compute. reflexivity.
Defined.

(** The token of Ann's login is valid right away. *)
Lemma login_opens_session_witness :
  (validateSession (ambient := countingAmbient) "tok6" loggedIn'.2).1
    = Returned (Some annSafeUser).
Proof.
  assert (loggedIn' = (Returned (AuthSuccess "tok6" annSafeUser), loggedIn'.2)) as Hlogin
    by (vm_compute; reflexivity).
  assert (consistent (state signedUp'.2)) as Hconsistent
    by (apply consistentb_consistent; vm_compute; reflexivity).
  assert (∀ k doc, docs (state signedUp'.2) !! k = Some ("sessions", doc) →
                   field_is_string doc "token" "tok6" = false) as Hfresh
    by (apply selected_none; vm_compute; reflexivity).
  rewrite (login_opens_session (ambient := countingAmbient) _ _ _ _ _ _ Hlogin Hconsistent
             Hfresh loggedIn'.2 eq_refl).
  vm_compute. reflexivity.
Defined.

(** After her signup Ann can log in with her password and with no
    other. *)
Lemma signup_then_login_witness :
  (∃ token' r3,
     login (ambient := countingAmbient) "ann@example.com" "hunter2" signedUp'.2
     = (Returned (AuthSuccess token' annSafeUser), r3)) ∧
  login (ambient := countingAmbient) "ann@example.com" "hunter3" signedUp'.2
  = (Returned (AuthFailure "Invalid email or password"), signedUp'.2).
Proof.
  destruct (signup_then_login (ambient := countingAmbient) _ _ _ _ _ _ _ signedUp'_result
              signedUp'.2 eq_refl) as (Hlogin & Hother & _).
  split; [exact Hlogin|]. apply Hother. discriminate.
Defined.

(** Logging out closes Ann's session. *)
Lemma logout_closes_session_witness :
  ∃ r',
    logout "tok3" signedUp'.2 = (Returned tt, r') ∧
    docs (state r') = delete 1%N (docs (state signedUp'.2)) ∧
    validateSession (ambient := countingAmbient) "tok3" r' = (Returned None, r') ∧
    logout "no-such-token" signedUp'.2 = (Returned tt, signedUp'.2).
Proof.
  destruct signedUp'_documents as (_ & Hsession & _ & Hone & Hconsistent).
  destruct (proj1 (selected_one _ _ _ _ _ _) Hone) as (_ & Htoken & Honly).
  destruct (logout_closes_session (ambient := countingAmbient) "tok3" signedUp'.2)
    as (_ & Hknown).
  destruct (Hknown 1%N annSession (consistentb_consistent _ Hconsistent) Hsession Htoken Honly)
    as (r' & Hrun & Hdocs & _ & _ & Hvalidate).
  destruct (logout_closes_session (ambient := countingAmbient) "no-such-token" signedUp'.2)
    as (Hunknown & _).
  exists r'. split; [exact Hrun|]. split; [exact Hdocs|].
  split; [apply Hvalidate; reflexivity|].
  apply Hunknown. apply selected_none. vm_compute. reflexivity.
Defined.

(** Updating the profile without a name removes Ann's name and still
    hides her password hash. *)
Lemma updateProfile_changes_name_only_witness :
  ∃ u r1,
    updateProfile (ambient := countingAmbient) "tok3" None signedUp'.2
    = (Returned (Accepted u), r1) ∧
    u !! "name" = None ∧
    u !! "passwordHash" = None ∧
    u !! "email" = Some (VString "ann@example.com").
Proof.
  destruct (updateProfile (ambient := countingAmbient) "tok3" None signedUp'.2)
    as [[[e|u]|e] r1] eqn:Hrun; [vm_compute in Hrun; discriminate Hrun| |
                                 vm_compute in Hrun; discriminate Hrun].
  destruct (updateProfile_changes_name_only (ambient := countingAmbient) "tok3" None
              signedUp'.2) as (Haccepted & _ & _).
  destruct (Haccepted u r1 Hrun) as (Hhash & Hname & _).
  exists u, r1. split; [reflexivity|]. split; [exact Hname|]. split; [exact Hhash|].
  vm_compute in Hrun. injection Hrun as <- _. vm_compute. reflexivity.
Defined.

(** With her session Ann changes her password; afterwards only the new
    one logs her in. *)
Lemma changePassword_replaces_password_witness :
  (∃ token' u r3,
     login (ambient := countingAmbient) "ann@example.com" "s3cret"
       (changePassword (ambient := countingAmbient) "tok3" "hunter2" "s3cret" signedUp'.2).2
     = (Returned (AuthSuccess token' u), r3)) ∧
  (login (ambient := countingAmbient) "ann@example.com" "hunter2"
     (changePassword (ambient := countingAmbient) "tok3" "hunter2" "s3cret" signedUp'.2).2).1
  = Returned (AuthFailure "Invalid email or password") ∧
  (changePassword (ambient := countingAmbient) "tok3" "wrong" "s3cret" signedUp'.2).1
  = Returned (Refused "Invalid current password").
Proof.
  destruct signedUp'_documents as (Huser & Hsession & Hone & Hone_session & Hconsistent).
  destruct (proj1 (selected_one _ _ _ _ _ _) Hone) as (_ & Hemail & Honly).
  destruct (proj1 (selected_one _ _ _ _ _ _) Hone_session) as (_ & Htoken & Honly_session).
  pose proof (consistentb_consistent _ Hconsistent) as Hdb.
  destruct (changePassword_replaces_password (ambient := countingAmbient)
              "tok3" "hunter2" "s3cret" signedUp'.2) as (Haccepts & Haccepted & _ & _).
  assert (expiredAt annSession (Date_now (Ambient := countingAmbient) (ticks signedUp'.2))
          = false) as Hlive by (vm_compute; reflexivity).
  assert (annSession !! "userId" = Some (VId 0)) as Hnames by (vm_compute; reflexivity).
  assert (passwordDiffers annStoredUser "hunter2" = false) as Hcurrent
    by (vm_compute; reflexivity).
  destruct (Haccepts 1%N annSession 0%N "users" annStoredUser Hdb Hsession Htoken
              Honly_session Hlive Hnames Huser Hcurrent) as (r1 & Hrun).
  destruct (Haccepted _ Hrun Hdb)
    as (sessionId & session & userId & table & user & user'
        & Hfound & Hcarries & _ & _ & HuserId & Hdoc & _ & _ & _ & _ & _ & Hlogin).
  pose proof (Honly_session _ _ Hfound Hcarries) as ->.
  rewrite Hsession in Hfound. injection Hfound as <-.
  rewrite Hnames in HuserId. injection HuserId as <-.
  rewrite Huser in Hdoc. injection Hdoc as <- <-.
  destruct (Hlogin "ann@example.com" eq_refl Hemail Honly r1 eq_refl) as (Hnew & Hold).
  rewrite Hrun. cbn [snd].
  split; [exact Hnew|]. split; [rewrite Hold by discriminate; reflexivity|].
  vm_compute. reflexivity.
Defined.

(** The database stays consistent through Ann's signup. *)
Lemma auth_keeps_database_consistent_witness :
  consistent (state signedUp'.2).
Proof.
  destruct (auth_keeps_database_consistent (ambient := countingAmbient)
              "ann@example.com" "hunter2" "" "" (Some "Ann") (mkRun 0 emptyDb))
    as (Hempty & Hkeeps).
  apply (Hkeeps Hempty).
Defined.

(** *** The hook *)

Import UseAuth UseAuthFacts.

(** The hook takes Ann's login and stores her token; the refused signup
    leaves it anonymous with an error. *)
Lemma login_and_signup_settle_witness :
  user (authState (state (UseAuth.login (api := sampleApi) "ann@example.com" "hunter2"
                            anonymousRun).2)) = Some annSafeUser ∧
  browserStorage (state (UseAuth.login (api := sampleApi) "ann@example.com" "hunter2"
                           anonymousRun).2) !! TOKEN_STORAGE_KEY = Some "4fzyo82mvyr" ∧
  user (authState (state (UseAuth.signup (api := sampleApi) "ann@example.com" "hunter2" None
                            anonymousRun).2)) = None ∧
  isLoading (authState (state (UseAuth.signup (api := sampleApi) "ann@example.com" "hunter2"
                                 None anonymousRun).2)) = false.
Proof.
  destruct (login_and_signup_settle (api := sampleApi) "ann@example.com" "hunter2" None
              (UseAuth.login "ann@example.com" "hunter2")
              (loginMutation "ann@example.com" "hunter2") anonymousRun
              (or_introl (conj eq_refl eq_refl)))
    as (result & Hrun & _ & [Hreply|(message & Hthrew & _)] & Haccepted & _);
    [|discriminate Hthrew].
  injection Hreply as <-.
  destruct (Haccepted eq_refl) as (Huser & _ & _ & Hstored).
  destruct (login_and_signup_settle (api := sampleApi) "ann@example.com" "hunter2" None
              (UseAuth.signup "ann@example.com" "hunter2" None)
              (signupMutation "ann@example.com" "hunter2" None) anonymousRun
              (or_intror (conj eq_refl eq_refl)))
    as (refusal & _ & Hloading & [Hreply|(message & Hthrew & _)] & _ & Hrefused);
    [|discriminate Hthrew].
  injection Hreply as <-.
  destruct (Hrefused eq_refl) as (Hanonymous & _).
  auto.
Defined.

(** With the server out of reach Ann cannot log out; an anonymous
    logout just clears the state. *)
Lemma logout_clears_unless_remote_throws_witness :
  UseAuth.logout (api := sampleApi) annRun = (Threw "Network error", annRun) ∧
  (UseAuth.logout (api := sampleApi) anonymousRun).1 = Returned tt.
Proof.
  destruct (logout_clears_unless_remote_throws (api := sampleApi) annRun) as (Hthrows & _).
  destruct (logout_clears_unless_remote_throws (api := sampleApi) anonymousRun)
    as (_ & Hclears).
  split; [apply Hthrows; reflexivity|].
  rewrite Hclears by (left; reflexivity). reflexivity.
Defined.

(** Anonymous profile calls are turned away at once. *)
Lemma profile_calls_never_throw_witness :
  UseAuth.updateProfile (api := sampleApi) (Some "Ann") anonymousRun
  = (Returned (failed "Not authenticated"), anonymousRun) ∧
  UseAuth.changePassword (api := sampleApi) "hunter2" "s3cret" anonymousRun
  = (Returned (failed "Not authenticated"), anonymousRun).
Proof.
  apply (profile_calls_never_throw (api := sampleApi) (Some "Ann") "hunter2" "s3cret"
           anonymousRun).
  reflexivity.
Defined.

(** On mount the stored token brings Ann back. *)
Lemma initAuth_settles_witness :
  user (authState (state (initAuth (api := sampleApi)
                            (mkRun 0 (mkAuthWorld initialAuthState
                                        {[ TOKEN_STORAGE_KEY := "4fzyo82mvyr" ]}))).2))
  = Some annSafeUser ∧
  browserStorage (state (initAuth (api := sampleApi)
                           (mkRun 0 (mkAuthWorld initialAuthState
                                       {[ TOKEN_STORAGE_KEY := "stale" ]}))).2) = ∅.
Proof.
  destruct (initAuth_settles (api := sampleApi)
              (mkRun 0 (mkAuthWorld initialAuthState {[ TOKEN_STORAGE_KEY := "4fzyo82mvyr" ]})))
    as (_ & _ & _ & Hvalid).
  destruct (initAuth_settles (api := sampleApi)
              (mkRun 0 (mkAuthWorld initialAuthState {[ TOKEN_STORAGE_KEY := "stale" ]})))
    as (_ & _ & _ & Hstale).
  destruct (Hvalid "4fzyo82mvyr" eq_refl) as (Hsome & _ & _); [discriminate|].
  destruct (Hstale "stale" eq_refl) as (_ & Hnone & _); [discriminate|].
  destruct (Hsome annSafeUser eq_refl) as (Huser & _).
  destruct (Hnone eq_refl) as (Hstorage & _).
  split; [exact Huser|]. rewrite Hstorage. vm_compute. reflexivity.
Defined.

End MoreSampleFacts.
